(** * ETL pipeline of the fraud-detection project: a shallow embedding

    This development embeds [bloc1_analyse_donnees/etl_pipeline.py] (class
    [ETLPipeline]) and states the properties of its stages
    (generation, quality analysis, cleaning, aggregation, loading).

    Modelling conventions.
    - A pandas [DataFrame] is the list of its rows; a row is a record with one
      field per column of the schema written by [generer_donnees_test].
      Every cell is an [option]: [None] is pandas' missing value
      (NaN / None / NaT).
    - Numeric cells are finite rationals ([Q]).  The infinities are outside
      the model.  The group mean of the aggregation is computed in binary64,
      rounding included; of the other numeric cells only comparisons with
      constants, the order of values and missingness are used by the
      properties below.
    - The chained calls [df[col].fillna(v, inplace=True)] update the parent
      frame, as they do under the pandas releases (before 3.0) the script was
      written for.
    - A frame has the columns of its schema, so the tests
      [if col in df.columns] of the cleaner succeed; the analyzer, which is
      called on frames of two schemas, sees the columns through a class.
      The one frame without column is [pd.DataFrame([])], built from an
      empty list of records.  A column keeps the type of its schema: a text
      column whose cells are all missing is still a text column.
    - The libraries are parameters: the readers of the three files, the
      timestamp parser behind [pd.to_datetime], the storage behind the
      loader, the pseudo-random generators, Faker's providers and the
      clock.
    - Exceptions (KeyError, a timestamp that does not parse) are [None] in an
      option/state monad.  Console output is not modelled, except the
      integrity verdict printed by the loader.
    - DataFrames are heap objects: the pipeline's dictionaries hold
      references, [.copy()] allocates, in-place methods mutate. *)

From stdpp Require Import gmap strings list pretty.
From Stdlib Require Import Ascii QArith Qround Lqa OrderedTypeEx.

Local Open Scope string_scope.
Local Open Scope list_scope.

(** ** 1. Cells and the three source schemas *)

(** A timestamp column holds text when it was read from CSV/JSON and an
    instant (seconds) once [pd.to_datetime] has converted it. *)
Inductive Horodatage : Type :=
  | Texte (s : string)
  | Instant (t : Z).

#[global] Instance Horodatage_eq_dec : EqDecision Horodatage.
Proof. solve_decision. Defined.

#[global] Instance Q_leibniz_eq_dec : EqDecision Q.
Proof. solve_decision. Defined.

(** [isna] of a cell. *)
Definition isna {A : Type} (c : option A) : bool :=
  match c with None => true | Some _ => false end.

(** Equality of two cells as [duplicated] sees it: two missing cells are
    equal. *)
Definition cellule_eqb {A : Type} (eqb : A -> A -> bool) (a b : option A) : bool :=
  match a, b with
  | None, None => true
  | Some x, Some y => eqb x y
  | _, _ => false
  end.

Definition horodatage_eqb (a b : Horodatage) : bool := bool_decide (a = b).

Module Transaction.
Record t : Type := Build {
  transaction_id : option string;
  client_id : option string;
  montant : option Q;
  devise : option string;
  date_heure : option Horodatage;
  type_transaction : option string;
  type_carte : option string;
  merchant_id : option string;
  merchant_category : option string;
  pays : option string;
  ville : option string;
  latitude : option Q;
  longitude : option Q;
  canal : option string;
  is_fraud : option bool
}.

Definition set_latitude (v : option Q) (r : t) : t :=
  Build (transaction_id r) (client_id r) (montant r) (devise r) (date_heure r)
    (type_transaction r) (type_carte r) (merchant_id r) (merchant_category r)
    (pays r) (ville r) v (longitude r) (canal r) (is_fraud r).

Definition set_longitude (v : option Q) (r : t) : t :=
  Build (transaction_id r) (client_id r) (montant r) (devise r) (date_heure r)
    (type_transaction r) (type_carte r) (merchant_id r) (merchant_category r)
    (pays r) (ville r) (latitude r) v (canal r) (is_fraud r).

Definition set_ville (v : option string) (r : t) : t :=
  Build (transaction_id r) (client_id r) (montant r) (devise r) (date_heure r)
    (type_transaction r) (type_carte r) (merchant_id r) (merchant_category r)
    (pays r) v (latitude r) (longitude r) (canal r) (is_fraud r).

Definition set_merchant_category (v : option string) (r : t) : t :=
  Build (transaction_id r) (client_id r) (montant r) (devise r) (date_heure r)
    (type_transaction r) (type_carte r) (merchant_id r) v
    (pays r) (ville r) (latitude r) (longitude r) (canal r) (is_fraud r).

Definition set_date_heure (v : option Horodatage) (r : t) : t :=
  Build (transaction_id r) (client_id r) (montant r) (devise r) v
    (type_transaction r) (type_carte r) (merchant_id r) (merchant_category r)
    (pays r) (ville r) (latitude r) (longitude r) (canal r) (is_fraud r).

(** Column names, in the order of the dictionary built at lines 71-90. *)
Definition columns : list string :=
  ["transaction_id"; "client_id"; "montant"; "devise"; "date_heure";
   "type_transaction"; "type_carte"; "merchant_id"; "merchant_category";
   "pays"; "ville"; "latitude"; "longitude"; "canal"; "is_fraud"].

(** [isna] of every cell of a row, in column order. *)
Definition isna_ligne (r : t) : list bool :=
  [isna (transaction_id r); isna (client_id r); isna (montant r);
   isna (devise r); isna (date_heure r); isna (type_transaction r);
   isna (type_carte r); isna (merchant_id r); isna (merchant_category r);
   isna (pays r); isna (ville r); isna (latitude r); isna (longitude r);
   isna (canal r); isna (is_fraud r)].

Definition eqb (a b : t) : bool :=
  cellule_eqb String.eqb (transaction_id a) (transaction_id b)
  && cellule_eqb String.eqb (client_id a) (client_id b)
  && cellule_eqb Qeq_bool (montant a) (montant b)
  && cellule_eqb String.eqb (devise a) (devise b)
  && cellule_eqb horodatage_eqb (date_heure a) (date_heure b)
  && cellule_eqb String.eqb (type_transaction a) (type_transaction b)
  && cellule_eqb String.eqb (type_carte a) (type_carte b)
  && cellule_eqb String.eqb (merchant_id a) (merchant_id b)
  && cellule_eqb String.eqb (merchant_category a) (merchant_category b)
  && cellule_eqb String.eqb (pays a) (pays b)
  && cellule_eqb String.eqb (ville a) (ville b)
  && cellule_eqb Qeq_bool (latitude a) (latitude b)
  && cellule_eqb Qeq_bool (longitude a) (longitude b)
  && cellule_eqb String.eqb (canal a) (canal b)
  && cellule_eqb Bool.eqb (is_fraud a) (is_fraud b).
End Transaction.

Module Client.
Record t : Type := Build {
  client_id : option string;
  age : option Z;
  sexe : option string;
  code_postal : option string;
  anciennete_mois : option Z;
  nb_produits : option Z;
  revenu_annuel_tranche : option string;
  score_credit : option Q;
  date_derniere_fraude : option Z
}.

Definition set_score_credit (v : option Q) (r : t) : t :=
  Build (client_id r) (age r) (sexe r) (code_postal r) (anciennete_mois r)
    (nb_produits r) (revenu_annuel_tranche r) v (date_derniere_fraude r).

Definition columns : list string :=
  ["client_id"; "age"; "sexe"; "code_postal"; "anciennete_mois";
   "nb_produits"; "revenu_annuel_tranche"; "score_credit";
   "date_derniere_fraude"].

Definition isna_ligne (r : t) : list bool :=
  [isna (client_id r); isna (age r); isna (sexe r); isna (code_postal r);
   isna (anciennete_mois r); isna (nb_produits r);
   isna (revenu_annuel_tranche r); isna (score_credit r);
   isna (date_derniere_fraude r)].

Definition eqb (a b : t) : bool :=
  cellule_eqb String.eqb (client_id a) (client_id b)
  && cellule_eqb Z.eqb (age a) (age b)
  && cellule_eqb String.eqb (sexe a) (sexe b)
  && cellule_eqb String.eqb (code_postal a) (code_postal b)
  && cellule_eqb Z.eqb (anciennete_mois a) (anciennete_mois b)
  && cellule_eqb Z.eqb (nb_produits a) (nb_produits b)
  && cellule_eqb String.eqb (revenu_annuel_tranche a) (revenu_annuel_tranche b)
  && cellule_eqb Qeq_bool (score_credit a) (score_credit b)
  && cellule_eqb Z.eqb (date_derniere_fraude a) (date_derniere_fraude b).
End Client.

Module Log.
Record t : Type := Build {
  session_id : option string;
  client_id : option string;
  timestamp : option Horodatage;
  action : option string;
  device_type : option string;
  os : option string;
  browser : option string;
  ip_address : option string;
  duree_session_sec : option Z
}.

Definition set_timestamp (v : option Horodatage) (r : t) : t :=
  Build (session_id r) (client_id r) v (action r) (device_type r) (os r)
    (browser r) (ip_address r) (duree_session_sec r).

Definition columns : list string :=
  ["session_id"; "client_id"; "timestamp"; "action"; "device_type"; "os";
   "browser"; "ip_address"; "duree_session_sec"].

#[global] Instance eq_dec : EqDecision t.
Proof. solve_decision. Defined.
End Log.

(** One row of [logs_agg]: the per-client features. *)
Module Features.
Record t : Type := Build {
  client_id : string;
  nb_sessions : Q;
  duree_moy_session_sec : option Q
}.
End Features.

(** One row of the unified dataset: the transaction columns, the client
    columns brought by the first merge (all missing when no client matched),
    and the two feature columns. *)
Module Final.
Record t : Type := Build {
  trans : Transaction.t;
  client : option Client.t;
  nb_sessions : option Q;
  duree_moy_session_sec : option Q
}.

Definition set_nb_sessions (v : option Q) (r : t) : t :=
  Build (trans r) (client r) v (duree_moy_session_sec r).

Definition set_duree_moy_session_sec (v : option Q) (r : t) : t :=
  Build (trans r) (client r) (nb_sessions r) v.

(** 15 transaction columns, 8 client columns (the key is shared) and the
    two features. *)
Definition nb_colonnes : nat := 25.
End Final.

(** ** 2. The pandas operations the pipeline calls *)

(** *** Columns *)

Definition dropna {A : Type} (col : list (option A)) : list A := omap id col.

(** [col.isna().sum()] *)
Definition isna_sum {A : Type} (col : list (option A)) : nat :=
  length (List.filter isna col).

(** [(cond).sum()] for a boolean mask computed row by row. *)
Definition mask_sum {R : Type} (cond : R -> bool) (df : list R) : nat :=
  length (List.filter cond df).

(** Comparisons of a numeric cell with a constant; a missing cell compares
    false, as NaN does. *)
Definition Qlt_bool (x y : Q) : bool := negb (Qle_bool y x).

Definition cell_lt (c : option Q) (k : Q) : bool :=
  match c with Some x => Qlt_bool x k | None => false end.

Definition cell_gt (c : option Q) (k : Q) : bool :=
  match c with Some x => Qlt_bool k x | None => false end.

Definition cell_ge (c : option Q) (k : Q) : bool :=
  match c with Some x => Qle_bool k x | None => false end.

(** *** Median: the middle of the sorted non-missing values, the mean of the
    two middle values when their number is even, NaN when there is none. *)

Fixpoint inserer_q (x : Q) (l : list Q) : list Q :=
  match l with
  | [] => [x]
  | y :: l' => if Qle_bool x y then x :: l else y :: inserer_q x l'
  end.

Definition trier_q (l : list Q) : list Q := foldr inserer_q [] l.

Definition median (col : list (option Q)) : option Q :=
  let s := trier_q (dropna col) in
  let n := length s in
  if Nat.eqb n 0 then None
  else if Nat.odd n then s !! (n / 2)%nat
  else match s !! (n / 2 - 1)%nat, s !! (n / 2)%nat with
       | Some a, Some b => Some ((a + b) / (2 # 1))%Q
       | _, _ => None
       end.

(** *** Mode: the values with the highest number of occurrences among the
    non-missing ones, returned in ascending order ([Series.mode] sorts its
    result). *)

Fixpoint inserer_s (x : string) (l : list string) : list string :=
  match l with
  | [] => [x]
  | y :: l' => if String.leb x y then x :: l else y :: inserer_s x l'
  end.

Definition trier_s (l : list string) : list string := foldr inserer_s [] l.

Definition occurrences (v : string) (vals : list string) : nat :=
  length (List.filter (String.eqb v) vals).

Definition max_occurrences (vals : list string) : nat :=
  max_list (map (fun v => occurrences v vals) vals).

Definition mode (col : list (option string)) : list string :=
  let vals := dropna col in
  let m := max_occurrences vals in
  trier_s (remove_dups (List.filter (fun v => Nat.eqb (occurrences v vals) m) vals)).

(** A list of strings in ascending order. *)
Fixpoint croissante (l : list string) : Prop :=
  match l with
  | [] => True
  | m :: t => Forall (fun v => String.leb m v = true) t /\ croissante t
  end.

(** *** [fillna] on one column of a frame, in place. *)

Definition fillna {R A : Type} (get : R -> option A) (set : option A -> R -> R)
    (value : option A) (df : list R) : list R :=
  map (fun r => match get r with None => set value r | Some _ => r end) df.

(** *** [drop_duplicates(subset=..., keep='first')] *)

Fixpoint drop_duplicates_depuis {R K : Type} `{EqDecision K}
    (subset : R -> K) (vus : list K) (df : list R) : list R :=
  match df with
  | [] => []
  | r :: df' =>
      if decide (subset r ∈ vus) then drop_duplicates_depuis subset vus df'
      else r :: drop_duplicates_depuis subset (subset r :: vus) df'
  end.

Definition drop_duplicates {R K : Type} `{EqDecision K}
    (subset : R -> K) (df : list R) : list R :=
  drop_duplicates_depuis subset [] df.

(** [df.duplicated().sum()]: the rows equal to an earlier row. *)
Fixpoint duplicated_sum {R : Type} (eqb : R -> R -> bool) (vus : list R)
    (df : list R) : nat :=
  match df with
  | [] => 0
  | r :: df' =>
      ((if existsb (eqb r) vus then 1 else 0) + duplicated_sum eqb (r :: vus) df')%nat
  end.

(** *** [merge(how='left')]: every left row, once per right row with the same
    key, or once with missing right columns when no right row has it.  Two
    missing keys match each other. *)

Definition merge_left {L R K : Type} `{EqDecision K}
    (on_left : L -> K) (on_right : R -> K) (left : list L) (right : list R)
    : list (L * option R) :=
  List.flat_map
    (fun l =>
       match List.filter (fun r => bool_decide (on_right r = on_left l)) right with
       | [] => [(l, None)]
       | ms => map (fun r => (l, Some r)) ms
       end)
    left.

(** *** [groupby(key)]: the distinct non-missing keys, sorted. *)

Definition groupby_keys (col : list (option string)) : list string :=
  trier_s (remove_dups (dropna col)).

(** *** The group mean, in binary64.

    [arrondi_binary64 q] is the binary64 number nearest to [q], ties to the
    even mantissa: with [2^e <= |q| < 2^(e+1)], the multiple of [2^(e-52)]
    nearest to [q].  Overflow and subnormal numbers are outside the model. *)
Definition arrondi_binary64 (q : Q) : Q :=
  let n := Qnum q in
  let d := Zpos (Qden q) in
  if Z.eqb n 0 then 0%Q
  else
    let a := Z.abs n in
    let e0 := (Z.log2 a - Z.log2 d)%Z in
    let e := if Z.ltb (a * 2 ^ Z.max 0 (- e0)) (d * 2 ^ Z.max 0 e0)
             then (e0 - 1)%Z else e0 in
    let s := (e - 52)%Z in
    let num := (a * 2 ^ Z.max 0 (- s))%Z in
    let den := (d * 2 ^ Z.max 0 s)%Z in
    let m := (num / den)%Z in
    let r := (num mod den)%Z in
    let m' := if Z.ltb (2 * r) den then m
              else if Z.ltb den (2 * r) then (m + 1)%Z
              else if Z.even m then m else (m + 1)%Z in
    Qred (Qmake (Z.sgn n * m' * 2 ^ Z.max 0 s) (Z.to_pos (2 ^ Z.max 0 (- s)))).

(** The compensated (Kahan) sum of the cython [group_mean], every operation
    rounded. *)
Fixpoint somme_kahan (sumx compensation : Q) (values : list Q) : Q :=
  match values with
  | [] => sumx
  | val :: values' =>
      let y := arrondi_binary64 (val - compensation) in
      let t := arrondi_binary64 (sumx + y) in
      let compensation' :=
        arrondi_binary64 (arrondi_binary64 (t - sumx) - y) in
      somme_kahan t compensation' values'
  end.

(** ['mean'] of a group: NaN when the group has no value; otherwise the
    values are cast to binary64, summed, and the sum is divided by their
    number. *)
Definition mean (l : list Z) : option Q :=
  match l with
  | [] => None
  | _ =>
      let values := map (fun z => arrondi_binary64 (inject_Z z)) l in
      Some (arrondi_binary64
              (somme_kahan 0 0 values / inject_Z (Z.of_nat (length l))))
  end.

(** *** [pd.to_datetime] *)

Section Conversion.

(** The parser of one text cell: [None] when the text does not parse (the
    call then raises). *)
Variable analyse : string -> option Z.

Definition to_datetime_cellule (c : option Horodatage) : option (option Horodatage) :=
  match c with
  | None => Some None
  | Some (Instant t) => Some (Some (Instant t))
  | Some (Texte s) =>
      match analyse s with
      | Some t => Some (Some (Instant t))
      | None => None
      end
  end.

(** The conversion of a column, every cell with the same parser. *)
Definition to_datetime_avec {R : Type} (get : R -> option Horodatage)
    (set : option Horodatage -> R -> R) (df : list R) : option (list R) :=
  mapM (fun r => c ← to_datetime_cellule (get r); Some (set c r)) df.

End Conversion.

(** The first non-missing cell of a column, when it is text: pandas (2.x)
    infers the format of the whole column from it. *)
Definition reference (col : list (option Horodatage)) : option string :=
  match dropna col with
  | Texte s :: _ => Some s
  | _ => None
  end.

(** [pd.to_datetime(df[col])].  The library is the parameter
    [analyse_date]: [analyse_date ref s] is the instant read in the text [s]
    of a column whose first non-missing cell is the text [ref] (the format
    guessed from [ref] is then required of every text of the column, and a
    text of another format raises even if it parses alone), or, with [None]
    for [ref], of a column whose first non-missing cell is not text (each text
    is then parsed alone); [None] as result is the exception. *)
Definition to_datetime (analyse_date : option string -> string -> option Z)
    {R : Type} (get : R -> option Horodatage)
    (set : option Horodatage -> R -> R) (df : list R) : option (list R) :=
  to_datetime_avec (analyse_date (reference (map get df))) get set df.

(** A cell that is not text (any more). *)
Definition convertie (c : option Horodatage) : Prop :=
  forall s, c <> Some (Texte s).

(** A cell the parser accepts. *)
Definition analysable (analyse : string -> option Z)
    (c : option Horodatage) : Prop :=
  forall s, c = Some (Texte s) -> is_Some (analyse s).

(** A column [pd.to_datetime] converts: every text parses in the format
    inferred from the first one. *)
Definition convertible (analyse_date : option string -> string -> option Z)
    (col : list (option Horodatage)) : Prop :=
  Forall (analysable (analyse_date (reference col))) col.

(** Texts of one format: each parses whichever of them the format is
    inferred from, and also alone. *)
Definition meme_format (analyse_date : option string -> string -> option Z)
    (col : list (option Horodatage)) : Prop :=
  forall ref s,
    ref = None \/ (exists s0, ref = Some s0 /\ In (Some (Texte s0)) col) ->
    In (Some (Texte s)) col ->
    is_Some (analyse_date ref s).

(** *** Python dictionaries with string keys, in insertion order. *)

Definition dict (V : Type) : Type := list (string * V).

Fixpoint dict_get {V : Type} (k : string) (d : dict V) : option V :=
  match d with
  | [] => None
  | (k', v) :: d' => if String.eqb k k' then Some v else dict_get k d'
  end.

Fixpoint dict_set {V : Type} (k : string) (v : V) (d : dict V) : dict V :=
  match d with
  | [] => [(k, v)]
  | (k', v') :: d' =>
      if String.eqb k k' then (k, v) :: d' else (k', v') :: dict_set k v d'
  end.

(** ** 3. Quality analysis *)

(** What [analyser_qualite_donnees] needs to know of a frame: its columns,
    the missing cells and equality of rows, and the two columns its anomaly
    tests look for ([None] when the frame has no such column). *)
Class Schema (R : Type) : Type := {
  colonnes : list string;
  ligne_isna : R -> list bool;
  ligne_eqb : R -> R -> bool;
  colonne_montant : option (R -> option Q);
  colonne_latitude : option (R -> option Q)
}.

#[global] Instance Schema_Transaction : Schema Transaction.t := {
  colonnes := Transaction.columns;
  ligne_isna := Transaction.isna_ligne;
  ligne_eqb := Transaction.eqb;
  colonne_montant := Some Transaction.montant;
  colonne_latitude := Some Transaction.latitude
}.

#[global] Instance Schema_Client : Schema Client.t := {
  colonnes := Client.columns;
  ligne_isna := Client.isna_ligne;
  ligne_eqb := Client.eqb;
  colonne_montant := None;
  colonne_latitude := None
}.

(** The report; the percentage stored next to each missing count is
    [count / nb_lignes * 100] rounded for display and is left out. *)
Record Stats : Type := {
  nom : string;
  nb_lignes : nat;
  nb_colonnes : nat;
  valeurs_manquantes : dict nat;
  doublons : nat;
  anomalies : dict nat
}.

(** The loop over the columns: an entry for each column with a missing
    cell. *)
Fixpoint compter_manquantes {R : Type} (isna_de : R -> list bool) (df : list R)
    (i : nat) (cols : list string) (acc : dict nat) : dict nat :=
  match cols with
  | [] => acc
  | col :: cols' =>
      let nb_nan := mask_sum (fun r => default false (isna_de r !! i)) df in
      compter_manquantes isna_de df (S i) cols'
        (if Nat.ltb 0 nb_nan then dict_set col nb_nan acc else acc)
  end.

Definition analyser_qualite_donnees {R : Type} `{Schema R} (df : list R)
    (nom_source : string) : Stats :=
  let manquantes := compter_manquantes ligne_isna df 0 colonnes [] in
  let anomalies0 : dict nat := [] in
  let anomalies1 :=
    match colonne_montant with
    | Some montant =>
        dict_set "montants_extremes"
          (mask_sum (fun r => cell_gt (montant r) (10000 # 1)) df)
          (dict_set "montants_negatifs"
             (mask_sum (fun r => cell_lt (montant r) 0) df) anomalies0)
    | None => anomalies0
    end in
  let anomalies2 :=
    match colonne_latitude with
    | Some latitude =>
        dict_set "coordonnees_invalides"
          (mask_sum (fun r => cell_lt (latitude r) (- (90 # 1))
                              || cell_gt (latitude r) (90 # 1)) df)
          anomalies1
    | None => anomalies1
    end in
  {| nom := nom_source;
     nb_lignes := length df;
     nb_colonnes := length (colonnes (R := R));
     valeurs_manquantes := manquantes;
     doublons := duplicated_sum ligne_eqb [] df;
     anomalies := anomalies2 |}.

(** ** 4. The pipeline object and its heap *)

(** A frame of one of the four schemas, or [DfVide], the frame without row
    and without column that [pd.DataFrame([])] builds. *)
Inductive DataFrame : Type :=
  | DfTransactions (l : list Transaction.t)
  | DfClients (l : list Client.t)
  | DfLogs (l : list Log.t)
  | DfFinal (l : list Final.t)
  | DfVide.

(** [len(df)] and [len(df.columns)] *)
Definition len (df : DataFrame) : nat :=
  match df with
  | DfTransactions l => length l
  | DfClients l => length l
  | DfLogs l => length l
  | DfFinal l => length l
  | DfVide => 0
  end.

Definition len_columns (df : DataFrame) : nat :=
  match df with
  | DfTransactions _ => length Transaction.columns
  | DfClients _ => length Client.columns
  | DfLogs _ => length Log.columns
  | DfFinal _ => Final.nb_colonnes
  | DfVide => 0
  end.

(** Frames of a given row type among the heap objects. *)
Class Cadre (R : Type) : Type := {
  vers_df : list R -> DataFrame;
  depuis_df : DataFrame -> option (list R);
  depuis_vers : forall l, depuis_df (vers_df l) = Some l;
  vers_depuis : forall df l, depuis_df df = Some l -> df = vers_df l
}.

#[global, refine] Instance Cadre_Transaction : Cadre Transaction.t := {
  vers_df := DfTransactions;
  depuis_df df := match df with DfTransactions l => Some l | _ => None end
}.
Proof.
  - reflexivity.
  - intros [] l0; simpl; congruence.
Defined.

#[global, refine] Instance Cadre_Client : Cadre Client.t := {
  vers_df := DfClients;
  depuis_df df := match df with DfClients l => Some l | _ => None end
}.
Proof.
  - reflexivity.
  - intros [] l0; simpl; congruence.
Defined.

#[global, refine] Instance Cadre_Log : Cadre Log.t := {
  vers_df := DfLogs;
  depuis_df df := match df with DfLogs l => Some l | _ => None end
}.
Proof.
  - reflexivity.
  - intros [] l0; simpl; congruence.
Defined.

#[global, refine] Instance Cadre_Final : Cadre Final.t := {
  vers_df := DfFinal;
  depuis_df df := match df with DfFinal l => Some l | _ => None end
}.
Proof.
  - reflexivity.
  - intros [] l0; simpl; congruence.
Defined.

(** The object: the heap of DataFrames and the three dictionaries set up by
    [__init__]. *)
Record ETLPipeline : Type := {
  tas : gmap positive DataFrame;
  data_sources : dict positive;
  cleaned_data : dict positive;
  stats_nettoyage : dict (Stats * Stats)
}.

(** Methods run in a state monad over the object; [None] is an exception. *)
Definition M (A : Type) : Type := ETLPipeline -> option (A * ETLPipeline).

Definition ret {A : Type} (a : A) : M A := fun p => Some (a, p).

Definition bind {A B : Type} (m : M A) (f : A -> M B) : M B :=
  fun p => match m p with Some (a, p') => f a p' | None => None end.

Definition raise {A : Type} : M A := fun _ => None.

Definition lift {A : Type} (o : option A) : M A :=
  fun p => match o with Some a => Some (a, p) | None => None end.

#[global] Instance M_ret : MRet M := @ret.
#[global] Instance M_bind : MBind M := fun A B f m => bind m f.

(** [self.data_sources[k]], [self.cleaned_data[k]] *)
Definition lire_source (k : string) : M positive :=
  fun p => lift (dict_get k (data_sources p)) p.

Definition lire_cleaned (k : string) : M positive :=
  fun p => lift (dict_get k (cleaned_data p)) p.

(** [self.cleaned_data[k] = df], [self.stats_nettoyage[k] = ...] *)
Definition set_cleaned (k : string) (r : positive) : M unit :=
  fun p => Some (tt, {| tas := tas p;
                        data_sources := data_sources p;
                        cleaned_data := dict_set k r (cleaned_data p);
                        stats_nettoyage := stats_nettoyage p |}).

Definition set_stats (k : string) (s : Stats * Stats) : M unit :=
  fun p => Some (tt, {| tas := tas p;
                        data_sources := data_sources p;
                        cleaned_data := cleaned_data p;
                        stats_nettoyage := dict_set k s (stats_nettoyage p) |}).

(** [return self.cleaned_data] *)
Definition retourner_cleaned_data : M (dict positive) :=
  fun p => Some (cleaned_data p, p).

(** Reading the object behind a reference. *)
Definition deref (r : positive) : M DataFrame :=
  fun p => lift (tas p !! r) p.

(** A new object. *)
Definition alloc (df : DataFrame) : M positive :=
  fun p => let r := fresh (dom (tas p)) in
           Some (r, {| tas := <[r := df]> (tas p);
                       data_sources := data_sources p;
                       cleaned_data := cleaned_data p;
                       stats_nettoyage := stats_nettoyage p |}).

(** Overwriting the object behind a reference (what an in-place method
    does). *)
Definition ecrire (r : positive) (df : DataFrame) : M unit :=
  fun p => Some (tt, {| tas := <[r := df]> (tas p);
                        data_sources := data_sources p;
                        cleaned_data := cleaned_data p;
                        stats_nettoyage := stats_nettoyage p |}).

(** [df.copy()] *)
Definition copy (r : positive) : M positive :=
  df ← deref r; alloc df.

(** The rows of a frame of the expected type (a frame of another type, or
    without column, lacks the columns the caller indexes: KeyError). *)
Definition lignes {R : Type} `{Cadre R} (r : positive) : M (list R) :=
  df ← deref r; lift (depuis_df df).

(** An in-place method: the frame behind [r] becomes [f] of itself. *)
Definition en_place {R : Type} `{Cadre R} (r : positive)
    (f : list R -> option (list R)) : M unit :=
  l ← lignes r; l' ← lift (f l); ecrire r (vers_df l').

(** ** 5. Cleaning *)

Section Nettoyage.

Variable analyse_date : option string -> string -> option Z.

Import Transaction Client Log.

(** [col.mode()[0] if not col.mode().empty else 'AUTRE'] *)
Definition mode_ou_autre (col : list (option string)) : string :=
  match mode col with
  | m :: _ => m
  | [] => "AUTRE"
  end.

(** The method, section by section. *)

(** 1. Nettoyage transactions *)
Definition nettoyage_transactions : M unit :=
  src ← lire_source "transactions";
  df_trans ← copy src;
  l_avant ← lignes (R := Transaction.t) df_trans;
  let stats_avant := analyser_qualite_donnees l_avant "transactions" in
  (* latitude / longitude: median *)
  en_place df_trans (fun l =>
    Some (fillna latitude set_latitude (median (map latitude l)) l));;
  en_place df_trans (fun l =>
    Some (fillna longitude set_longitude (median (map longitude l)) l));;
  (* ville: constant label *)
  en_place df_trans (fun l =>
    Some (fillna ville set_ville (Some "VILLE_INCONNUE") l));;
  (* merchant_category: mode, or 'AUTRE' *)
  en_place df_trans (fun l =>
    let mode_cat := mode_ou_autre (map merchant_category l) in
    Some (fillna merchant_category set_merchant_category (Some mode_cat) l));;
  (* duplicates on transaction_id *)
  en_place df_trans (fun l => Some (drop_duplicates transaction_id l));;
  (* negative amounts: the selection is a new frame *)
  l ← lignes (R := Transaction.t) df_trans;
  df_trans ← alloc (DfTransactions
                      (List.filter (fun r => cell_ge (montant r) 0) l));
  (* date_heure: datetime *)
  en_place df_trans (to_datetime analyse_date date_heure set_date_heure);;
  l_apres ← lignes (R := Transaction.t) df_trans;
  let stats_apres := analyser_qualite_donnees l_apres "transactions" in
  set_cleaned "transactions" df_trans;;
  set_stats "transactions" (stats_avant, stats_apres).

(** 2. Nettoyage clients *)
Definition nettoyage_clients : M unit :=
  src ← lire_source "clients";
  df_clients ← copy src;
  l_avant ← lignes (R := Client.t) df_clients;
  let stats_avant := analyser_qualite_donnees l_avant "clients" in
  (* score_credit: median; date_derniere_fraude is left as it is *)
  en_place df_clients (fun l =>
    let mediane := median (map score_credit l) in
    Some (fillna score_credit set_score_credit mediane l));;
  l_apres ← lignes (R := Client.t) df_clients;
  let stats_apres := analyser_qualite_donnees l_apres "clients" in
  set_cleaned "clients" df_clients;;
  set_stats "clients" (stats_avant, stats_apres).

(** 3. Nettoyage logs *)
Definition nettoyage_logs : M unit :=
  src ← lire_source "logs";
  df_logs ← copy src;
  en_place df_logs (to_datetime analyse_date timestamp set_timestamp);;
  en_place df_logs (fun l => Some (drop_duplicates (fun r : Log.t => r) l));;
  set_cleaned "logs" df_logs.

Definition nettoyer_donnees : M (dict positive) :=
  nettoyage_transactions;;
  nettoyage_clients;;
  nettoyage_logs;;
  retourner_cleaned_data.

(** The frames the three sections leave behind, as functions of the source
    frames. *)
Definition transactions_imputees (l : list Transaction.t) : list Transaction.t :=
  let l := fillna latitude set_latitude (median (map latitude l)) l in
  let l := fillna longitude set_longitude (median (map longitude l)) l in
  let l := fillna ville set_ville (Some "VILLE_INCONNUE") l in
  let mode_cat := mode_ou_autre (map merchant_category l) in
  fillna merchant_category set_merchant_category (Some mode_cat) l.

Definition transactions_filtrees (l : list Transaction.t) : list Transaction.t :=
  List.filter (fun r => cell_ge (montant r) 0)
    (drop_duplicates transaction_id (transactions_imputees l)).

Definition transactions_nettoyees (l : list Transaction.t)
    : option (list Transaction.t) :=
  to_datetime analyse_date date_heure set_date_heure (transactions_filtrees l).

Definition clients_nettoyes (l : list Client.t) : list Client.t :=
  fillna score_credit set_score_credit (median (map score_credit l)) l.

Definition logs_nettoyes (l : list Log.t) : option (list Log.t) :=
  l' ← to_datetime analyse_date timestamp set_timestamp l;
  Some (drop_duplicates (fun r : Log.t => r) l').

End Nettoyage.

(** ** 6. Aggregation *)

(** [df_logs.groupby('client_id').agg({'session_id': 'count',
    'duree_session_sec': 'mean'}).reset_index()] *)
Definition logs_agg (df_logs : list Log.t) : list Features.t :=
  map (fun k =>
         let groupe :=
           List.filter (fun r => bool_decide (Log.client_id r = Some k)) df_logs in
         Features.Build k
           (inject_Z (Z.of_nat (length (dropna (map Log.session_id groupe)))))
           (mean (dropna (map Log.duree_session_sec groupe))))
      (groupby_keys (map Log.client_id df_logs)).

(** The two merges, as rows of the unified dataset. *)
Definition fusionner (df_trans : list Transaction.t) (df_clients : list Client.t)
    (agg : list Features.t) : list Final.t :=
  let df_merged :=
    merge_left Transaction.client_id Client.client_id df_trans df_clients in
  let df_merged :=
    merge_left (fun tc : Transaction.t * option Client.t => Transaction.client_id (fst tc))
      (fun f => Some (Features.client_id f)) df_merged agg in
  map (fun tcf : Transaction.t * option Client.t * option Features.t =>
         Final.Build (fst (fst tcf)) (snd (fst tcf))
           (Features.nb_sessions <$> snd tcf)
           (snd tcf ≫= Features.duree_moy_session_sec))
      df_merged.

Definition agréger_données : M positive :=
  df_trans ← lire_cleaned "transactions";
  df_clients ← lire_cleaned "clients";
  df_logs ← lire_cleaned "logs";
  l_logs ← lignes (R := Log.t) df_logs;
  let agg := logs_agg l_logs in
  l_trans ← lignes (R := Transaction.t) df_trans;
  l_clients ← lignes (R := Client.t) df_clients;
  df_merged ← alloc (DfFinal (fusionner l_trans l_clients agg));
  en_place df_merged (fun l =>
    Some (fillna Final.nb_sessions Final.set_nb_sessions (Some 0%Q) l));;
  en_place df_merged (fun l =>
    Some (fillna Final.duree_moy_session_sec Final.set_duree_moy_session_sec
            (Some 0%Q) l));;
  set_cleaned "dataset_final" df_merged;;
  mret df_merged.

(** ** 7. Loading *)

Module Chargement.
Record t : Type := Build {
  lignes : nat;
  colonnes : nat;
  fichier : string;
  status : string
}.
End Chargement.

(** What the loader prints about the integrity of a table. *)
Inductive Message : Type :=
  | Integrite_verifiee (table_name : string) (nb_lignes_source nb_lignes_fichier : nat)
  | Integrite_erreur (table_name : string) (nb_lignes_source nb_lignes_fichier : nat)
  | Connexion_requise (table_name : string).

Section Chargement_des_donnees.

(** The storage behind [df.to_csv(path)] followed by [pd.read_csv(path)]:
    the number of rows found when the file just written is read back. *)
Variable relire : string -> DataFrame -> nat.

(** The body of the loop over [self.cleaned_data.items()]. *)
Fixpoint charger_tables (simulate : bool) (items : list (string * positive))
    (stats_chargement : dict Chargement.t) (sortie : list Message)
    : M (dict Chargement.t * list Message) :=
  match items with
  | [] => mret (stats_chargement, sortie)
  | (table_name, r) :: items' =>
      if simulate then
        df ← deref r;
        let output_path :=
          String.append "data/processed/" (String.append table_name "_clean.csv") in
        let nb_lignes_source := len df in
        let nb_lignes_fichier := relire output_path df in
        let message :=
          if Nat.eqb nb_lignes_source nb_lignes_fichier
          then Integrite_verifiee table_name nb_lignes_source nb_lignes_fichier
          else Integrite_erreur table_name nb_lignes_source nb_lignes_fichier in
        charger_tables simulate items'
          (dict_set table_name
             (Chargement.Build nb_lignes_source (len_columns df) output_path "OK")
             stats_chargement)
          (sortie ++ [message])
      else
        charger_tables simulate items' stats_chargement
          (sortie ++ [Connexion_requise table_name])
  end.

Definition charger_donnees (simulate : bool)
    : M (dict Chargement.t * list Message) :=
  fun p => charger_tables simulate (cleaned_data p) [] [] p.

End Chargement_des_donnees.

(** ** 8. Generation of the test data *)

(** [f'{n:0{largeur}d}'] for a non-negative [n]. *)
Definition format_d (largeur : nat) (n : Z) : string :=
  let s := pretty n in
  String.append (String.string_of_list_ascii (replicate (largeur - String.length s) "0"%char)) s.

(** Truth value of [ville] in [... if ville else None]. *)
Definition truthy (v : option string) : bool :=
  match v with
  | Some s => negb (String.eqb s "")
  | None => false
  end.

(** [Series.unique()]: the distinct values in order of first appearance. *)
Definition unique (col : list (option string)) : list (option string) :=
  drop_duplicates (fun v => v) col.

Section Generation.

(** The libraries the generator draws from.  [G] is the state of a
    pseudo-random generator; Python's [random] module and Faker each own
    one, both seeded at import.  Faker's [date_time_between] and
    [date_between] read the wall clock. *)
Variable G : Type.
Variable graine : Z -> G.
Variable random_random : G -> Q * G.
Variable randbelow : Z -> G -> Z * G.
Variable round_ : Q -> Z -> Q.
Variable isoformat : Z -> string.
Variable fake_city : G -> string * G.
Variable fake_postcode : G -> string * G.
Variable fake_ipv4 : G -> string * G.

(** The i-th reading of the clock during a run, in seconds. *)
Variable horloge : nat -> Z.

Record Monde : Type := {
  py : G;
  fk : G;
  lectures : nat
}.

(** Lines 20-23: both generators are seeded with 42 when the module is
    imported. *)
Definition monde_initial : Monde :=
  {| py := graine 42; fk := graine 42; lectures := 0 |}.

Definition Gen (A : Type) : Type := Monde -> A * Monde.

#[local] Instance Gen_ret : MRet Gen := fun A a w => (a, w).
#[local] Instance Gen_bind : MBind Gen :=
  fun A B f m w => let (a, w') := m w in f a w'.

(** [random.random()], [random.uniform], [random.randint],
    [random.choice] *)
Definition random_ : Gen Q :=
  fun w => let (x, g) := random_random (py w) in
           (x, {| py := g; fk := fk w; lectures := lectures w |}).

Definition py_randbelow (n : Z) : Gen Z :=
  fun w => let (k, g) := randbelow n (py w) in
           (k, {| py := g; fk := fk w; lectures := lectures w |}).

Definition uniform (a b : Q) : Gen Q :=
  x ← random_; mret (a + (b - a) * x)%Q.

Definition randint (a b : Z) : Gen Z :=
  k ← py_randbelow (b - a + 1); mret (a + k)%Z.

Definition choice {A : Type} (seq : list A) (defaut : A) : Gen A :=
  k ← py_randbelow (Z.of_nat (length seq)); mret (nth (Z.to_nat k) seq defaut).

(** Faker providers: they draw from Faker's generator. *)
Definition faker {A : Type} (f : G -> A * G) : Gen A :=
  fun w => let (x, g) := f (fk w) in
           (x, {| py := py w; fk := g; lectures := lectures w |}).

Definition fk_randint (a b : Z) : Gen Z :=
  faker (fun g => let (k, g') := randbelow (b - a + 1) g in ((a + k)%Z, g')).

Definition now : Gen Z :=
  fun w => (horloge (lectures w),
            {| py := py w; fk := fk w; lectures := S (lectures w) |}).

(** [fake.date_time_between(start_date='-30d', end_date='now')]: an instant
    drawn between thirty days before the current time and the current
    time. *)
Definition date_time_between : Gen Z :=
  debut ← now; fin ← now; fk_randint (debut - 30 * 86400) fin.

(** [fake.date_between(start_date='-2y', end_date='today')]: a day drawn
    between two years before the current day and the current day. *)
Definition date_between : Gen Z :=
  debut ← now; fin ← now; fk_randint (debut / 86400 - 730) (fin / 86400).

Fixpoint pour {I A : Type} (indices : list I) (corps : I -> Gen A) : Gen (list A) :=
  match indices with
  | [] => mret []
  | i :: indices' => x ← corps i; xs ← pour indices' corps; mret (x :: xs)
  end.

Definition generer_transaction (i : nat) : Gen Transaction.t :=
  x ← random_;
  let is_fraud := Qlt_bool x (25 # 10000) in
  montant ← (if negb is_fraud then uniform (5 # 1) (2000 # 1)
             else uniform (500 # 1) (5000 # 1));
  y ← random_;
  ville ← (if Qlt_bool (3 # 100) y then c ← faker fake_city; mret (Some c)
           else mret None);
  merchant_cat ← choice [Some "SUPERMARCHE"; Some "RESTAURANT"; Some "ESSENCE";
                         Some "VETEMENTS"; Some "PHARMACIE"; Some "LOISIRS";
                         None] None;
  n_client ← randint 1 5000;
  date_heure ← date_time_between;
  type_transaction ← choice ["PAIEMENT"; "RETRAIT"; "VIREMENT"] "";
  type_carte ← choice ["DEBIT"; "CREDIT"; "PREPAYEE"] "";
  n_merchant ← randint 1 500;
  latitude ← (if truthy ville
              then u ← uniform (42 # 1) (51 # 1); mret (Some (round_ u 6))
              else mret None);
  longitude ← (if truthy ville
               then u ← uniform (- (4 # 1)) (8 # 1); mret (Some (round_ u 6))
               else mret None);
  canal ← choice ["WEB"; "MOBILE"; "ATM"; "POS"] "";
  mret (Transaction.Build
          (Some (String.append "TRX_" (format_d 8 (Z.of_nat i))))
          (Some (String.append "CLIENT_" (format_d 6 n_client)))
          (Some (round_ montant 2))
          (Some "EUR")
          (Some (Texte (isoformat date_heure)))
          (Some type_transaction)
          (Some type_carte)
          (Some (String.append "MERCHANT_" (format_d 5 n_merchant)))
          merchant_cat
          (Some "FR")
          ville
          latitude
          longitude
          (Some canal)
          (Some is_fraud)).

Definition generer_client (client_id : option string) : Gen Client.t :=
  x ← random_;
  score_credit ← (if Qlt_bool (11 # 100) x
                  then n ← randint 300 850; mret (Some (inject_Z n))
                  else mret None);
  age ← randint 18 80;
  sexe ← choice ["M"; "F"; "X"] "";
  code_postal ← faker fake_postcode;
  anciennete_mois ← randint 1 120;
  nb_produits ← randint 1 5;
  revenu ← choice ["0-20K"; "20-40K"; "40-60K"; "60-100K"; ">100K"] "";
  y ← random_;
  date_derniere_fraude ← (if Qlt_bool y (5 # 100)
                          then d ← date_between; mret (Some d)
                          else mret None);
  mret (Client.Build client_id (Some age) (Some sexe)
          (Some (String.substring 0 5 code_postal)) (Some anciennete_mois)
          (Some nb_produits) (Some revenu) score_credit date_derniere_fraude).

Definition generer_log (clients_uniques : list (option string)) (i : nat)
    : Gen Log.t :=
  client_id ← choice clients_uniques None;
  timestamp ← date_time_between;
  action ← choice ["login"; "navigation_compte"; "consultation_solde";
                   "transaction"; "logout"] "";
  device_type ← choice ["mobile"; "desktop"; "tablet"] "";
  os ← choice ["iOS"; "Android"; "Windows"; "macOS"] "";
  browser ← choice ["Chrome"; "Safari"; "Firefox"; "Edge"] "";
  ip_address ← faker fake_ipv4;
  duree ← randint 30 3600;
  mret (Log.Build
          (Some (String.append "SESSION_" (format_d 8 (Z.of_nat i))))
          client_id
          (Some (Texte (isoformat timestamp)))
          (Some action) (Some device_type) (Some os) (Some browser)
          (Some ip_address) (Some duree)).

(** The three collections written to [data/raw], or [None] for the
    exception: the frame of an empty list of transactions has no column, and
    [df_transactions['is_fraud']] (line 97) raises KeyError once the empty
    [transactions.csv] is written, before the clients and the logs. *)
Definition generer_donnees_test (nb_transactions : nat)
    : Gen (option (list Transaction.t * list Client.t * list Log.t)) :=
  df_transactions ← pour (seq 0 nb_transactions) generer_transaction;
  match df_transactions with
  | [] => mret None
  | _ :: _ =>
      let clients_uniques :=
        unique (map Transaction.client_id df_transactions) in
      df_clients ← pour clients_uniques generer_client;
      logs ← pour (seq 0 (nb_transactions * 5)) (generer_log clients_uniques);
      mret (Some (df_transactions, df_clients, logs))
  end.

(** One run of the script: import (seeding), then generation. *)
Definition executer (nb_transactions : nat)
    : option (list Transaction.t * list Client.t * list Log.t) :=
  fst (generer_donnees_test nb_transactions monde_initial).

End Generation.

(** ** 9. Vocabulary of the properties *)

(** The frame stored under a name in one of the pipeline's dictionaries. *)
Definition contenu (d : dict positive) (p : ETLPipeline) (k : string)
    : option DataFrame :=
  match dict_get k d with
  | Some r => tas p !! r
  | None => None
  end.

(** The names of the three sources. *)
Definition noms_sources : list string := ["transactions"; "clients"; "logs"].

(** [p'] keeps the source dictionary and every object of [p]. *)
Definition preserve (p p' : ETLPipeline) : Prop :=
  data_sources p' = data_sources p
  /\ forall r, is_Some (tas p !! r) -> tas p' !! r = tas p !! r.

(** Two frames of the same schema. *)
Definition meme_schema (df df' : DataFrame) : Prop :=
  match df, df' with
  | DfTransactions _, DfTransactions _ => True
  | DfClients _, DfClients _ => True
  | DfLogs _, DfLogs _ => True
  | DfFinal _, DfFinal _ => True
  | DfVide, DfVide => True
  | _, _ => False
  end.

(** One section of the cleaning took the source [src] stored under [nom]
    and left the frame [res] under the same name in [cleaned_data], touching
    nothing else but (possibly) its own entry of the statistics. *)
Definition section_nettoyee (nom : string) (src res : DataFrame)
    (p p1 : ETLPipeline) : Prop :=
  contenu (data_sources p) p nom = Some src
  /\ preserve p p1
  /\ contenu (cleaned_data p1) p1 nom = Some res
  /\ (forall k, k <> nom ->
        dict_get k (cleaned_data p1) = dict_get k (cleaned_data p))
  /\ (forall k, k <> nom ->
        dict_get k (stats_nettoyage p1) = dict_get k (stats_nettoyage p))
  /\ (forall r df, tas p1 !! r = Some df ->
        tas p !! r = Some df \/ meme_schema df res).

(** A whole run of [nettoyer_donnees] from [p] to [p']: the three sources
    it read and the three frames it left. *)
Definition nettoyage_accompli
    (analyse_date : option string -> string -> option Z)
    (p p' : ETLPipeline) (lt : list Transaction.t) (lc : list Client.t)
    (ll : list Log.t) (lt' : list Transaction.t) (ll' : list Log.t) : Prop :=
  contenu (data_sources p) p "transactions" = Some (DfTransactions lt)
  /\ contenu (data_sources p) p "clients" = Some (DfClients lc)
  /\ contenu (data_sources p) p "logs" = Some (DfLogs ll)
  /\ transactions_nettoyees analyse_date lt = Some lt'
  /\ logs_nettoyes analyse_date ll = Some ll'
  /\ preserve p p'
  /\ contenu (cleaned_data p') p' "transactions" = Some (DfTransactions lt')
  /\ contenu (cleaned_data p') p' "clients"
     = Some (DfClients (clients_nettoyes lc))
  /\ contenu (cleaned_data p') p' "logs" = Some (DfLogs ll')
  /\ dict_get "transactions" (stats_nettoyage p')
     = Some (analyser_qualite_donnees lt "transactions",
             analyser_qualite_donnees lt' "transactions")
  /\ dict_get "clients" (stats_nettoyage p')
     = Some (analyser_qualite_donnees lc "clients",
             analyser_qualite_donnees (clients_nettoyes lc) "clients").

(** A new pipeline whose extracted sources are the frames another one has
    cleaned. *)
Definition reprendre (p' : ETLPipeline) : ETLPipeline :=
  {| tas := tas p';
     data_sources := cleaned_data p';
     cleaned_data := [];
     stats_nettoyage := [] |}.

(** A column without missing cell, or without any value. *)
Definition complete {R A : Type} (get : R -> option A) (df : list R) : Prop :=
  Forall (fun r => get r <> None) df.

Definition vide {R A : Type} (get : R -> option A) (df : list R) : Prop :=
  Forall (fun r => get r = None) df.

(** What holds of a cleaned transaction frame. *)
Definition transactions_propres (l : list Transaction.t) : Prop :=
  (complete Transaction.latitude l \/ vide Transaction.latitude l)
  /\ (complete Transaction.longitude l \/ vide Transaction.longitude l)
  /\ complete Transaction.ville l
  /\ complete Transaction.merchant_category l
  /\ NoDup (map Transaction.transaction_id l)
  /\ Forall (fun r => cell_ge (Transaction.montant r) 0 = true) l
  /\ Forall (fun r => convertie (Transaction.date_heure r)) l.

(** The tie-breaking rule in the words of the specification: the most
    frequent value met first in column order. *)
Definition mode_premiere_rencontre (col : list (option string)) : option string :=
  let vals := dropna col in
  List.find (fun v => Nat.eqb (occurrences v vals) (max_occurrences vals)) vals.

Definition imputation_premiere_rencontre (col : list (option string))
    : list (option string) :=
  let m := default "AUTRE" (mode_premiere_rencontre col) in
  map (fun c => match c with None => Some m | Some _ => c end) col.

(** The coordinate test in the words of the specification: latitude outside
    [-90, 90] or longitude outside [-180, 180]. *)
Definition coordonnees_hors_domaine (r : Transaction.t) : bool :=
  cell_lt (Transaction.latitude r) (- (90 # 1))
  || cell_gt (Transaction.latitude r) (90 # 1)
  || cell_lt (Transaction.longitude r) (- (180 # 1))
  || cell_gt (Transaction.longitude r) (180 # 1).

(** ** 10. Sample data *)

Module Exemple.

(** The parser on the one timestamp of the samples, whatever text the
    format is inferred from. *)
Definition analyse_date (ref : option string) (s : string) : option Z :=
  if String.eqb s "2024-01-15T10:30:00" then Some 1705314600%Z else None.

Definition trx (id : string) (montant : Q) (categorie ville : option string)
    (latitude longitude : option Q) : Transaction.t :=
  Transaction.Build (Some id) (Some "CLIENT_000001") (Some montant) (Some "EUR")
    (Some (Texte "2024-01-15T10:30:00")) (Some "PAIEMENT") (Some "DEBIT")
    (Some "MERCHANT_00001") categorie (Some "FR") ville latitude longitude
    (Some "WEB") (Some false).

Definition client (id : string) (score : option Q) : Client.t :=
  Client.Build (Some id) (Some 40%Z) (Some "F") (Some "75001") (Some 12%Z)
    (Some 2%Z) (Some "20-40K") score None.

Definition log (session client : string) (duree : Z) : Log.t :=
  Log.Build (Some session) (Some client) (Some (Texte "2024-01-15T10:30:00"))
    (Some "login") (Some "mobile") (Some "iOS") (Some "Safari")
    (Some "192.0.2.1") (Some duree).

(** A pipeline after extraction of the given frames. *)
Definition extrait (lt : list Transaction.t) (lc : list Client.t)
    (ll : list Log.t) : ETLPipeline :=
  {| tas := {[ 1%positive := DfTransactions lt; 2%positive := DfClients lc;
               3%positive := DfLogs ll ]};
     data_sources := [("transactions", 1%positive); ("clients", 2%positive);
                      ("logs", 3%positive)];
     cleaned_data := [];
     stats_nettoyage := [] |}.

(** Two transactions, one of them negative, a client and two sessions. *)
Definition transactions_ordinaires : list Transaction.t :=
  [trx "TRX_00000000" (12 # 1) (Some "ESSENCE") (Some "Lyon") (Some (45 # 1)) (Some (4 # 1));
   trx "TRX_00000001" (- (3 # 1)) None None None None;
   trx "TRX_00000002" (30 # 1) None None None None].

Definition clients_ordinaires : list Client.t :=
  [client "CLIENT_000001" (Some (700 # 1)); client "CLIENT_000002" None].

Definition logs_ordinaires : list Log.t :=
  [log "SESSION_00000000" "CLIENT_000001" 60;
   log "SESSION_00000001" "CLIENT_000001" 120].

Definition pipeline_ordinaire : ETLPipeline :=
  extrait transactions_ordinaires clients_ordinaires logs_ordinaires.

(** One transaction generated without city: latitude and longitude are
    missing in the whole column. *)
Definition transactions_sans_ville : list Transaction.t :=
  [trx "TRX_00000000" (12 # 1) (Some "ESSENCE") None None None].

Definition pipeline_sans_ville : ETLPipeline :=
  extrait transactions_sans_ville [client "CLIENT_000001" (Some (700 # 1))]
    logs_ordinaires.

(** Two categories met once each, and a missing one. *)
Definition transactions_ex_aequo : list Transaction.t :=
  [trx "TRX_00000000" (12 # 1) (Some "RESTAURANT") (Some "Lyon") (Some (45 # 1)) (Some (4 # 1));
   trx "TRX_00000001" (15 # 1) (Some "ESSENCE") (Some "Lyon") (Some (45 # 1)) (Some (4 # 1));
   trx "TRX_00000002" (30 # 1) None (Some "Lyon") (Some (45 # 1)) (Some (4 # 1))].

Definition pipeline_ex_aequo : ETLPipeline :=
  extrait transactions_ex_aequo [client "CLIENT_000001" (Some (700 # 1))]
    logs_ordinaires.

(** A valid latitude with a longitude of 200 degrees. *)
Definition transactions_longitude_200 : list Transaction.t :=
  [trx "TRX_00000000" (12 # 1) (Some "ESSENCE") (Some "Lyon") (Some (45 # 1)) (Some (200 # 1))].

(** A storage that loses the last row of every file. *)
Definition stockage_tronque (output_path : string) (df : DataFrame) : nat :=
  pred (len df).

(** A faithful storage. *)
Definition stockage_fidele (output_path : string) (df : DataFrame) : nat :=
  len df.

(** A small congruential generator standing for the two library
    generators, and constant Faker providers. *)
Definition suivant (g : Z) : Z := ((g * 1103515245 + 12345) mod 2147483648)%Z.

Definition graine (n : Z) : Z := n.

Definition random_random (g : Z) : Q * Z :=
  let g' := suivant g in (g' # 2147483648, g').

Definition randbelow (n : Z) (g : Z) : Z * Z :=
  let g' := suivant g in ((g' mod n)%Z, g').

Definition round_ (x : Q) (ndigits : Z) : Q :=
  let e := (10 ^ ndigits)%Z in
  ((Qfloor (x * inject_Z e + (1 # 2))) # (Z.to_pos e)).

Definition isoformat (t : Z) : string := pretty t.

Definition fake_city (g : Z) : string * Z := ("Lyon", suivant g).
Definition fake_postcode (g : Z) : string * Z := ("69001", suivant g).
Definition fake_ipv4 (g : Z) : string * Z := ("192.0.2.1", suivant g).

(** Two clocks one day apart. *)
Definition horloge_lundi (i : nat) : Z := 1705314600%Z.
Definition horloge_mardi (i : nat) : Z := 1705401000%Z.

(** A clock that shows Monday for its first 42 readings and Tuesday
    afterwards. *)
Definition horloge_lundi_puis_mardi (i : nat) : Z :=
  if Nat.ltb i 42 then 1705314600%Z else 1705401000%Z.

(** A run of the generator with these libraries. *)
Definition lancer (horloge : nat -> Z) (nb_transactions : nat)
    : option (list Transaction.t * list Client.t * list Log.t) :=
  executer Z graine random_random randbelow round_ isoformat fake_city
    fake_postcode fake_ipv4 horloge nb_transactions.

End Exemple.

(** ** 11. Extraction, report and the main sequence *)

(** [ETLPipeline()] *)
Definition ETLPipeline_init : ETLPipeline :=
  {| tas := ∅; data_sources := []; cleaned_data := []; stats_nettoyage := [] |}.

(** [self.data_sources[k] = df] *)
Definition set_source (k : string) (r : positive) : M unit :=
  fun p => Some (tt, {| tas := tas p;
                        data_sources := dict_set k r (data_sources p);
                        cleaned_data := cleaned_data p;
                        stats_nettoyage := stats_nettoyage p |}).

(** [return self.data_sources] *)
Definition retourner_data_sources : M (dict positive) :=
  fun p => Some (data_sources p, p).

(** [pd.DataFrame(logs)] on the list of records read from the JSON file:
    the columns are the keys of the records, and the frame of the empty list
    has none. *)
Definition DataFrame_de_logs (logs : list Log.t) : DataFrame :=
  match logs with
  | [] => DfVide
  | _ => DfLogs logs
  end.

Section Extraction.

(** The readers on the three files of [data/raw]: the rows of the file, or
    [None] when the file is absent or cannot be read (the call raises). *)
Variable read_csv : string -> option (list Transaction.t).
Variable read_excel : string -> option (list Client.t).
Variable json_load : string -> option (list Log.t).

Definition extraire_donnees : M (dict positive) :=
  (* Source 1: CSV *)
  l ← lift (read_csv "data/raw/transactions.csv");
  df_transactions ← alloc (DfTransactions l);
  set_source "transactions" df_transactions;;
  (* Source 2: Excel *)
  l ← lift (read_excel "data/raw/clients.xlsx");
  df_clients ← alloc (DfClients l);
  set_source "clients" df_clients;;
  (* Source 3: JSON *)
  logs ← lift (json_load "data/raw/logs_comportement.json");
  df_logs ← alloc (DataFrame_de_logs logs);
  set_source "logs" df_logs;;
  retourner_data_sources.

End Extraction.

(** The document written by [generer_rapport_etl]. *)
Module Rapport.
Record t : Type := Build {
  date_execution : Z;
  etapes : list string;
  sources_extraites : list string;
  stats_nettoyage : dict (Stats * Stats);
  donnees_finales : dict (nat * nat)
}.
End Rapport.

(** The comprehension over [self.cleaned_data.items()]: the number of rows
    and of columns of each table. *)
Fixpoint donnees_finales_de (items : list (string * positive))
    (acc : dict (nat * nat)) : M (dict (nat * nat)) :=
  match items with
  | [] => mret acc
  | (name, r) :: items' =>
      df ← deref r;
      donnees_finales_de items' (dict_set name (len df, len_columns df) acc)
  end.

(** [generer_rapport_etl]; [maintenant] is the reading of the clock, and the
    result is the document dumped to [data/processed/rapport_etl.json]. *)
Definition generer_rapport_etl (maintenant : Z) : M Rapport.t :=
  fun p =>
    (finales ← donnees_finales_de (cleaned_data p) [];
     mret (Rapport.Build maintenant ["Extract"; "Transform"; "Load"]
             (map fst (data_sources p)) (stats_nettoyage p) finales)) p.

Section Main.

Variable read_csv : string -> option (list Transaction.t).
Variable read_excel : string -> option (list Client.t).
Variable json_load : string -> option (list Log.t).
Variable analyse_date : option string -> string -> option Z.
Variable relire : string -> DataFrame -> nat.
Variable maintenant : Z.

(** Steps 1 to 5 of [main] on a new pipeline; the readers stand for the
    files that step 0 (the generation) has written. *)
Definition main : option ((dict Chargement.t * list Message) * Rapport.t * ETLPipeline) :=
  (extraire_donnees read_csv read_excel json_load;;
   nettoyer_donnees analyse_date;;
   agréger_données;;
   stats ← charger_donnees relire true;
   rapport ← generer_rapport_etl maintenant;
   mret (stats, rapport)) ETLPipeline_init.

End Main.

(** ** 12. More vocabulary *)

(** The sessions of a client in the logs: the rows with that identifier and
    a session identifier. *)
Definition sessions_de (k : string) (df_logs : list Log.t) : nat :=
  length (dropna (map Log.session_id
                    (List.filter (fun r => bool_decide (Log.client_id r = Some k))
                       df_logs))).

(** The session durations of a client in the logs. *)
Definition durees_de (k : string) (df_logs : list Log.t) : list Z :=
  dropna (map Log.duree_session_sec
            (List.filter (fun r => bool_decide (Log.client_id r = Some k))
               df_logs)).

(** The frame [agréger_données] builds from the three cleaned tables. *)
Definition dataset_final (df_trans : list Transaction.t)
    (df_clients : list Client.t) (df_logs : list Log.t) : list Final.t :=
  fillna Final.duree_moy_session_sec Final.set_duree_moy_session_sec (Some 0%Q)
    (fillna Final.nb_sessions Final.set_nb_sessions (Some 0%Q)
       (fusionner df_trans df_clients (logs_agg df_logs))).

(** What the loader records and prints for a table. *)
Definition chemin_sortie (table_name : string) : string :=
  String.append "data/processed/" (String.append table_name "_clean.csv").

Definition entree_chargement (table_name : string) (df : DataFrame)
    : Chargement.t :=
  Chargement.Build (len df) (len_columns df) (chemin_sortie table_name) "OK".

Definition message_chargement (relire : string -> DataFrame -> nat)
    (table_name : string) (df : DataFrame) : Message :=
  if Nat.eqb (len df) (relire (chemin_sortie table_name) df)
  then Integrite_verifiee table_name (len df)
         (relire (chemin_sortie table_name) df)
  else Integrite_erreur table_name (len df)
         (relire (chemin_sortie table_name) df).

(** The first row of a transaction frame with a given identifier. *)
Definition premiere_de (id : option string) (df : list Transaction.t)
    : option Transaction.t :=
  List.find (fun r => bool_decide (Transaction.transaction_id r = id)) df.

(** The keys of a dictionary, in order. *)
Definition cles {V : Type} (d : dict V) : list string := map fst d.

(** A numeric cell within bounds (a missing cell is). *)
Definition dans_bornes (lo hi : Q) (c : option Q) : Prop :=
  match c with
  | Some x => (lo <= x)%Q /\ (x <= hi)%Q
  | None => True
  end.

(** The tables that a whole run leaves, in the order of [cleaned_data]. *)
Definition tables_finales (lt' : list Transaction.t) (lc : list Client.t)
    (ll' : list Log.t) : list (string * DataFrame) :=
  [("transactions", DfTransactions lt');
   ("clients", DfClients (clients_nettoyes lc));
   ("logs", DfLogs ll');
   ("dataset_final", DfFinal (dataset_final lt' (clients_nettoyes lc) ll'))].

(** Vocabulary of the generator's properties. *)

(** [apres m P]: whatever the state of the libraries, the value that [m]
    draws satisfies [P]. *)
Definition apres {G A : Type} (m : Gen G A) (P : A -> Prop) : Prop :=
  forall w, P (fst (m w)).

(** [locale horloge1 horloge2 k m1 m2], for a computation written [m1] with
    the clock [horloge1] and [m2] with the clock [horloge2]: from any state,
    [m1] reads the clock at most [k] times, and [m2] does the same as [m1]
    when the two clocks agree on the readings [m1] makes. *)
Definition locale {G A : Type} (horloge1 horloge2 : nat -> Z) (k : nat)
    (m1 m2 : Gen G A) : Prop :=
  forall w,
    (lectures G w <= lectures G (snd (m1 w)) <= lectures G w + k)%nat
    /\ ((forall i, (lectures G w <= i < lectures G (snd (m1 w)))%nat ->
                   horloge1 i = horloge2 i) ->
        m2 w = m1 w).

(** The shape of a generated transaction with index [i]. *)
Definition transaction_generee (isoformat : Z -> string) (i : nat)
    (r : Transaction.t) : Prop :=
  Transaction.transaction_id r
  = Some (String.append "TRX_" (format_d 8 (Z.of_nat i)))
  /\ (exists t, Transaction.date_heure r = Some (Texte (isoformat t)))
  /\ (truthy (Transaction.ville r) = true ->
      is_Some (Transaction.latitude r) /\ is_Some (Transaction.longitude r))
  /\ (truthy (Transaction.ville r) = false ->
      Transaction.latitude r = None /\ Transaction.longitude r = None)
  /\ is_Some (Transaction.montant r)
  /\ is_Some (Transaction.client_id r).

(** The shape of a generated log with index [i]. *)
Definition log_genere (isoformat : Z -> string) (i : nat) (r : Log.t) : Prop :=
  Log.session_id r = Some (String.append "SESSION_" (format_d 8 (Z.of_nat i)))
  /\ exists t, Log.timestamp r = Some (Texte (isoformat t)).

(** The shape of a generated client and of a generated log when the random
    source keeps to its range. *)
Definition client_borne (r : Client.t) : Prop :=
  dans_bornes (300 # 1) (850 # 1) (Client.score_credit r)
  /\ exists age, Client.age r = Some age /\ (18 <= age <= 80)%Z.

Definition log_borne (clients_uniques : list (option string)) (r : Log.t)
    : Prop :=
  In (Log.client_id r) clients_uniques
  /\ exists d, Log.duree_session_sec r = Some d /\ (30 <= d <= 3600)%Z.

(** A random source that keeps to its range, as [Random._randbelow]
    does. *)
Definition dans_intervalle {G : Type} (randbelow : Z -> G -> Z * G) : Prop :=
  forall n g, (0 < n)%Z -> (0 <= fst (randbelow n g) < n)%Z.

(** * Properties *)

(** ** Columns, [fillna] and the median *)

Lemma isna_sum_0_iff {A : Type} (col : list (option A)) :
  isna_sum col = 0%nat <-> Forall (fun c => c <> None) col.
Proof.
  unfold isna_sum. induction col as [|c col IH]; simpl.
  - split; [constructor | reflexivity].
  - destruct c as [a|]; simpl.
    + rewrite IH. split.
      * intros H. constructor; [discriminate | exact H].
      * intros H. inversion H; assumption.
    + split; [discriminate |].
      intros H. inversion H as [|? ? Hc _]. contradiction.
Qed.

Lemma dropna_nil_iff {A : Type} (col : list (option A)) :
  dropna col = [] <-> Forall (fun c => c = None) col.
Proof.
  unfold dropna. induction col as [|c col IH]; simpl.
  - split; [constructor | reflexivity].
  - destruct c as [a|]; simpl.
    + split; [discriminate |].
      intros H. inversion H as [|? ? Hc _]. discriminate.
    + rewrite IH. split.
      * intros H. constructor; [reflexivity | exact H].
      * intros H. inversion H; assumption.
Qed.

Lemma dropna_In {A : Type} (col : list (option A)) (a : A) :
  In a (dropna col) <-> In (Some a) col.
Proof.
  unfold dropna. induction col as [|c col IH]; simpl; [tauto |].
  destruct c as [b|]; simpl; rewrite IH.
  - split; intros [H|H]; auto; left; congruence.
  - split; [auto | intros [H|H]; [discriminate | exact H]].
Qed.

Section Fillna.

Context {R A : Type} (get : R -> option A) (set : option A -> R -> R).
Hypothesis get_set : forall v r, get (set v r) = v.
Hypothesis set_get : forall r, set (get r) r = r.

Lemma length_fillna v df : length (fillna get set v df) = length df.
Proof. unfold fillna. apply length_map. Qed.

(** After [fillna] with a value that is not missing, the column has no
    missing cell. *)
Lemma fillna_Some_complet v df :
  isna_sum (map get (fillna get set (Some v) df)) = 0%nat.
Proof.
  apply isna_sum_0_iff. unfold fillna. rewrite List.map_map.
  apply Forall_forall. intros c Hc. apply list_elem_of_In, in_map_iff in Hc.
  destruct Hc as (r & <- & _).
  destruct (get r) eqn:E; [rewrite E | rewrite get_set]; discriminate.
Qed.

(** On a column without missing cell, [fillna] changes nothing. *)
Lemma fillna_complet v df :
  isna_sum (map get df) = 0%nat -> fillna get set v df = df.
Proof.
  rewrite isna_sum_0_iff. unfold fillna. induction df as [|r df IH]; simpl.
  - reflexivity.
  - intros H. inversion H as [|? ? Hr Hdf]; subst.
    destruct (get r) eqn:E; [|contradiction]. f_equal. apply IH, Hdf.
Qed.

(** [fillna] with NaN changes nothing. *)
Lemma fillna_None df : fillna get set None df = df.
Proof.
  unfold fillna. induction df as [|r df IH]; simpl; [reflexivity |].
  rewrite IH. destruct (get r) eqn:E; [reflexivity |].
  rewrite <- E. rewrite set_get. reflexivity.
Qed.

(** The other columns are not touched. *)
Lemma fillna_autre {B : Type} (g : R -> B) v df :
  (forall w r, g (set w r) = g r) ->
  map g (fillna get set v df) = map g df.
Proof.
  intros Hg. unfold fillna. rewrite List.map_map. apply map_ext.
  intros r. destruct (get r); [reflexivity | apply Hg].
Qed.

(** The filled column itself. *)
Lemma fillna_colonne v df :
  map get (fillna get set v df)
  = map (fun c => match c with None => v | Some _ => c end) (map get df).
Proof.
  unfold fillna. rewrite !List.map_map. apply map_ext.
  intros r. destruct (get r) eqn:E; [exact E | apply get_set].
Qed.

(** A column that is entirely missing stays so only when the value is. *)
Lemma fillna_vide v df :
  dropna (map get df) = [] ->
  map get (fillna get set v df) = map (fun _ => v) df.
Proof.
  rewrite dropna_nil_iff. intros H. rewrite fillna_colonne, List.map_map.
  apply map_ext_in. intros r Hr.
  rewrite Forall_forall in H. rewrite (H (get r)); [reflexivity |].
  apply list_elem_of_In, in_map, Hr.
Qed.

End Fillna.

Lemma length_inserer_q x l : length (inserer_q x l) = S (length l).
Proof.
  induction l as [|y l IH]; simpl; [reflexivity |].
  destruct (Qle_bool x y); simpl; [reflexivity | now rewrite IH].
Qed.

Lemma length_trier_q l : length (trier_q l) = length l.
Proof.
  induction l as [|x l IH]; simpl; [reflexivity |].
  unfold trier_q in *. simpl. now rewrite length_inserer_q, IH.
Qed.

(** The median is NaN exactly when the column has no value. *)
Lemma median_None_iff col : median col = None <-> dropna col = [].
Proof.
  unfold median. rewrite length_trier_q.
  remember (trier_q (dropna col)) as s eqn:Hs.
  assert (Hlen : length s = length (dropna col)) by (subst; apply length_trier_q).
  destruct (dropna col) as [|a vals] eqn:Ev; simpl length in *.
  - simpl. tauto.
  - split; [|discriminate]. intros H. exfalso.
    set (n := S (length vals)) in *.
    assert (Hn : (0 < n)%nat) by (unfold n; lia).
    assert (Hhalf : (n / 2 < n)%nat) by (apply Nat.div_lt; lia).
    replace (Nat.eqb n 0) with false in H by (symmetry; apply Nat.eqb_neq; lia).
    destruct (Nat.odd n).
    + destruct (lookup_lt_is_Some_2 s (n / 2)%nat) as [x Hx]; [lia |].
      rewrite Hx in H. discriminate.
    + destruct (lookup_lt_is_Some_2 s (n / 2 - 1)%nat) as [x Hx]; [lia |].
      destruct (lookup_lt_is_Some_2 s (n / 2)%nat) as [y Hy]; [lia |].
      rewrite Hx, Hy in H. discriminate.
Qed.

Lemma median_is_Some col : dropna col <> [] -> is_Some (median col).
Proof.
  intros H. destruct (median col) eqn:E; [eauto |].
  apply median_None_iff in E. contradiction.
Qed.

(** ** The order on strings, sorting and the mode *)

Lemma leb_iff (a b : string) :
  String.leb a b = true <-> a = b \/ String_as_OT.lt a b.
Proof.
  unfold String.leb.
  destruct (String.compare a b) eqn:E.
  - apply String_as_OT.cmp_eq in E. tauto.
  - apply String_as_OT.cmp_lt in E. tauto.
  - split; [discriminate |]. intros [H|H].
    + apply String_as_OT.cmp_eq in H. unfold String_as_OT.cmp in H. congruence.
    + apply String_as_OT.cmp_lt in H. unfold String_as_OT.cmp in H. congruence.
Qed.

Lemma leb_refl (a : string) : String.leb a a = true.
Proof. apply leb_iff. now left. Qed.

Lemma leb_trans (a b c : string) :
  String.leb a b = true -> String.leb b c = true -> String.leb a c = true.
Proof.
  rewrite !leb_iff. intros [->|Hab] [->|Hbc]; auto.
  right. eapply String_as_OT.lt_trans; eassumption.
Qed.

Lemma inserer_s_perm x l : Permutation (inserer_s x l) (x :: l).
Proof.
  induction l as [|y l IH]; simpl; [reflexivity |].
  destruct (String.leb x y); [reflexivity |].
  rewrite IH. apply perm_swap.
Qed.

Lemma trier_s_perm l : Permutation (trier_s l) l.
Proof.
  induction l as [|x l IH]; simpl; [reflexivity |].
  unfold trier_s in *. simpl. rewrite inserer_s_perm. now constructor.
Qed.

Lemma trier_s_In l v : In v (trier_s l) <-> In v l.
Proof.
  split; apply Permutation_in; [|symmetry]; apply trier_s_perm.
Qed.

Lemma inserer_s_croissante x l : croissante l -> croissante (inserer_s x l).
Proof.
  induction l as [|y l IH]; simpl.
  - intros _. split; constructor.
  - intros [Hy Hl]. destruct (String.leb x y) eqn:E; simpl.
    + split; [|split; assumption].
      constructor; [exact E |].
      eapply Forall_impl; [exact Hy |]. simpl. intros v Hv.
      eapply leb_trans; eassumption.
    + split; [|apply IH, Hl].
      assert (Hyx : String.leb y x = true).
      { destruct (String.leb_total x y) as [H|H]; [congruence | exact H]. }
      eapply Permutation_Forall; [symmetry; apply inserer_s_perm |].
      constructor; assumption.
Qed.

Lemma trier_s_croissante l : croissante (trier_s l).
Proof.
  induction l as [|x l IH]; simpl; [exact I |].
  unfold trier_s in *. simpl. apply inserer_s_croissante, IH.
Qed.

(** The head of the sorted list is the smallest element. *)
Lemma trier_s_tete l m t :
  trier_s l = m :: t -> In m l /\ forall v, In v l -> String.leb m v = true.
Proof.
  intros E. pose proof (trier_s_croissante l) as Hc.
  pose proof (trier_s_perm l) as Hp. rewrite E in Hc, Hp. simpl in Hc.
  destruct Hc as [Hm _]. split.
  - eapply Permutation_in; [exact Hp | now left].
  - intros v Hv. apply Permutation_sym in Hp.
    pose proof (Permutation_in _ Hp Hv) as [->|Hin]; [apply leb_refl |].
    rewrite Forall_forall in Hm. apply Hm, list_elem_of_In, Hin.
Qed.

Lemma trier_s_nil l : trier_s l = [] <-> l = [].
Proof.
  split; [|intros ->; reflexivity].
  intros E. pose proof (trier_s_perm l) as Hp. rewrite E in Hp.
  now apply Permutation_nil in Hp.
Qed.

Lemma occurrences_max v vals :
  In v vals -> (occurrences v vals <= max_occurrences vals)%nat.
Proof.
  intros Hv. unfold max_occurrences. apply max_list_elem_of_le.
  apply list_elem_of_In, in_map_iff. exists v. now split.
Qed.

Lemma max_occurrences_atteint vals :
  vals <> [] -> exists v, In v vals /\ occurrences v vals = max_occurrences vals.
Proof.
  intros Hne. unfold max_occurrences.
  assert (Hm : map (fun v => occurrences v vals) vals <> []).
  { destruct vals; [contradiction | discriminate]. }
  apply max_list_elem_of, list_elem_of_In, in_map_iff in Hm.
  destruct Hm as (v & Hv & Hin). exists v. now split.
Qed.

Lemma mode_In_iff col v :
  In v (mode col)
  <-> In v (dropna col)
      /\ occurrences v (dropna col) = max_occurrences (dropna col).
Proof.
  unfold mode.
  rewrite (trier_s_In _ v).
  rewrite <- list_elem_of_In, elem_of_remove_dups, list_elem_of_In, filter_In.
  rewrite Nat.eqb_eq. reflexivity.
Qed.

(** There is no mode exactly when the column has no value. *)
Lemma mode_nil_iff col : mode col = [] <-> dropna col = [].
Proof.
  split.
  - intros E. destruct (dropna col) as [|a vals] eqn:Ev; [reflexivity |].
    destruct (max_occurrences_atteint (a :: vals)) as (v & Hv & Hmax); [discriminate |].
    assert (Hin : In v (mode col)) by (apply mode_In_iff; rewrite Ev; now split).
    rewrite E in Hin. destruct Hin.
  - intros E. unfold mode. rewrite E. reflexivity.
Qed.

(** [mode()[0]]: a most frequent value, and the smallest of them. *)
Lemma mode_tete col m t :
  mode col = m :: t ->
  In (Some m) col
  /\ (forall v, In (Some v) col ->
        (occurrences v (dropna col) <= occurrences m (dropna col))%nat)
  /\ (forall v, In (Some v) col ->
        occurrences v (dropna col) = occurrences m (dropna col) ->
        String.leb m v = true).
Proof.
  intros E.
  assert (Hm : In m (mode col)) by (rewrite E; now left).
  apply mode_In_iff in Hm. destruct Hm as [Hin Hmax].
  split; [now apply dropna_In |]. split.
  - intros v Hv. rewrite Hmax. apply occurrences_max. now apply dropna_In.
  - intros v Hv Hocc.
    assert (Hvm : In v (mode col)).
    { apply mode_In_iff. split; [now apply dropna_In | congruence]. }
    unfold mode in E, Hvm. apply trier_s_tete in E. destruct E as [_ Hmin].
    apply Hmin. eapply Permutation_in; [apply trier_s_perm | exact Hvm].
Qed.

(** ** [drop_duplicates] *)

Section Doublons.

Context {R K : Type} `{EqDecision K} (cle : R -> K).

Lemma drop_duplicates_depuis_incl vus df r :
  In r (drop_duplicates_depuis cle vus df) -> In r df.
Proof.
  revert vus. induction df as [|x df IH]; simpl; intros vus; [tauto |].
  destruct (decide (cle x ∈ vus)).
  - intros Hr. right. eapply IH, Hr.
  - intros [->|Hr]; [now left | right; eapply IH, Hr].
Qed.

Lemma drop_duplicates_depuis_hors vus df r :
  In r (drop_duplicates_depuis cle vus df) -> cle r ∉ vus.
Proof.
  revert vus. induction df as [|x df IH]; simpl; intros vus; [tauto |].
  destruct (decide (cle x ∈ vus)) as [Hx|Hx].
  - apply IH.
  - intros [->|Hr]; [exact Hx |].
    apply IH in Hr. intros Hin. apply Hr. now right.
Qed.

(** The keys of the result are pairwise distinct. *)
Lemma drop_duplicates_depuis_NoDup vus df :
  NoDup (map cle (drop_duplicates_depuis cle vus df)).
Proof.
  revert vus. induction df as [|x df IH]; simpl; intros vus; [constructor |].
  destruct (decide (cle x ∈ vus)) as [Hx|Hx]; [apply IH |].
  simpl. constructor; [|apply IH].
  intros Hin. apply list_elem_of_In, in_map_iff in Hin.
  destruct Hin as (r & Hr & Hin).
  apply drop_duplicates_depuis_hors in Hin. apply Hin. rewrite Hr. now left.
Qed.

(** A frame without duplicate is left as it is. *)
Lemma drop_duplicates_depuis_id vus df :
  NoDup (map cle df) ->
  (forall r, In r df -> cle r ∉ vus) ->
  drop_duplicates_depuis cle vus df = df.
Proof.
  revert vus. induction df as [|x df IH]; simpl; intros vus Hnd Hvus; [reflexivity |].
  inversion Hnd as [|? ? Hx Hdf]; subst.
  destruct (decide (cle x ∈ vus)) as [Hin|_].
  - exfalso. eapply Hvus; [now left | exact Hin].
  - f_equal. apply IH; [exact Hdf |].
    intros r Hr Hin. apply elem_of_cons in Hin as [Heq|Hin].
    + apply Hx. rewrite <- Heq. apply list_elem_of_In, in_map, Hr.
    + eapply Hvus; [right; exact Hr | exact Hin].
Qed.

Lemma drop_duplicates_NoDup df : NoDup (map cle (drop_duplicates cle df)).
Proof. apply drop_duplicates_depuis_NoDup. Qed.

Lemma drop_duplicates_id df :
  NoDup (map cle df) -> drop_duplicates cle df = df.
Proof.
  intros H. apply drop_duplicates_depuis_id; [exact H |].
  intros r _ Hin. inversion Hin.
Qed.

Lemma drop_duplicates_incl df r : In r (drop_duplicates cle df) -> In r df.
Proof. apply drop_duplicates_depuis_incl. Qed.

(** Selecting rows keeps the keys distinct. *)
Lemma filter_NoDup_cles (garde : R -> bool) df :
  NoDup (map cle df) -> NoDup (map cle (List.filter garde df)).
Proof.
  induction df as [|x df IH]; simpl; intros Hnd; [constructor |].
  inversion Hnd as [|? ? Hx Hdf]; subst.
  destruct (garde x); simpl; [|apply IH, Hdf].
  constructor; [|apply IH, Hdf].
  intros Hin. apply Hx. apply list_elem_of_In, in_map_iff in Hin.
  destruct Hin as (r & Hr & Hin). apply filter_In in Hin as [Hin _].
  rewrite <- Hr. apply list_elem_of_In, in_map, Hin.
Qed.

(** With distinct keys, at most one row has a given key. *)
Lemma filter_cle_unique k df :
  NoDup (map cle df) ->
  (length (List.filter (fun r => bool_decide (cle r = k)) df) <= 1)%nat.
Proof.
  induction df as [|x df IH]; simpl; intros Hnd; [lia |].
  inversion Hnd as [|? ? Hx Hdf]; subst.
  destruct (bool_decide (cle x = k)) eqn:E; simpl; [|apply IH, Hdf].
  apply bool_decide_eq_true in E.
  assert (Hnil : List.filter (fun r => bool_decide (cle r = k)) df = []).
  { destruct (List.filter _ df) as [|r l] eqn:Ef; [reflexivity |]. exfalso.
    assert (Hr : In r (List.filter (fun r => bool_decide (cle r = k)) df))
      by (rewrite Ef; now left).
    apply filter_In in Hr as [Hr Hk]. apply bool_decide_eq_true in Hk.
    apply Hx. rewrite E, <- Hk. apply list_elem_of_In, in_map, Hr. }
  rewrite Hnil. simpl. lia.
Qed.

End Doublons.

(** ** [merge(how='left')] and [groupby] *)

Lemma length_merge_left {L R K : Type} `{EqDecision K}
    (on_left : L -> K) (on_right : R -> K) (left : list L) (right : list R) :
  NoDup (map on_right right) ->
  length (merge_left on_left on_right left right) = length left.
Proof.
  intros Hnd. unfold merge_left.
  induction left as [|l left IH]; [reflexivity |].
  cbn [flat_map]. rewrite length_app, IH.
  pose proof (filter_cle_unique on_right (on_left l) right Hnd) as Hle.
  destruct (List.filter _ right) as [|r [|r' ms]]; simpl in *; lia.
Qed.



Lemma length_fusionner df_trans df_clients agg :
  NoDup (map Client.client_id df_clients) ->
  NoDup (map Features.client_id agg) ->
  length (fusionner df_trans df_clients agg) = length df_trans.
Proof.
  intros Hc Ha. unfold fusionner.
  rewrite length_map, !length_merge_left; [reflexivity | exact Hc |].
  rewrite <- (List.map_map Features.client_id Some).
  apply NoDup_fmap_2; [|exact Ha]. intros x y Hxy. congruence.
Qed.

(** ** [pd.to_datetime] *)

Section Dates.

Variable analyse : string -> option Z.
Context {R : Type} (get : R -> option Horodatage)
  (set : option Horodatage -> R -> R).
Hypothesis get_set : forall v r, get (set v r) = v.
Hypothesis set_get : forall r, set (get r) r = r.

Lemma to_datetime_cellule_convertie c c' :
  to_datetime_cellule analyse c = Some c' -> convertie c'.
Proof.
  destruct c as [[s|t]|]; simpl.
  - destruct (analyse s); [|discriminate]. intros [= <-] s'. discriminate.
  - intros [= <-] s'. discriminate.
  - intros [= <-] s'. discriminate.
Qed.

Lemma to_datetime_cellule_id c :
  convertie c -> to_datetime_cellule analyse c = Some c.
Proof.
  destruct c as [[s|t]|]; simpl; intros Hc; [|reflexivity..].
  now specialize (Hc s).
Qed.

Lemma to_datetime_avec_cons r df :
  to_datetime_avec analyse get set (r :: df)
  = match to_datetime_cellule analyse (get r) with
    | Some c =>
        match to_datetime_avec analyse get set df with
        | Some df' => Some (set c r :: df')
        | None => None
        end
    | None => None
    end.
Proof.
  unfold to_datetime_avec. simpl.
  destruct (to_datetime_cellule analyse (get r)); simpl; [|reflexivity].
  destruct (mapM _ df); reflexivity.
Qed.

Lemma to_datetime_avec_convertie df df' :
  to_datetime_avec analyse get set df = Some df' ->
  Forall (fun r => convertie (get r)) df'.
Proof.
  revert df'. induction df as [|r df IH]; intros df'.
  - intros [= <-]. constructor.
  - rewrite to_datetime_avec_cons.
    destruct (to_datetime_cellule analyse (get r)) as [c|] eqn:Ec; [|discriminate].
    destruct (to_datetime_avec analyse get set df) as [df0|]; [|discriminate].
    intros [= <-]. constructor; [|now apply IH].
    rewrite get_set. eapply to_datetime_cellule_convertie, Ec.
Qed.

(** Converting a converted column changes nothing. *)
Lemma to_datetime_avec_id df :
  Forall (fun r => convertie (get r)) df ->
  to_datetime_avec analyse get set df = Some df.
Proof.
  induction df as [|r df IH]; intros H; [reflexivity |].
  inversion H as [|? ? Hr Hdf]; subst.
  rewrite to_datetime_avec_cons, to_datetime_cellule_id, IH by assumption.
  now rewrite set_get.
Qed.

(** The conversion succeeds when every text cell parses. *)
Lemma to_datetime_avec_is_Some df :
  Forall (fun r => analysable analyse (get r)) df ->
  is_Some (to_datetime_avec analyse get set df).
Proof.
  induction df as [|r df IH]; intros H; [eexists; reflexivity |].
  inversion H as [|? ? Hr Hdf]; subst.
  rewrite to_datetime_avec_cons. destruct (IH Hdf) as [df' ->].
  destruct (get r) as [[s|t]|] eqn:E; simpl; eauto.
  destruct (Hr s eq_refl) as [t ->]. eauto.
Qed.

Lemma to_datetime_avec_autre {B : Type} (g : R -> B) df df' :
  (forall w r, g (set w r) = g r) ->
  to_datetime_avec analyse get set df = Some df' ->
  map g df' = map g df.
Proof.
  intros Hg. revert df'. induction df as [|r df IH]; intros df'.
  - intros [= <-]. reflexivity.
  - rewrite to_datetime_avec_cons.
    destruct (to_datetime_cellule analyse (get r)) as [c|]; [|discriminate].
    destruct (to_datetime_avec analyse get set df) as [df0|]; [|discriminate].
    intros [= <-]. simpl. rewrite Hg. f_equal. now apply IH.
Qed.

(** Row by row: the timestamp is converted, nothing else changes. *)
Lemma to_datetime_avec_lignes df df' :
  to_datetime_avec analyse get set df = Some df' ->
  Forall2 (fun r r' => exists c, to_datetime_cellule analyse (get r) = Some c
                                 /\ r' = set c r) df df'.
Proof.
  revert df'. induction df as [|r df IH]; intros df'.
  - intros [= <-]. constructor.
  - rewrite to_datetime_avec_cons.
    destruct (to_datetime_cellule analyse (get r)) as [c|] eqn:Ec; [|discriminate].
    destruct (to_datetime_avec analyse get set df) as [df0|]; [|discriminate].
    intros [= <-]. constructor; [eauto | now apply IH].
Qed.

Lemma to_datetime_avec_analysable df df' :
  to_datetime_avec analyse get set df = Some df' ->
  Forall (fun r => analysable analyse (get r)) df.
Proof.
  revert df'. induction df as [|r df IH]; intros df'; [constructor |].
  rewrite to_datetime_avec_cons.
  destruct (to_datetime_cellule analyse (get r)) as [c|] eqn:Ec; [|discriminate].
  destruct (to_datetime_avec analyse get set df) as [df0|]; [|discriminate].
  intros _. constructor; [|eapply IH; reflexivity].
  intros s Hs. rewrite Hs in Ec. simpl in Ec.
  destruct (analyse s); [eauto | discriminate].
Qed.

End Dates.

(** The same of [to_datetime], whatever the library. *)

Lemma to_datetime_convertie a {R : Type} (get : R -> option Horodatage)
    (set : option Horodatage -> R -> R)
    (get_set : forall v r, get (set v r) = v) df df' :
  to_datetime a get set df = Some df' ->
  Forall (fun r => convertie (get r)) df'.
Proof. apply to_datetime_avec_convertie, get_set. Qed.

Lemma to_datetime_id a {R : Type} (get : R -> option Horodatage)
    (set : option Horodatage -> R -> R)
    (set_get : forall r, set (get r) r = r) df :
  Forall (fun r => convertie (get r)) df ->
  to_datetime a get set df = Some df.
Proof. apply to_datetime_avec_id, set_get. Qed.

(** The conversion succeeds exactly on a convertible column. *)
Lemma to_datetime_is_Some a {R : Type} (get : R -> option Horodatage)
    (set : option Horodatage -> R -> R) df :
  convertible a (map get df) ->
  is_Some (to_datetime a get set df).
Proof.
  intros H. apply to_datetime_avec_is_Some.
  apply (proj1 (List.Forall_map get _ df)), H.
Qed.

Lemma to_datetime_analysable a {R : Type} (get : R -> option Horodatage)
    (set : option Horodatage -> R -> R) df df' :
  to_datetime a get set df = Some df' ->
  convertible a (map get df).
Proof.
  intros H. apply to_datetime_avec_analysable in H.
  apply (proj2 (List.Forall_map get _ df)), H.
Qed.

Lemma to_datetime_autre a {R : Type} (get : R -> option Horodatage)
    (set : option Horodatage -> R -> R) {B : Type} (g : R -> B) df df' :
  (forall w r, g (set w r) = g r) ->
  to_datetime a get set df = Some df' ->
  map g df' = map g df.
Proof. apply to_datetime_avec_autre. Qed.

Lemma to_datetime_lignes a {R : Type} (get : R -> option Horodatage)
    (set : option Horodatage -> R -> R) df df' :
  to_datetime a get set df = Some df' ->
  Forall2 (fun r r' =>
             exists c,
               to_datetime_cellule (a (reference (map get df))) (get r) = Some c
               /\ r' = set c r) df df'.
Proof. apply to_datetime_avec_lignes. Qed.

(** Texts of one format are convertible, and so is any part of them. *)
Lemma meme_format_convertible a col col' :
  meme_format a col ->
  (forall c, In c col' -> In c col) ->
  convertible a col'.
Proof.
  intros H Hincl. apply List.Forall_forall. intros c Hc s ->.
  apply H; [|now apply Hincl].
  unfold reference. destruct (dropna col') as [|[s0|t] l] eqn:E; auto.
  right. exists s0. split; [reflexivity |].
  apply Hincl, dropna_In. rewrite E. now left.
Qed.

(** ** Dictionaries and the heap *)

Lemma dict_get_set_eq {V : Type} k (v : V) d : dict_get k (dict_set k v d) = Some v.
Proof.
  induction d as [|[k' v'] d IH]; simpl.
  - now rewrite String.eqb_refl.
  - destruct (String.eqb k k') eqn:E; simpl; rewrite ?String.eqb_refl, ?E; auto.
Qed.

Lemma dict_get_set_ne {V : Type} k k' (v : V) d :
  k <> k' -> dict_get k' (dict_set k v d) = dict_get k' d.
Proof.
  intros Hne. induction d as [|[k0 v0] d IH]; simpl.
  - destruct (String.eqb_spec k' k); [congruence | reflexivity].
  - destruct (String.eqb_spec k k0) as [->|Hk]; simpl.
    + destruct (String.eqb_spec k' k0); [congruence | reflexivity].
    + destruct (String.eqb k' k0); [reflexivity | exact IH].
Qed.

Lemma lookup_frais (h : gmap positive DataFrame) : h !! fresh (dom h) = None.
Proof. apply not_elem_of_dom, is_fresh. Qed.

Lemma lookup_insert_frais (h : gmap positive DataFrame) df r :
  is_Some (h !! r) -> <[fresh (dom h) := df]> h !! r = h !! r.
Proof.
  intros [x Hx]. apply lookup_insert_ne. intros <-.
  rewrite lookup_frais in Hx. discriminate.
Qed.

Lemma preserve_refl p : preserve p p.
Proof. split; [reflexivity | auto]. Qed.

Lemma preserve_trans p1 p2 p3 : preserve p1 p2 -> preserve p2 p3 -> preserve p1 p3.
Proof.
  intros [Hs12 Hh12] [Hs23 Hh23]. split; [congruence |].
  intros r Hr. rewrite <- (Hh12 r Hr). apply Hh23. now rewrite (Hh12 r Hr).
Qed.

Lemma contenu_preserve d p p' k df :
  preserve p p' -> contenu d p k = Some df -> contenu d p' k = Some df.
Proof.
  intros [_ Hh]. unfold contenu. destruct (dict_get k d) as [r|]; [|discriminate].
  intros Hr. rewrite Hh; [exact Hr | eauto].
Qed.

(** ** The three sections of [nettoyer_donnees], as equations *)

Ltac deplier :=
  cbv beta iota zeta delta
    [mbind M_bind bind mret M_ret ret lire_source lire_cleaned copy deref
     alloc lignes en_place ecrire lift set_cleaned set_stats
     retourner_cleaned_data depuis_df vers_df Cadre_Transaction Cadre_Client
     Cadre_Log Cadre_Final tas data_sources cleaned_data stats_nettoyage].

Ltac executer_pas :=
  repeat (progress (deplier; rewrite ?lookup_insert_eq)).

Lemma nettoyage_transactions_eq a p :
  nettoyage_transactions a p =
  match dict_get "transactions" (data_sources p) with
  | Some src =>
      match tas p !! src with
      | Some (DfTransactions l) =>
          let r1 := fresh (dom (tas p)) in
          let tas1 :=
            <[r1 := DfTransactions
                      (drop_duplicates Transaction.transaction_id
                         (transactions_imputees l))]> (tas p) in
          let r2 := fresh (dom tas1) in
          match transactions_nettoyees a l with
          | Some l' =>
              Some (tt, {| tas := <[r2 := DfTransactions l']> tas1;
                           data_sources := data_sources p;
                           cleaned_data :=
                             dict_set "transactions" r2 (cleaned_data p);
                           stats_nettoyage :=
                             dict_set "transactions"
                               (analyser_qualite_donnees l "transactions",
                                analyser_qualite_donnees l' "transactions")
                               (stats_nettoyage p) |})
          | None => None
          end
      | _ => None
      end
  | None => None
  end.
Proof.
  destruct p as [h ds cd st].
  unfold nettoyage_transactions. deplier.
  destruct (dict_get "transactions" ds) as [src|]; [|reflexivity].
  destruct (h !! src) as [[l|l|l|l|]|]; executer_pas; try reflexivity.
  rewrite ?insert_insert_eq.
  unfold transactions_nettoyees, transactions_filtrees, transactions_imputees.
  cbv zeta.
  match goal with
  | |- context [to_datetime a ?g ?s ?l] =>
      destruct (to_datetime a g s l) as [l'|]
  end; [|reflexivity].
  executer_pas. rewrite ?insert_insert_eq. reflexivity.
Qed.

Lemma nettoyage_clients_eq p :
  nettoyage_clients p =
  match dict_get "clients" (data_sources p) with
  | Some src =>
      match tas p !! src with
      | Some (DfClients l) =>
          let r := fresh (dom (tas p)) in
          Some (tt, {| tas := <[r := DfClients (clients_nettoyes l)]> (tas p);
                       data_sources := data_sources p;
                       cleaned_data := dict_set "clients" r (cleaned_data p);
                       stats_nettoyage :=
                         dict_set "clients"
                           (analyser_qualite_donnees l "clients",
                            analyser_qualite_donnees (clients_nettoyes l) "clients")
                           (stats_nettoyage p) |})
      | _ => None
      end
  | None => None
  end.
Proof.
  destruct p as [h ds cd st].
  unfold nettoyage_clients. deplier.
  destruct (dict_get "clients" ds) as [src|]; [|reflexivity].
  destruct (h !! src) as [[l|l|l|l|]|]; executer_pas; try reflexivity.
  rewrite ?insert_insert_eq. reflexivity.
Qed.

Lemma nettoyage_logs_eq a p :
  nettoyage_logs a p =
  match dict_get "logs" (data_sources p) with
  | Some src =>
      match tas p !! src with
      | Some (DfLogs l) =>
          let r := fresh (dom (tas p)) in
          match logs_nettoyes a l with
          | Some l' =>
              Some (tt, {| tas := <[r := DfLogs l']> (tas p);
                           data_sources := data_sources p;
                           cleaned_data := dict_set "logs" r (cleaned_data p);
                           stats_nettoyage := stats_nettoyage p |})
          | None => None
          end
      | _ => None
      end
  | None => None
  end.
Proof.
  destruct p as [h ds cd st].
  unfold nettoyage_logs. deplier.
  destruct (dict_get "logs" ds) as [src|]; [|reflexivity].
  destruct (h !! src) as [[l|l|l|l|]|]; executer_pas; try reflexivity.
  unfold logs_nettoyes.
  destruct (to_datetime a Log.timestamp Log.set_timestamp l) as [l'|]; [|reflexivity].
  executer_pas. rewrite ?insert_insert_eq. reflexivity.
Qed.

Lemma nettoyer_donnees_eq a p :
  nettoyer_donnees a p =
  match nettoyage_transactions a p with
  | Some (_, p1) =>
      match nettoyage_clients p1 with
      | Some (_, p2) =>
          match nettoyage_logs a p2 with
          | Some (_, p3) => Some (cleaned_data p3, p3)
          | None => None
          end
      | None => None
      end
  | None => None
  end.
Proof.
  unfold nettoyer_donnees. deplier.
  destruct (nettoyage_transactions a p) as [[[] p1]|]; [|reflexivity].
  destruct (nettoyage_clients p1) as [[[] p2]|]; [|reflexivity].
  destruct (nettoyage_logs a p2) as [[[] p3]|]; reflexivity.
Qed.

(** ** What a successful section did *)

Lemma lookup_insert_frais_inv (h : gmap positive DataFrame) df r x :
  <[fresh (dom h) := df]> h !! r = Some x -> h !! r = Some x \/ x = df.
Proof.
  destruct (decide (fresh (dom h) = r)) as [<-|Hne].
  - rewrite lookup_insert_eq. intros [= <-]. now right.
  - rewrite lookup_insert_ne by exact Hne. now left.
Qed.

Lemma nettoyage_transactions_Some a p u p1 :
  nettoyage_transactions a p = Some (u, p1) ->
  exists lt lt',
    transactions_nettoyees a lt = Some lt'
    /\ section_nettoyee "transactions" (DfTransactions lt) (DfTransactions lt') p p1
    /\ dict_get "transactions" (stats_nettoyage p1)
       = Some (analyser_qualite_donnees lt "transactions",
               analyser_qualite_donnees lt' "transactions").
Proof.
  intros H. rewrite nettoyage_transactions_eq in H.
  destruct (dict_get "transactions" (data_sources p)) as [src|] eqn:Es; [|discriminate].
  destruct (tas p !! src) as [[lt|?|?|?|]|] eqn:Eh; try discriminate.
  cbv zeta in H.
  destruct (transactions_nettoyees a lt) as [lt'|] eqn:En; [|discriminate].
  injection H as _ <-. exists lt, lt'. split; [exact En |].
  split; [|simpl; apply dict_get_set_eq].
  unfold section_nettoyee, contenu, preserve. simpl.
  rewrite Es, dict_get_set_eq, lookup_insert_eq.
  repeat split; try assumption.
  - intros r Hr. rewrite lookup_insert_frais; rewrite lookup_insert_frais; auto.
  - intros k Hk. now apply dict_get_set_ne.
  - intros k Hk. now apply dict_get_set_ne.
  - intros r df Hr.
    apply lookup_insert_frais_inv in Hr as [Hr| ->]; [|now right].
    apply lookup_insert_frais_inv in Hr as [Hr| ->]; [now left | now right].
Qed.

Lemma nettoyage_clients_Some p u p1 :
  nettoyage_clients p = Some (u, p1) ->
  exists lc,
    section_nettoyee "clients" (DfClients lc) (DfClients (clients_nettoyes lc)) p p1
    /\ dict_get "clients" (stats_nettoyage p1)
       = Some (analyser_qualite_donnees lc "clients",
               analyser_qualite_donnees (clients_nettoyes lc) "clients").
Proof.
  intros H. rewrite nettoyage_clients_eq in H.
  destruct (dict_get "clients" (data_sources p)) as [src|] eqn:Es; [|discriminate].
  destruct (tas p !! src) as [[?|lc|?|?|]|] eqn:Eh; try discriminate.
  cbv zeta in H. injection H as _ <-. exists lc.
  split; [|simpl; apply dict_get_set_eq].
  unfold section_nettoyee, contenu, preserve. simpl.
  rewrite Es, dict_get_set_eq, lookup_insert_eq.
  repeat split; try assumption.
  - intros r Hr. now rewrite lookup_insert_frais.
  - intros k Hk. now apply dict_get_set_ne.
  - intros k Hk. now apply dict_get_set_ne.
  - intros r df Hr.
    apply lookup_insert_frais_inv in Hr as [Hr| ->]; [now left | now right].
Qed.

Lemma nettoyage_logs_Some a p u p1 :
  nettoyage_logs a p = Some (u, p1) ->
  exists ll ll',
    logs_nettoyes a ll = Some ll'
    /\ section_nettoyee "logs" (DfLogs ll) (DfLogs ll') p p1
    /\ stats_nettoyage p1 = stats_nettoyage p.
Proof.
  intros H. rewrite nettoyage_logs_eq in H.
  destruct (dict_get "logs" (data_sources p)) as [src|] eqn:Es; [|discriminate].
  destruct (tas p !! src) as [[?|?|ll|?|]|] eqn:Eh; try discriminate.
  cbv zeta in H.
  destruct (logs_nettoyes a ll) as [ll'|] eqn:En; [|discriminate].
  injection H as _ <-. exists ll, ll'. split; [exact En |].
  split; [|reflexivity].
  unfold section_nettoyee, contenu, preserve. simpl.
  rewrite Es, dict_get_set_eq, lookup_insert_eq.
  repeat split; try assumption.
  - intros r Hr. now rewrite lookup_insert_frais.
  - intros k Hk. now apply dict_get_set_ne.
  - intros r df Hr.
    apply lookup_insert_frais_inv in Hr as [Hr| ->]; [now left | now right].
Qed.

(** A section succeeds as soon as its source is there and parses. *)
Lemma nettoyage_transactions_is_Some a p lt lt' :
  contenu (data_sources p) p "transactions" = Some (DfTransactions lt) ->
  transactions_nettoyees a lt = Some lt' ->
  is_Some (nettoyage_transactions a p).
Proof.
  unfold contenu. intros Hc Hn. rewrite nettoyage_transactions_eq.
  destruct (dict_get "transactions" (data_sources p)); [|discriminate].
  rewrite Hc. cbv zeta. rewrite Hn. eauto.
Qed.

Lemma nettoyage_clients_is_Some p lc :
  contenu (data_sources p) p "clients" = Some (DfClients lc) ->
  is_Some (nettoyage_clients p).
Proof.
  unfold contenu. intros Hc. rewrite nettoyage_clients_eq.
  destruct (dict_get "clients" (data_sources p)); [|discriminate].
  rewrite Hc. eauto.
Qed.

Lemma nettoyage_logs_is_Some a p ll ll' :
  contenu (data_sources p) p "logs" = Some (DfLogs ll) ->
  logs_nettoyes a ll = Some ll' ->
  is_Some (nettoyage_logs a p).
Proof.
  unfold contenu. intros Hc Hn. rewrite nettoyage_logs_eq.
  destruct (dict_get "logs" (data_sources p)); [|discriminate].
  rewrite Hc. cbv zeta. rewrite Hn. eauto.
Qed.

(** ** What a successful run of [nettoyer_donnees] did *)

Lemma contenu_retour nom src res p p1 k df :
  section_nettoyee nom src res p p1 ->
  ~ meme_schema df res ->
  contenu (data_sources p1) p1 k = Some df ->
  contenu (data_sources p) p k = Some df.
Proof.
  intros (_ & [Hs _] & _ & _ & _ & Hnew) Hdiff. unfold contenu. rewrite Hs.
  destruct (dict_get k (data_sources p)) as [r|]; [|discriminate].
  intros Hr. apply Hnew in Hr as [Hr|Hr]; [exact Hr | contradiction].
Qed.

Lemma contenu_cleaned_suite nom src res p p1 k df :
  section_nettoyee nom src res p p1 ->
  k <> nom ->
  contenu (cleaned_data p) p k = Some df ->
  contenu (cleaned_data p1) p1 k = Some df.
Proof.
  intros (_ & [_ Hh] & _ & Hcd & _) Hk. unfold contenu. rewrite (Hcd k Hk).
  destruct (dict_get k (cleaned_data p)) as [r|]; [|discriminate].
  intros Hr. rewrite Hh; [exact Hr | eauto].
Qed.

Lemma nettoyer_donnees_Some a p d p' :
  nettoyer_donnees a p = Some (d, p') ->
  d = cleaned_data p'
  /\ exists lt lc ll lt' ll', nettoyage_accompli a p p' lt lc ll lt' ll'.
Proof.
  intros H. rewrite nettoyer_donnees_eq in H.
  destruct (nettoyage_transactions a p) as [[u1 p1]|] eqn:E1; [|discriminate].
  destruct (nettoyage_clients p1) as [[u2 p2]|] eqn:E2; [|discriminate].
  destruct (nettoyage_logs a p2) as [[u3 p3]|] eqn:E3; [|discriminate].
  injection H as <- <-. split; [reflexivity |].
  apply nettoyage_transactions_Some in E1 as (lt & lt' & Hnt & S1 & St1).
  apply nettoyage_clients_Some in E2 as (lc & S2 & St2).
  apply nettoyage_logs_Some in E3 as (ll & ll' & Hnl & S3 & St3).
  exists lt, lc, ll, lt', ll'.
  pose proof S1 as (Hsrc1 & Hp1 & Hcl1 & _ & _ & _).
  pose proof S2 as (Hsrc2 & Hp2 & Hcl2 & _ & Hst2 & _).
  pose proof S3 as (Hsrc3 & Hp3 & Hcl3 & _ & _ & _).
  unfold nettoyage_accompli. repeat split.
  - exact Hsrc1.
  - eapply contenu_retour; [exact S1 | simpl; tauto | exact Hsrc2].
  - eapply contenu_retour; [exact S1 | simpl; tauto |].
    eapply contenu_retour; [exact S2 | simpl; tauto | exact Hsrc3].
  - exact Hnt.
  - exact Hnl.
  - destruct Hp1, Hp2, Hp3. congruence.
  - apply (preserve_trans p p1); [exact Hp1 |].
    apply (preserve_trans p1 p2); [exact Hp2 | exact Hp3].
  - eapply contenu_cleaned_suite; [exact S3 | discriminate |].
    eapply contenu_cleaned_suite; [exact S2 | discriminate | exact Hcl1].
  - eapply contenu_cleaned_suite; [exact S3 | discriminate | exact Hcl2].
  - exact Hcl3.
  - rewrite St3, Hst2 by discriminate. exact St1.
  - rewrite St3. exact St2.
Qed.

(** The run succeeds as soon as the three sources are there and their
    timestamps parse. *)
Lemma nettoyer_donnees_is_Some a p lt lc ll lt' ll' :
  contenu (data_sources p) p "transactions" = Some (DfTransactions lt) ->
  contenu (data_sources p) p "clients" = Some (DfClients lc) ->
  contenu (data_sources p) p "logs" = Some (DfLogs ll) ->
  transactions_nettoyees a lt = Some lt' ->
  logs_nettoyes a ll = Some ll' ->
  is_Some (nettoyer_donnees a p).
Proof.
  intros Ht Hc Hl Hnt Hnl. rewrite nettoyer_donnees_eq.
  destruct (nettoyage_transactions_is_Some a p lt lt' Ht Hnt) as [[u1 p1] E1].
  rewrite E1.
  apply nettoyage_transactions_Some in E1 as (? & ? & _ & S1 & _).
  destruct S1 as (_ & Hp1 & _).
  assert (Hc1 : contenu (data_sources p1) p1 "clients" = Some (DfClients lc)).
  { rewrite (proj1 Hp1). eapply contenu_preserve; [exact Hp1 | exact Hc]. }
  destruct (nettoyage_clients_is_Some p1 lc Hc1) as [[u2 p2] E2].
  rewrite E2.
  apply nettoyage_clients_Some in E2 as (? & S2 & _).
  destruct S2 as (_ & Hp2 & _).
  assert (Hl2 : contenu (data_sources p2) p2 "logs" = Some (DfLogs ll)).
  { pose proof (preserve_trans _ _ _ Hp1 Hp2) as Hp.
    rewrite (proj1 Hp). eapply contenu_preserve; [exact Hp | exact Hl]. }
  destruct (nettoyage_logs_is_Some a p2 ll ll' Hl2 Hnl) as [[u3 p3] E3].
  rewrite E3. eauto.
Qed.

(** ** Cleaned transaction frames *)

Lemma Forall_meme_colonne {R B : Type} (g : R -> B) (P : B -> Prop) l l' :
  map g l' = map g l ->
  Forall (fun r => P (g r)) l -> Forall (fun r => P (g r)) l'.
Proof.
  intros Heq H. apply (proj1 (List.Forall_map g P l')).
  rewrite Heq. apply (proj2 (List.Forall_map g P l)), H.
Qed.

Lemma Forall_sous_ensemble {R : Type} (P : R -> Prop) (l l' : list R) :
  (forall r, In r l' -> In r l) -> Forall P l -> Forall P l'.
Proof.
  intros Hincl H. apply List.Forall_forall. intros r Hr.
  apply (proj1 (List.Forall_forall P l) H), Hincl, Hr.
Qed.

Lemma filter_tout {R : Type} (garde : R -> bool) (l : list R) :
  Forall (fun r => garde r = true) l -> List.filter garde l = l.
Proof.
  induction l as [|r l IH]; simpl; intros H; [reflexivity |].
  inversion H as [|? ? Hr Hl]; subst. rewrite Hr. f_equal. apply IH, Hl.
Qed.

Lemma filter_garde {R : Type} (garde : R -> bool) (l : list R) :
  Forall (fun r => garde r = true) (List.filter garde l).
Proof.
  apply List.Forall_forall. intros r Hr. now apply filter_In in Hr.
Qed.

Section Colonne.

Context {R : Type} (get : R -> option Q) (set : option Q -> R -> R).
Hypothesis get_set : forall v r, get (set v r) = v.
Hypothesis set_get : forall r, set (get r) r = r.

Lemma complete_isna_sum (df : list R) :
  complete get df <-> isna_sum (map get df) = 0%nat.
Proof.
  unfold complete. rewrite isna_sum_0_iff.
  symmetry. apply (List.Forall_map get (fun c => c <> None)).
Qed.

Lemma vide_dropna (df : list R) : vide get df <-> dropna (map get df) = [].
Proof.
  unfold vide. rewrite dropna_nil_iff.
  symmetry. apply (List.Forall_map get (fun c => c = None)).
Qed.

(** After the median imputation the column is complete, unless it had no
    value at all, in which case it is left entirely missing. *)
Lemma fillna_median_complete_ou_vide df :
  (dropna (map get df) <> []
   /\ complete get (fillna get set (median (map get df)) df))
  \/ (dropna (map get df) = []
      /\ fillna get set (median (map get df)) df = df
      /\ vide get df).
Proof.
  destruct (median (map get df)) as [m|] eqn:E.
  - left. split.
    + intros Hnil. apply median_None_iff in Hnil. congruence.
    + apply complete_isna_sum, fillna_Some_complet, get_set.
  - right. apply median_None_iff in E. split; [exact E |]. split.
    + apply fillna_None, set_get.
    + apply vide_dropna, E.
Qed.

Lemma fillna_median_id df :
  complete get df \/ vide get df ->
  fillna get set (median (map get df)) df = df.
Proof.
  intros [Hc|Hv].
  - apply fillna_complet, complete_isna_sum, Hc.
  - apply vide_dropna, median_None_iff in Hv. rewrite Hv.
    apply fillna_None, set_get.
Qed.

End Colonne.

Lemma complete_fillna_Some {R A : Type} (get : R -> option A)
    (set : option A -> R -> R) v df :
  (forall w r, get (set w r) = w) ->
  complete get (fillna get set (Some v) df).
Proof.
  intros get_set. unfold complete.
  apply (proj1 (List.Forall_map get (fun c => c <> None) _)).
  apply isna_sum_0_iff, fillna_Some_complet, get_set.
Qed.

Lemma fillna_complete_id {R A : Type} (get : R -> option A)
    (set : option A -> R -> R) v df :
  complete get df -> fillna get set v df = df.
Proof.
  intros Hc. apply fillna_complet, isna_sum_0_iff.
  apply (proj2 (List.Forall_map get (fun c => c <> None) _)), Hc.
Qed.

Ltac lois_transaction :=
  try solve [intros; match goal with r : Transaction.t |- _ => destruct r end;
             reflexivity].

Section Transactions_nettoyees.

Import Transaction.

Variable analyse_date : option string -> string -> option Z.

(** The four imputations, column by column. *)
Lemma imputees_latitude l :
  map latitude (transactions_imputees l)
  = map latitude (fillna latitude set_latitude (median (map latitude l)) l).
Proof.
  unfold transactions_imputees. cbv zeta.
  rewrite !(fillna_autre _ _ latitude) by lois_transaction. reflexivity.
Qed.

Lemma imputees_longitude l :
  map longitude (transactions_imputees l)
  = map longitude (fillna longitude set_longitude (median (map longitude l)) l).
Proof.
  unfold transactions_imputees. cbv zeta.
  rewrite (fillna_autre merchant_category set_merchant_category longitude)
    by lois_transaction.
  rewrite (fillna_autre ville set_ville longitude) by lois_transaction.
  rewrite !(fillna_colonne longitude set_longitude) by lois_transaction.
  rewrite !(fillna_autre latitude set_latitude longitude) by lois_transaction.
  reflexivity.
Qed.

Lemma imputees_ville l :
  map ville (transactions_imputees l)
  = map ville (fillna ville set_ville (Some "VILLE_INCONNUE") l).
Proof.
  unfold transactions_imputees. cbv zeta.
  rewrite (fillna_autre merchant_category set_merchant_category ville)
    by lois_transaction.
  rewrite !(fillna_colonne ville set_ville) by lois_transaction.
  rewrite (fillna_autre longitude set_longitude ville) by lois_transaction.
  rewrite (fillna_autre latitude set_latitude ville) by lois_transaction.
  reflexivity.
Qed.

Lemma imputees_merchant_category l :
  map merchant_category (transactions_imputees l)
  = map (fun c => match c with
                  | None => Some (mode_ou_autre (map merchant_category l))
                  | Some _ => c
                  end)
      (map merchant_category l).
Proof.
  unfold transactions_imputees. cbv zeta.
  rewrite (fillna_colonne merchant_category set_merchant_category)
    by lois_transaction.
  rewrite !(fillna_autre ville set_ville merchant_category) by lois_transaction.
  rewrite !(fillna_autre longitude set_longitude merchant_category)
    by lois_transaction.
  rewrite !(fillna_autre latitude set_latitude merchant_category)
    by lois_transaction.
  reflexivity.
Qed.

Lemma imputees_autres {B : Type} (g : Transaction.t -> B) l :
  (forall w r, g (set_latitude w r) = g r) ->
  (forall w r, g (set_longitude w r) = g r) ->
  (forall w r, g (set_ville w r) = g r) ->
  (forall w r, g (set_merchant_category w r) = g r) ->
  map g (transactions_imputees l) = map g l.
Proof.
  intros H1 H2 H3 H4. unfold transactions_imputees. cbv zeta.
  rewrite (fillna_autre _ _ g _ _ H4), (fillna_autre _ _ g _ _ H3),
    (fillna_autre _ _ g _ _ H2), (fillna_autre _ _ g _ _ H1).
  reflexivity.
Qed.

Lemma length_imputees l : length (transactions_imputees l) = length l.
Proof.
  unfold transactions_imputees. cbv zeta. now rewrite !length_fillna.
Qed.

(** A column of [Q] after its median imputation, seen from the imputed
    frame. *)
Lemma imputees_mediane (get : Transaction.t -> option Q) set l :
  (forall v r, get (set v r) = v) ->
  (forall r, set (get r) r = r) ->
  map get (transactions_imputees l)
  = map get (fillna get set (median (map get l)) l) ->
  (dropna (map get l) <> [] /\ complete get (transactions_imputees l))
  \/ (dropna (map get l) = [] /\ vide get (transactions_imputees l)).
Proof.
  intros get_set set_get Hcol.
  destruct (fillna_median_complete_ou_vide get set get_set set_get l)
    as [[Hne Hc]|(Hnil & Hid & Hv)].
  - left. split; [exact Hne |].
    eapply (Forall_meme_colonne get (fun c => c <> None)); [exact Hcol | exact Hc].
  - right. split; [exact Hnil |]. rewrite Hid in Hcol.
    eapply (Forall_meme_colonne get (fun c => c = None)); [exact Hcol | exact Hv].
Qed.

Lemma filtrees_incl l r :
  In r (transactions_filtrees l) -> In r (transactions_imputees l).
Proof.
  unfold transactions_filtrees. intros Hr. apply filter_In in Hr as [Hr _].
  eapply drop_duplicates_incl, Hr.
Qed.

(** A successful cleaning leaves a clean frame. *)
Lemma transactions_nettoyees_propres l l' :
  transactions_nettoyees analyse_date l = Some l' -> transactions_propres l'.
Proof.
  unfold transactions_nettoyees. intros H.
  assert (Hcol : forall (B : Type) (g : Transaction.t -> B),
             (forall w r, g (set_date_heure w r) = g r) ->
             map g l' = map g (transactions_filtrees l)).
  { intros B g Hg. eapply to_datetime_autre; [exact Hg | exact H]. }
  assert (Hsub : forall (B : Type) (g : Transaction.t -> B) (P : B -> Prop),
             (forall w r, g (set_date_heure w r) = g r) ->
             Forall (fun r => P (g r)) (transactions_imputees l) ->
             Forall (fun r => P (g r)) l').
  { intros B g P Hg HP. eapply Forall_meme_colonne; [apply Hcol, Hg |].
    eapply Forall_sous_ensemble; [apply filtrees_incl | exact HP]. }
  unfold transactions_propres. repeat split.
  - destruct (imputees_mediane latitude set_latitude l) as [[_ Hc]|[_ Hv]];
      lois_transaction; [apply imputees_latitude | left | right].
    + apply (Hsub _ latitude (fun c => c <> None)); lois_transaction. exact Hc.
    + apply (Hsub _ latitude (fun c => c = None)); lois_transaction. exact Hv.
  - destruct (imputees_mediane longitude set_longitude l) as [[_ Hc]|[_ Hv]];
      lois_transaction; [apply imputees_longitude | left | right].
    + apply (Hsub _ longitude (fun c => c <> None)); lois_transaction. exact Hc.
    + apply (Hsub _ longitude (fun c => c = None)); lois_transaction. exact Hv.
  - apply (Hsub _ ville (fun c => c <> None)); lois_transaction.
    eapply (Forall_meme_colonne ville (fun c => c <> None));
      [apply imputees_ville |].
    apply complete_fillna_Some. lois_transaction.
  - apply (Hsub _ merchant_category (fun c => c <> None)); lois_transaction.
    unfold transactions_imputees. cbv zeta.
    apply complete_fillna_Some. lois_transaction.
  - rewrite (Hcol _ transaction_id) by lois_transaction.
    unfold transactions_filtrees.
    apply filter_NoDup_cles, drop_duplicates_NoDup.
  - eapply (Forall_meme_colonne montant (fun c => cell_ge c 0 = true));
      [apply Hcol; lois_transaction |].
    unfold transactions_filtrees.
    apply (filter_garde (fun r => cell_ge (montant r) 0)).
  - eapply to_datetime_convertie; [|exact H]. lois_transaction.
Qed.

(** Cleaning a clean frame changes nothing. *)
Lemma transactions_propres_fixe l :
  transactions_propres l -> transactions_nettoyees analyse_date l = Some l.
Proof.
  intros (Hlat & Hlon & Hv & Hm & Hnd & Hmt & Hd).
  assert (Hi : transactions_imputees l = l).
  { unfold transactions_imputees. cbv zeta.
    rewrite (fillna_median_id latitude set_latitude); lois_transaction;
      [|exact Hlat].
    rewrite (fillna_median_id longitude set_longitude); lois_transaction;
      [|exact Hlon].
    rewrite (fillna_complete_id ville set_ville) by exact Hv.
    rewrite (fillna_complete_id merchant_category set_merchant_category)
      by exact Hm.
    reflexivity. }
  unfold transactions_nettoyees, transactions_filtrees.
  rewrite Hi, drop_duplicates_id by exact Hnd.
  rewrite (filter_tout (fun r => cell_ge (montant r) 0)) by exact Hmt.
  apply to_datetime_id; [lois_transaction | exact Hd].
Qed.

Lemma transactions_nettoyees_idempotent l l' :
  transactions_nettoyees analyse_date l = Some l' ->
  transactions_nettoyees analyse_date l' = Some l'.
Proof.
  intros H. apply transactions_propres_fixe.
  eapply transactions_nettoyees_propres, H.
Qed.

Lemma clients_nettoyes_idempotent l :
  clients_nettoyes (clients_nettoyes l) = clients_nettoyes l.
Proof.
  assert (Hgs : forall v r, Client.score_credit (Client.set_score_credit v r) = v)
    by (intros v []; reflexivity).
  assert (Hsg : forall r, Client.set_score_credit (Client.score_credit r) r = r)
    by (intros []; reflexivity).
  unfold clients_nettoyes at 1 3.
  destruct (fillna_median_complete_ou_vide Client.score_credit
              Client.set_score_credit Hgs Hsg l) as [[_ Hc]|(_ & Hid & Hv)].
  - apply (fillna_median_id _ _ Hsg). left. exact Hc.
  - unfold clients_nettoyes. rewrite Hid.
    apply (fillna_median_id _ _ Hsg). right. exact Hv.
Qed.

Lemma logs_nettoyes_idempotent l l' :
  logs_nettoyes analyse_date l = Some l' ->
  logs_nettoyes analyse_date l' = Some l'.
Proof.
  assert (Hgs : forall v r, Log.timestamp (Log.set_timestamp v r) = v)
    by (intros v []; reflexivity).
  assert (Hsg : forall r, Log.set_timestamp (Log.timestamp r) r = r)
    by (intros []; reflexivity).
  unfold logs_nettoyes.
  destruct (to_datetime analyse_date Log.timestamp Log.set_timestamp l)
    as [l1|] eqn:E; [|discriminate].
  simpl. intros [= <-].
  assert (Hconv : Forall (fun r => convertie (Log.timestamp r))
                    (drop_duplicates (fun r : Log.t => r) l1)).
  { eapply Forall_sous_ensemble; [apply drop_duplicates_incl |].
    eapply to_datetime_convertie; [exact Hgs | exact E]. }
  rewrite (to_datetime_id analyse_date _ _ Hsg _ Hconv). simpl.
  f_equal. apply drop_duplicates_id.
  apply (drop_duplicates_NoDup (fun r : Log.t => r)).
Qed.

End Transactions_nettoyees.

(** The conversions succeed on timestamps of one format. *)
Lemma transactions_nettoyees_is_Some a lt :
  meme_format a (map Transaction.date_heure lt) ->
  is_Some (transactions_nettoyees a lt).
Proof.
  intros Hdt. unfold transactions_nettoyees. apply to_datetime_is_Some.
  apply (meme_format_convertible a _ _ Hdt). intros c Hc.
  apply in_map_iff in Hc as (r & <- & Hr). apply filtrees_incl in Hr.
  rewrite <- (imputees_autres Transaction.date_heure lt)
    by (intros w []; reflexivity).
  now apply in_map.
Qed.

Lemma logs_nettoyes_is_Some a ll :
  meme_format a (map Log.timestamp ll) ->
  is_Some (logs_nettoyes a ll).
Proof.
  intros Hdl. unfold logs_nettoyes.
  destruct (to_datetime_is_Some a Log.timestamp Log.set_timestamp ll)
    as [l1 ->].
  - apply (meme_format_convertible a _ _ Hdl). auto.
  - simpl. eauto.
Qed.

(** The cleaning returns when the three sources are there and the text
    timestamps of each of the two columns are of one format. *)
Lemma nettoyer_donnees_retourne a p lt lc ll :
  contenu (data_sources p) p "transactions" = Some (DfTransactions lt) ->
  contenu (data_sources p) p "clients" = Some (DfClients lc) ->
  contenu (data_sources p) p "logs" = Some (DfLogs ll) ->
  meme_format a (map Transaction.date_heure lt) ->
  meme_format a (map Log.timestamp ll) ->
  is_Some (nettoyer_donnees a p).
Proof.
  intros Ht Hc Hl Hdt Hdl.
  destruct (transactions_nettoyees_is_Some a lt Hdt) as [lt' Hnt].
  destruct (logs_nettoyes_is_Some a ll Hdl) as [ll' Hnl].
  eapply nettoyer_donnees_is_Some; eassumption.
Qed.

(** ** The cleaning stage: frame and invariants *)

(** C10: the cleaning stage never mutates the extracted raw data.  After a
    run of [nettoyer_donnees] the dictionary of sources is the same, every
    DataFrame object that existed before the run is unchanged, and so the
    raw transactions, clients and logs are identical before and after. *)
Theorem C10_sources_intactes a p d p' :
  nettoyer_donnees a p = Some (d, p') ->
  data_sources p' = data_sources p
  /\ (forall r df, tas p !! r = Some df -> tas p' !! r = Some df)
  /\ (forall k, k ∈ noms_sources ->
        is_Some (contenu (data_sources p) p k)
        /\ contenu (data_sources p') p' k = contenu (data_sources p) p k).
Proof.
  intros H. apply nettoyer_donnees_Some in H as (_ & lt & lc & ll & lt' & ll' & Hrun).
  destruct Hrun as (Ht & Hc & Hl & _ & _ & Hp & _).
  pose proof Hp as [Hs Hh]. split; [exact Hs |]. split.
  - intros r df Hr. rewrite Hh; [exact Hr | eauto].
  - intros k Hk. rewrite Hs. unfold noms_sources in Hk.
    repeat (apply elem_of_cons in Hk as [->|Hk]);
      [| | |now apply elem_of_nil in Hk].
    + rewrite Ht. split; [eauto |]. eapply contenu_preserve; eassumption.
    + rewrite Hc. split; [eauto |]. eapply contenu_preserve; eassumption.
    + rewrite Hl. split; [eauto |]. eapply contenu_preserve; eassumption.
Qed.

Lemma C10_sources_intactes_temoin :
  exists d p',
    nettoyer_donnees Exemple.analyse_date Exemple.pipeline_ordinaire = Some (d, p')
    /\ data_sources p' = data_sources Exemple.pipeline_ordinaire
    /\ (forall r df, tas Exemple.pipeline_ordinaire !! r = Some df ->
          tas p' !! r = Some df)
    /\ (forall k, k ∈ noms_sources ->
          is_Some (contenu (data_sources Exemple.pipeline_ordinaire)
                     Exemple.pipeline_ordinaire k)
          /\ contenu (data_sources p') p' k
             = contenu (data_sources Exemple.pipeline_ordinaire)
                 Exemple.pipeline_ordinaire k).
Proof.
  eexists _, _. split; [vm_compute; reflexivity |].
  eapply (C10_sources_intactes Exemple.analyse_date Exemple.pipeline_ordinaire).
  vm_compute. reflexivity.
Defined.

Lemma cleaned_transactions a p p' lt lc ll lt' ll' l :
  nettoyage_accompli a p p' lt lc ll lt' ll' ->
  contenu (cleaned_data p') p' "transactions" = Some (DfTransactions l) ->
  l = lt'.
Proof.
  intros (_ & _ & _ & _ & _ & _ & Hc & _) Hl. congruence.
Qed.

Lemma nettoyees_origine a l l' r' :
  transactions_nettoyees a l = Some l' ->
  In r' l' ->
  exists r, In r l
    /\ Transaction.transaction_id r' = Transaction.transaction_id r
    /\ Transaction.montant r' = Transaction.montant r.
Proof.
  intros H Hr'.
  set (g := fun r : Transaction.t =>
              (Transaction.transaction_id r, Transaction.montant r)).
  assert (H1 : map g l' = map g (transactions_filtrees l)).
  { eapply to_datetime_autre; [|exact H]. intros w []; reflexivity. }
  assert (H2 : map g (transactions_imputees l) = map g l).
  { apply imputees_autres; intros w []; reflexivity. }
  assert (Hin : In (g r') (map g l)).
  { rewrite <- H2. apply (in_map g) in Hr'. rewrite H1 in Hr'.
    apply in_map_iff in Hr' as (x & <- & Hx).
    apply in_map, filtrees_incl, Hx. }
  apply in_map_iff in Hin as (r & Hg & Hr). exists r.
  unfold g in Hg. injection Hg as Hid Hm. auto.
Qed.

(** C4: every row of the cleaned transaction table has a non-negative
    amount.  Rows with a negative amount are removed, not imputed: a cleaned
    row carries the amount and the identifier of a source row. *)
Theorem C4_montants_positifs a p d p' lt lt' :
  nettoyer_donnees a p = Some (d, p') ->
  contenu (data_sources p) p "transactions" = Some (DfTransactions lt) ->
  contenu (cleaned_data p') p' "transactions" = Some (DfTransactions lt') ->
  Forall (fun r' =>
            (exists m, Transaction.montant r' = Some m /\ (0 <= m)%Q)
            /\ (exists r, In r lt
                  /\ Transaction.transaction_id r' = Transaction.transaction_id r
                  /\ Transaction.montant r' = Transaction.montant r))
         lt'.
Proof.
  intros H Hsrc Hcl.
  apply nettoyer_donnees_Some in H as (_ & lt0 & lc & ll & lt0' & ll' & Hrun).
  pose proof (cleaned_transactions _ _ _ _ _ _ _ _ _ Hrun Hcl) as ->.
  destruct Hrun as (Ht & _ & _ & Hn & _).
  assert (lt0 = lt) as -> by congruence.
  pose proof (transactions_nettoyees_propres a lt lt0' Hn)
    as (_ & _ & _ & _ & _ & Hm & _).
  apply List.Forall_forall. intros r' Hr'. split.
  - apply (proj1 (List.Forall_forall _ _) Hm) in Hr'. unfold cell_ge in Hr'.
    destruct (Transaction.montant r') as [m|]; [|discriminate].
    exists m. split; [reflexivity |]. now apply Qle_bool_iff.
  - eapply nettoyees_origine; eassumption.
Qed.

Lemma C4_montants_positifs_temoin :
  exists d p' lt',
    nettoyer_donnees Exemple.analyse_date Exemple.pipeline_ordinaire = Some (d, p')
    /\ contenu (cleaned_data p') p' "transactions" = Some (DfTransactions lt')
    /\ length lt' = 2%nat
    /\ Forall (fun r' =>
                 (exists m, Transaction.montant r' = Some m /\ (0 <= m)%Q)
                 /\ (exists r, In r Exemple.transactions_ordinaires
                       /\ Transaction.transaction_id r'
                          = Transaction.transaction_id r
                       /\ Transaction.montant r' = Transaction.montant r))
              lt'.
Proof.
  eexists _, _, _. split; [vm_compute; reflexivity |].
  split; [vm_compute; reflexivity |]. split; [reflexivity |].
  eapply (C4_montants_positifs Exemple.analyse_date Exemple.pipeline_ordinaire
            _ _ Exemple.transactions_ordinaires);
    vm_compute; reflexivity.
Defined.

(** C9: cleaning the client table modifies only the credit-score column.
    The cleaned table has the rows of the source table in the same order;
    each cleaned row is the source row with (at most) another credit score;
    a missing [date_derniere_fraude] is still missing; a credit score that
    was present is kept. *)
Theorem C9_clients_score_seul a p d p' lc lc' :
  nettoyer_donnees a p = Some (d, p') ->
  contenu (data_sources p) p "clients" = Some (DfClients lc) ->
  contenu (cleaned_data p') p' "clients" = Some (DfClients lc') ->
  Forall2 (fun r r' =>
             r' = Client.set_score_credit (Client.score_credit r') r
             /\ (Client.date_derniere_fraude r = None ->
                 Client.date_derniere_fraude r' = None)
             /\ (forall s, Client.score_credit r = Some s ->
                           Client.score_credit r' = Some s))
          lc lc'.
Proof.
  intros H Hsrc Hcl.
  apply nettoyer_donnees_Some in H as (_ & lt & lc0 & ll & lt' & ll' & Hrun).
  destruct Hrun as (_ & Hc & _ & _ & _ & _ & _ & Hcc & _).
  assert (lc0 = lc) as -> by congruence.
  assert (lc' = clients_nettoyes lc) as -> by congruence.
  unfold clients_nettoyes, fillna.
  generalize (median (map Client.score_credit lc)). intros v.
  clear. induction lc as [|r lc IH]; simpl; constructor; [|exact IH].
  destruct r as [id age sx cp anc nb rev [s|] dt]; simpl.
  - repeat split; auto.
  - repeat split; auto. intros s. discriminate.
Qed.

Lemma C9_clients_score_seul_temoin :
  exists d p' lc',
    nettoyer_donnees Exemple.analyse_date Exemple.pipeline_ordinaire = Some (d, p')
    /\ contenu (cleaned_data p') p' "clients" = Some (DfClients lc')
    /\ Forall2 (fun r r' =>
                  r' = Client.set_score_credit (Client.score_credit r') r
                  /\ (Client.date_derniere_fraude r = None ->
                      Client.date_derniere_fraude r' = None)
                  /\ (forall s, Client.score_credit r = Some s ->
                                Client.score_credit r' = Some s))
               Exemple.clients_ordinaires lc'.
Proof.
  eexists _, _, _. split; [vm_compute; reflexivity |].
  split; [vm_compute; reflexivity |].
  eapply (C9_clients_score_seul Exemple.analyse_date Exemple.pipeline_ordinaire);
    vm_compute; reflexivity.
Defined.

(** C8: the cleaner is idempotent.  When the frames cleaned by a first run
    are given as sources to a second run, the second run succeeds, each of
    the three cleaned tables is equal to the one it started from (no cell
    imputed, no row removed), and the quality reports computed before and
    after the second cleaning coincide. *)
Theorem C8_nettoyage_idempotent a p d p' q :
  nettoyer_donnees a p = Some (d, p') ->
  (forall k, k ∈ noms_sources ->
     contenu (data_sources q) q k = contenu (cleaned_data p') p' k) ->
  exists d' q',
    nettoyer_donnees a q = Some (d', q')
    /\ (forall k, k ∈ noms_sources ->
          contenu (cleaned_data q') q' k = contenu (cleaned_data p') p' k)
    /\ (exists s, dict_get "transactions" (stats_nettoyage q') = Some (s, s))
    /\ (exists s, dict_get "clients" (stats_nettoyage q') = Some (s, s)).
Proof.
  intros H Hq.
  apply nettoyer_donnees_Some in H as (_ & lt & lc & ll & lt' & ll' & Hrun).
  destruct Hrun as (_ & _ & _ & Hnt & Hnl & _ & Hct & Hcc & Hcl & _).
  assert (Hqt : contenu (data_sources q) q "transactions" = Some (DfTransactions lt')).
  { rewrite Hq; [exact Hct | unfold noms_sources; set_solver]. }
  assert (Hqc : contenu (data_sources q) q "clients"
                = Some (DfClients (clients_nettoyes lc))).
  { rewrite Hq; [exact Hcc | unfold noms_sources; set_solver]. }
  assert (Hql : contenu (data_sources q) q "logs" = Some (DfLogs ll')).
  { rewrite Hq; [exact Hcl | unfold noms_sources; set_solver]. }
  pose proof (transactions_nettoyees_idempotent a lt lt' Hnt) as Hit.
  pose proof (logs_nettoyes_idempotent a ll ll' Hnl) as Hil.
  destruct (nettoyer_donnees_is_Some a q _ _ _ _ _ Hqt Hqc Hql Hit Hil)
    as [[d' q'] Hrun'].
  exists d', q'. split; [exact Hrun' |].
  apply nettoyer_donnees_Some in Hrun' as (_ & mt & mc & ml & mt' & ml' & Hrun').
  destruct Hrun' as (Ht2 & Hc2 & Hl2 & Hnt2 & Hnl2 & _ & Hct2 & Hcc2 & Hcl2 & Hst & Hsc).
  assert (mt = lt') as -> by congruence.
  assert (mc = clients_nettoyes lc) as -> by congruence.
  assert (ml = ll') as -> by congruence.
  assert (mt' = lt') as -> by congruence.
  assert (ml' = ll') as -> by congruence.
  rewrite clients_nettoyes_idempotent in Hcc2, Hsc.
  split; [|split; eauto].
  intros k Hk. unfold noms_sources in Hk.
  repeat (apply elem_of_cons in Hk as [->|Hk]);
    [| | |now apply elem_of_nil in Hk]; congruence.
Qed.

Lemma C8_nettoyage_idempotent_temoin :
  exists d p' d' q',
    nettoyer_donnees Exemple.analyse_date Exemple.pipeline_ordinaire = Some (d, p')
    /\ nettoyer_donnees Exemple.analyse_date (reprendre p') = Some (d', q')
    /\ (forall k, k ∈ noms_sources ->
          contenu (cleaned_data q') q' k = contenu (cleaned_data p') p' k)
    /\ (exists s, dict_get "transactions" (stats_nettoyage q') = Some (s, s))
    /\ (exists s, dict_get "clients" (stats_nettoyage q') = Some (s, s)).
Proof.
  eexists _, _.
  destruct (C8_nettoyage_idempotent Exemple.analyse_date
              Exemple.pipeline_ordinaire _ _ (reprendre _)
              ltac:(vm_compute; reflexivity) ltac:(reflexivity))
    as (d' & q' & Hrun & Hres).
  exists d', q'. split; [vm_compute; reflexivity |].
  split; [exact Hrun | exact Hres].
Defined.

(** ** Imputation of the missing values *)

(** Where the imputation does remove the missing values: always for the
    city and the merchant category, and for a median-imputed column as soon
    as it holds one value. *)
Lemma imputation_complete a l l' :
  transactions_nettoyees a l = Some l' ->
  isna_sum (map Transaction.ville l') = 0%nat
  /\ isna_sum (map Transaction.merchant_category l') = 0%nat
  /\ (dropna (map Transaction.latitude l) <> [] ->
      isna_sum (map Transaction.latitude l') = 0%nat)
  /\ (dropna (map Transaction.longitude l) <> [] ->
      isna_sum (map Transaction.longitude l') = 0%nat).
Proof.
  intros H.
  pose proof (transactions_nettoyees_propres a l l' H) as (_ & _ & Hv & Hm & _).
  assert (Hsub : forall (g : Transaction.t -> option Q),
             (forall w r, g (Transaction.set_date_heure w r) = g r) ->
             complete g (transactions_imputees l) -> complete g l').
  { intros g Hg HP. unfold complete.
    eapply (Forall_meme_colonne g (fun c => c <> None));
      [eapply to_datetime_autre; [exact Hg | exact H] |].
    eapply Forall_sous_ensemble; [apply filtrees_incl | exact HP]. }
  split; [apply isna_sum_0_iff, (proj2 (List.Forall_map _ (fun c => c <> None) _)), Hv |].
  split; [apply isna_sum_0_iff, (proj2 (List.Forall_map _ (fun c => c <> None) _)), Hm |].
  split; intros Hne.
  - destruct (imputees_mediane Transaction.latitude Transaction.set_latitude l)
      as [[_ Hc]|[Hnil _]]; lois_transaction;
      [apply imputees_latitude | | contradiction].
    apply complete_isna_sum, Hsub; lois_transaction. exact Hc.
  - destruct (imputees_mediane Transaction.longitude Transaction.set_longitude l)
      as [[_ Hc]|[Hnil _]]; lois_transaction;
      [apply imputees_longitude | | contradiction].
    apply complete_isna_sum, Hsub; lois_transaction. exact Hc.
Qed.

(** C3, on a frame whose single transaction has no coordinates (what the
    generator writes for a transaction without city): the cleaner leaves the
    latitude and the longitude missing, and reports one missing value for
    each in the quality report computed after cleaning. *)
Theorem C3_coordonnees_restent_manquantes :
  exists d p' lt' avant apres,
    nettoyer_donnees Exemple.analyse_date Exemple.pipeline_sans_ville = Some (d, p')
    /\ contenu (cleaned_data p') p' "transactions" = Some (DfTransactions lt')
    /\ isna_sum (map Transaction.latitude lt') = 1%nat
    /\ isna_sum (map Transaction.longitude lt') = 1%nat
    /\ dict_get "transactions" (stats_nettoyage p') = Some (avant, apres)
    /\ dict_get "latitude" (valeurs_manquantes apres) = Some 1%nat
    /\ dict_get "longitude" (valeurs_manquantes apres) = Some 1%nat.
Proof.
  eexists _, _, _, _, _.
  split; [vm_compute; reflexivity |].
  split; [vm_compute; reflexivity |].
  split; [vm_compute; reflexivity |].
  split; [vm_compute; reflexivity |].
  split; [vm_compute; reflexivity |].
  split; vm_compute; reflexivity.
Qed.

Lemma mode_ou_autre_spec col :
  (dropna col = [] -> mode_ou_autre col = "AUTRE")
  /\ (dropna col <> [] ->
      In (Some (mode_ou_autre col)) col
      /\ (forall v, In (Some v) col ->
            (occurrences v (dropna col)
             <= occurrences (mode_ou_autre col) (dropna col))%nat)
      /\ (forall v, In (Some v) col ->
            occurrences v (dropna col)
            = occurrences (mode_ou_autre col) (dropna col) ->
            String.leb (mode_ou_autre col) v = true)).
Proof.
  unfold mode_ou_autre. destruct (mode col) as [|m t] eqn:E.
  - apply mode_nil_iff in E. split; [reflexivity | contradiction].
  - split.
    + intros Hnil. apply mode_nil_iff in Hnil. congruence.
    + intros _. eapply mode_tete, E.
Qed.

(** The imputations work row by row: they leave the identifier, the amount
    and the timestamp of a row alone, keep a present category and fill a
    missing one. *)
Lemma imputees_par_ligne l :
  exists F : Transaction.t -> Transaction.t,
    transactions_imputees l = map F l
    /\ forall r, Transaction.transaction_id (F r) = Transaction.transaction_id r
                 /\ Transaction.montant (F r) = Transaction.montant r
                 /\ Transaction.date_heure (F r) = Transaction.date_heure r
                 /\ Transaction.merchant_category (F r)
                    = Some (default
                              (mode_ou_autre (map Transaction.merchant_category l))
                              (Transaction.merchant_category r)).
Proof.
  set (m := mode_ou_autre (map Transaction.merchant_category l)).
  assert (Hm : transactions_imputees l
               = fillna Transaction.merchant_category
                   Transaction.set_merchant_category (Some m)
                   (fillna Transaction.ville Transaction.set_ville
                      (Some "VILLE_INCONNUE")
                      (fillna Transaction.longitude Transaction.set_longitude
                         (median (map Transaction.longitude
                            (fillna Transaction.latitude Transaction.set_latitude
                               (median (map Transaction.latitude l)) l)))
                         (fillna Transaction.latitude Transaction.set_latitude
                            (median (map Transaction.latitude l)) l)))).
  { unfold transactions_imputees, m. cbv zeta.
    rewrite !(fillna_autre _ _ Transaction.merchant_category)
      by (intros w []; reflexivity).
    reflexivity. }
  rewrite Hm. unfold fillna. rewrite !List.map_map.
  eexists. split; [reflexivity |].
  intros [id cl mt dv dh tt tc mi [c|] pa [v|] [la|] [lo|] ca fr];
    repeat split; reflexivity.
Qed.

Section Cle.
Context {R K : Type} `{EqDecision K} (cle : R -> K) (F : R -> R).
Hypothesis cle_F : forall r, cle (F r) = cle r.

Lemma drop_duplicates_depuis_map vus l :
  drop_duplicates_depuis cle vus (map F l)
  = map F (drop_duplicates_depuis cle vus l).
Proof.
  revert vus. induction l as [|r l IH]; intros vus; [reflexivity |].
  simpl. rewrite cle_F.
  destruct (decide (cle r ∈ vus)); [apply IH |].
  simpl. now rewrite IH.
Qed.
End Cle.

Lemma filter_map_ligne {A B : Type} (P : B -> bool) (F : A -> B) l :
  List.filter P (map F l) = map F (List.filter (fun x => P (F x)) l).
Proof.
  induction l as [|x l IH]; [reflexivity |]. simpl.
  destruct (P (F x)); simpl; now rewrite IH.
Qed.

Lemma nettoyees_categories a l l' :
  transactions_nettoyees a l = Some l' ->
  map (fun r => (Transaction.transaction_id r, Transaction.merchant_category r)) l'
  = map (fun r => (Transaction.transaction_id r,
                   Some (default (mode_ou_autre (map Transaction.merchant_category l))
                           (Transaction.merchant_category r))))
      (List.filter (fun r => cell_ge (Transaction.montant r) 0)
         (drop_duplicates Transaction.transaction_id l)).
Proof.
  intros H.
  unfold transactions_nettoyees in H.
  rewrite (to_datetime_autre a Transaction.date_heure Transaction.set_date_heure
             (fun r => (Transaction.transaction_id r,
                        Transaction.merchant_category r))
             _ _ (fun w r => eq_refl) H).
  destruct (imputees_par_ligne l) as (F & HF & HFr).
  unfold transactions_filtrees, drop_duplicates. rewrite HF.
  rewrite (drop_duplicates_depuis_map Transaction.transaction_id F)
    by (intros r; apply HFr).
  rewrite filter_map_ligne, List.map_map.
  rewrite (filter_ext (fun x => cell_ge (Transaction.montant (F x)) 0)
             (fun r => cell_ge (Transaction.montant r) 0))
    by (intros r; now destruct (HFr r) as (_ & -> & _)).
  apply map_ext. intros r. destruct (HFr r) as (-> & _ & _ & ->). reflexivity.
Qed.

(** C6, as the code has it: a missing merchant category is filled with the
    most frequent non-missing value of the source column; among equally
    frequent values the smallest in string order is taken (not the one met
    first); the label AUTRE is used when the column has no value.  Present
    categories are kept.  Row for row, the identifiers and categories of
    the cleaned table are those of the source rows that the cleaning keeps
    (first row of each identifier, amount not negative), the missing
    categories filled in this way. *)
Theorem C6_mode_plus_petit a p d p' lt lt' :
  nettoyer_donnees a p = Some (d, p') ->
  contenu (data_sources p) p "transactions" = Some (DfTransactions lt) ->
  contenu (cleaned_data p') p' "transactions" = Some (DfTransactions lt') ->
  let col := map Transaction.merchant_category lt in
  let m := mode_ou_autre col in
  map (fun r => (Transaction.transaction_id r, Transaction.merchant_category r))
    lt'
  = map (fun r => (Transaction.transaction_id r,
                   match Transaction.merchant_category r with
                   | Some c => Some c
                   | None => Some m
                   end))
      (List.filter (fun r => cell_ge (Transaction.montant r) 0)
         (drop_duplicates Transaction.transaction_id lt))
  /\ (dropna col = [] -> m = "AUTRE")
  /\ (dropna col <> [] ->
      In (Some m) col
      /\ (forall v, In (Some v) col ->
            (occurrences v (dropna col) <= occurrences m (dropna col))%nat)
      /\ (forall v, In (Some v) col ->
            occurrences v (dropna col) = occurrences m (dropna col) ->
            String.leb m v = true)).
Proof.
  intros H Hsrc Hcl col m.
  apply nettoyer_donnees_Some in H as (_ & lt0 & lc & ll & lt0' & ll' & Hrun).
  pose proof (cleaned_transactions _ _ _ _ _ _ _ _ _ Hrun Hcl) as ->.
  destruct Hrun as (Ht & _ & _ & Hn & _).
  assert (lt0 = lt) as -> by congruence.
  split; [|apply mode_ou_autre_spec].
  rewrite (nettoyees_categories a lt _ Hn).
  apply map_ext. intros r. now destruct (Transaction.merchant_category r).
Qed.

Lemma C6_mode_plus_petit_temoin :
  exists d p' lt',
    nettoyer_donnees Exemple.analyse_date Exemple.pipeline_ex_aequo = Some (d, p')
    /\ contenu (cleaned_data p') p' "transactions" = Some (DfTransactions lt')
    /\ map Transaction.merchant_category Exemple.transactions_ex_aequo
       = [Some "RESTAURANT"; Some "ESSENCE"; None]
    /\ map (fun r => (Transaction.transaction_id r,
                      Transaction.merchant_category r)) lt'
       = [(Some "TRX_00000000", Some "RESTAURANT");
          (Some "TRX_00000001", Some "ESSENCE");
          (Some "TRX_00000002", Some "ESSENCE")]
    /\ let col := map Transaction.merchant_category Exemple.transactions_ex_aequo in
       let m := mode_ou_autre col in
       m = "ESSENCE"
       /\ map (fun r => (Transaction.transaction_id r,
                         Transaction.merchant_category r)) lt'
          = map (fun r => (Transaction.transaction_id r,
                           match Transaction.merchant_category r with
                           | Some c => Some c
                           | None => Some m
                           end))
              (List.filter (fun r => cell_ge (Transaction.montant r) 0)
                 (drop_duplicates Transaction.transaction_id
                    Exemple.transactions_ex_aequo))
       /\ (dropna col = [] -> m = "AUTRE")
       /\ (dropna col <> [] ->
           In (Some m) col
           /\ (forall v, In (Some v) col ->
                 (occurrences v (dropna col) <= occurrences m (dropna col))%nat)
           /\ (forall v, In (Some v) col ->
                 occurrences v (dropna col) = occurrences m (dropna col) ->
                 String.leb m v = true)).
Proof.
  eexists _, _, _. split; [vm_compute; reflexivity |].
  split; [vm_compute; reflexivity |].
  split; [vm_compute; reflexivity |].
  split; [vm_compute; reflexivity |].
  intros col m. split; [vm_compute; reflexivity |].
  eapply (C6_mode_plus_petit Exemple.analyse_date Exemple.pipeline_ex_aequo
            _ _ Exemple.transactions_ex_aequo);
    vm_compute; reflexivity.
Defined.

(** C6 as stated fails: RESTAURANT and ESSENCE occur once each, RESTAURANT
    first; the missing category is filled with ESSENCE, where the rule of the
    first value met gives RESTAURANT. *)
Lemma C6_contre_exemple :
  exists d p' lt',
    nettoyer_donnees Exemple.analyse_date Exemple.pipeline_ex_aequo = Some (d, p')
    /\ contenu (cleaned_data p') p' "transactions" = Some (DfTransactions lt')
    /\ map Transaction.merchant_category lt'
       = [Some "RESTAURANT"; Some "ESSENCE"; Some "ESSENCE"]
    /\ imputation_premiere_rencontre
         (map Transaction.merchant_category Exemple.transactions_ex_aequo)
       = [Some "RESTAURANT"; Some "ESSENCE"; Some "RESTAURANT"]
    /\ map Transaction.merchant_category lt'
       <> imputation_premiere_rencontre
            (map Transaction.merchant_category Exemple.transactions_ex_aequo).
Proof.
  eexists _, _, _. split; [vm_compute; reflexivity |].
  split; [vm_compute; reflexivity |].
  split; [vm_compute; reflexivity |].
  split; [vm_compute; reflexivity |].
  vm_compute. discriminate.
Qed.

(** ** Quality analysis *)

Lemma anomalies_coordonnees (df : list Transaction.t) nom_source :
  dict_get "coordonnees_invalides"
    (anomalies (analyser_qualite_donnees df nom_source))
  = Some (mask_sum (fun r => cell_lt (Transaction.latitude r) (- (90 # 1))
                             || cell_gt (Transaction.latitude r) (90 # 1)) df).
Proof. reflexivity. Qed.

(** C7, on a frame whose single row has latitude 45 and longitude 200: the
    row lies outside the valid longitude range, yet the anomaly report counts
    no invalid coordinate, because only the latitude is compared with its
    bounds. *)
Theorem C7_longitude_ignoree :
  mask_sum coordonnees_hors_domaine Exemple.transactions_longitude_200 = 1%nat
  /\ dict_get "coordonnees_invalides"
       (anomalies (analyser_qualite_donnees Exemple.transactions_longitude_200
                     "transactions"))
     = Some 0%nat.
Proof. split; vm_compute; reflexivity. Qed.

(** ** Aggregation *)

(** With distinct right keys the left join yields the left rows, each once,
    in order. *)
Lemma merge_left_fst {L R K : Type} `{EqDecision K}
    (on_left : L -> K) (on_right : R -> K) (left : list L) (right : list R) :
  NoDup (map on_right right) ->
  map fst (merge_left on_left on_right left right) = left.
Proof.
  intros Hnd. unfold merge_left.
  induction left as [|l left IH]; [reflexivity |].
  cbn [flat_map]. rewrite List.map_app, IH.
  pose proof (filter_cle_unique on_right (on_left l) right Hnd) as Hle.
  destruct (List.filter _ right) as [|r [|r' ms]]; simpl in *;
    [reflexivity | reflexivity | lia].
Qed.

Lemma fusionner_trans df_trans df_clients agg :
  NoDup (map Client.client_id df_clients) ->
  NoDup (map Features.client_id agg) ->
  map Final.trans (fusionner df_trans df_clients agg) = df_trans.
Proof.
  intros Hc Ha. unfold fusionner. rewrite List.map_map. simpl.
  rewrite <- (List.map_map fst fst), !merge_left_fst; [reflexivity | exact Hc |].
  rewrite <- (List.map_map Features.client_id Some).
  apply NoDup_fmap_2; [|exact Ha]. intros x y Hxy. congruence.
Qed.

(** C1: when every client identifier occurs at most once in the client
    table and at most once in the per-client feature table, the Aggregator
    returns a dataset with exactly one row per cleaned transaction, in the
    order of the transactions, and whose two feature columns have no missing
    value. *)
Theorem C1_jointure_conserve_les_lignes p lt lc ll :
  contenu (cleaned_data p) p "transactions" = Some (DfTransactions lt) ->
  contenu (cleaned_data p) p "clients" = Some (DfClients lc) ->
  contenu (cleaned_data p) p "logs" = Some (DfLogs ll) ->
  NoDup (map Client.client_id lc) ->
  NoDup (map Features.client_id (logs_agg ll)) ->
  exists r p' lf,
    agréger_données p = Some (r, p')
    /\ tas p' !! r = Some (DfFinal lf)
    /\ contenu (cleaned_data p') p' "dataset_final" = Some (DfFinal lf)
    /\ length lf = length lt
    /\ map Final.trans lf = lt
    /\ isna_sum (map Final.nb_sessions lf) = 0%nat
    /\ isna_sum (map Final.duree_moy_session_sec lf) = 0%nat.
Proof.
  unfold contenu. intros Ht Hc Hl Hndc Hnda.
  destruct p as [h ds cd st]. simpl in *.
  destruct (dict_get "transactions" cd) as [rt|] eqn:Et; [|discriminate].
  destruct (dict_get "clients" cd) as [rc|] eqn:Ec; [|discriminate].
  destruct (dict_get "logs" cd) as [rl|] eqn:El; [|discriminate].
  unfold agréger_données. deplier. rewrite Et, Ec, El, Hl, Ht, Hc.
  executer_pas. rewrite ?insert_insert_eq.
  eexists _, _, _. split; [reflexivity |]. simpl.
  rewrite lookup_insert_eq, dict_get_set_eq, lookup_insert_eq.
  split; [reflexivity |]. split; [reflexivity |].
  assert (Htr : map Final.trans
                  (fillna Final.duree_moy_session_sec Final.set_duree_moy_session_sec
                     (Some 0%Q)
                     (fillna Final.nb_sessions Final.set_nb_sessions (Some 0%Q)
                        (fusionner lt lc (logs_agg ll))))
                = lt).
  { rewrite !(fillna_autre _ _ Final.trans) by (intros w []; reflexivity).
    now apply fusionner_trans. }
  split; [rewrite <- Htr at 2; now rewrite length_map |].
  split; [exact Htr |]. split.
  - rewrite (fillna_autre _ _ Final.nb_sessions) by (intros w []; reflexivity).
    apply fillna_Some_complet. intros v []; reflexivity.
  - apply fillna_Some_complet. intros v []; reflexivity.
Qed.

Lemma C1_jointure_conserve_les_lignes_temoin :
  exists d p lt,
    nettoyer_donnees Exemple.analyse_date Exemple.pipeline_ordinaire = Some (d, p)
    /\ length lt = 2%nat
    /\ exists r p' lf,
         agréger_données p = Some (r, p')
         /\ tas p' !! r = Some (DfFinal lf)
         /\ contenu (cleaned_data p') p' "dataset_final" = Some (DfFinal lf)
         /\ length lf = length lt
         /\ map Final.trans lf = lt
         /\ isna_sum (map Final.nb_sessions lf) = 0%nat
         /\ isna_sum (map Final.duree_moy_session_sec lf) = 0%nat.
Proof.
  eexists _, _, _. split; [vm_compute; reflexivity |].
  split; cycle 1.
  - eapply C1_jointure_conserve_les_lignes.
    + vm_compute. reflexivity.
    + vm_compute. reflexivity.
    + vm_compute. reflexivity.
    + vm_compute. apply (bool_decide_unpack _). vm_compute. exact I.
    + vm_compute. apply (bool_decide_unpack _). vm_compute. exact I.
  - reflexivity.
Defined.

(** ** Loading *)

Lemma dict_get_set {V : Type} k k' (v : V) d :
  dict_get k' (dict_set k v d)
  = if String.eqb k k' then Some v else dict_get k' d.
Proof.
  destruct (String.eqb_spec k k') as [->|Hne].
  - apply dict_get_set_eq.
  - now apply dict_get_set_ne.
Qed.

Section Chargement_proprietes.

Variable relire : string -> DataFrame -> nat.

Lemma charger_tables_cons simulate table_name r items stats sortie p :
  charger_tables relire simulate ((table_name, r) :: items) stats sortie p
  = if simulate then
      match tas p !! r with
      | Some df =>
          let output_path :=
            String.append "data/processed/" (String.append table_name "_clean.csv") in
          charger_tables relire simulate items
            (dict_set table_name
               (Chargement.Build (len df) (len_columns df) output_path "OK") stats)
            (sortie ++
               [if Nat.eqb (len df) (relire output_path df)
                then Integrite_verifiee table_name (len df) (relire output_path df)
                else Integrite_erreur table_name (len df) (relire output_path df)])
            p
      | None => None
      end
    else charger_tables relire simulate items stats
           (sortie ++ [Connexion_requise table_name]) p.
Proof.
  destruct simulate; [|reflexivity]. destruct p as [h ds cd st].
  cbn [charger_tables]. deplier. destruct (h !! r); reflexivity.
Qed.

(** Whatever the storage returns, the recorded status is OK. *)
Lemma charger_tables_statut items stats0 sortie0 p res p' :
  charger_tables relire true items stats0 sortie0 p = Some (res, p') ->
  (forall k c, dict_get k stats0 = Some c -> Chargement.status c = "OK") ->
  forall k c, dict_get k (fst res) = Some c -> Chargement.status c = "OK".
Proof.
  revert stats0 sortie0. induction items as [|[name r] items IH];
    intros stats0 sortie0 H H0.
  - injection H as <- _. exact H0.
  - rewrite charger_tables_cons in H.
    destruct (tas p !! r) as [df|]; [|discriminate].
    eapply IH; [exact H |].
    intros k c. rewrite dict_get_set.
    destruct (String.eqb name k); [intros [= <-]; reflexivity | apply H0].
Qed.

(** A mismatch stops nothing: every table whose frame exists is written,
    gets an entry and a message. *)
Lemma charger_tables_toutes items stats0 sortie0 p :
  (forall k r, In (k, r) items -> is_Some (tas p !! r)) ->
  exists stats sortie,
    charger_tables relire true items stats0 sortie0 p = Some ((stats, sortie), p)
    /\ length sortie = (length sortie0 + length items)%nat
    /\ (forall k, is_Some (dict_get k stats0) -> is_Some (dict_get k stats))
    /\ (forall k r, In (k, r) items -> is_Some (dict_get k stats)).
Proof.
  revert stats0 sortie0. induction items as [|[name r] items IH];
    intros stats0 sortie0 Hh.
  - exists stats0, sortie0. simpl. repeat split; [lia | auto | tauto].
  - rewrite charger_tables_cons.
    destruct (Hh name r) as [df Hdf]; [now left |]. rewrite Hdf. cbv zeta.
    edestruct IH as (stats & sortie & Hrun & Hlen & Hmono & Hall);
      [intros k r' Hin; apply (Hh k r'); now right |].
    exists stats, sortie. split; [exact Hrun |]. split.
    { rewrite Hlen, length_app. simpl. lia. }
    split.
    + intros k Hk. apply Hmono. rewrite dict_get_set.
      destruct (String.eqb name k); eauto.
    + intros k r' [[= <- <-]|Hin]; [|eapply Hall, Hin].
      apply Hmono. rewrite dict_get_set_eq. eauto.
Qed.

End Chargement_proprietes.

(** C2, on a storage that loses the last row of every file: the loader
    prints an integrity error for each of the four tables and goes on to the
    next one, but the status it records for each of them is OK. *)
Theorem C2_statut_OK_malgre_l_erreur :
  exists d p1 r p2 stats sortie p3,
    nettoyer_donnees Exemple.analyse_date Exemple.pipeline_ordinaire = Some (d, p1)
    /\ agréger_données p1 = Some (r, p2)
    /\ charger_donnees Exemple.stockage_tronque true p2 = Some ((stats, sortie), p3)
    /\ sortie = [Integrite_erreur "transactions" 2 1;
                 Integrite_erreur "clients" 2 1;
                 Integrite_erreur "logs" 2 1;
                 Integrite_erreur "dataset_final" 2 1]
    /\ map (fun kc => (fst kc, Chargement.status (snd kc))) stats
       = [("transactions", "OK"); ("clients", "OK"); ("logs", "OK");
          ("dataset_final", "OK")].
Proof.
  eexists _, _, _, _, _, _, _.
  split; [vm_compute; reflexivity |].
  split; [vm_compute; reflexivity |].
  split; [vm_compute; reflexivity |].
  split; vm_compute; reflexivity.
Qed.

(** On the sample, with a storage that returns what was written, the four
    tables are verified. *)
Example chargement_fidele :
  exists d p1 r p2 stats p3,
    nettoyer_donnees Exemple.analyse_date Exemple.pipeline_ordinaire = Some (d, p1)
    /\ agréger_données p1 = Some (r, p2)
    /\ charger_donnees Exemple.stockage_fidele true p2
       = Some ((stats,
                [Integrite_verifiee "transactions" 2 2;
                 Integrite_verifiee "clients" 2 2;
                 Integrite_verifiee "logs" 2 2;
                 Integrite_verifiee "dataset_final" 2 2]), p3).
Proof.
  eexists _, _, _, _, _, _.
  split; [vm_compute; reflexivity |].
  split; vm_compute; reflexivity.
Qed.

(** ** Generation *)

Lemma length_drop_duplicates_depuis {R K : Type} `{EqDecision K}
    (cle : R -> K) vus df :
  (length (drop_duplicates_depuis cle vus df) <= length df)%nat.
Proof.
  revert vus. induction df as [|r df IH]; intros vus; simpl; [lia |].
  destruct (decide (cle r ∈ vus)); simpl.
  - specialize (IH vus). lia.
  - specialize (IH (cle r :: vus)). lia.
Qed.


Lemma length_pour {G I A : Type} (indices : list I) (corps : I -> Gen G A) w :
  length (fst (pour G indices corps w)) = length indices.
Proof.
  revert w. induction indices as [|i indices IH]; intros w; [reflexivity |].
  simpl. unfold mbind, mret, Gen_bind, Gen_ret.
  destruct (corps i w) as [x w1]. specialize (IH w1).
  destruct (pour G indices corps w1) as [xs w2]. simpl in *. now rewrite IH.
Qed.

Section Deux_horloges.

Variable G : Type.
Variable graine : Z -> G.
Variable random_random : G -> Q * G.
Variable randbelow : Z -> G -> Z * G.
Variable round_ : Q -> Z -> Q.
Variable isoformat : Z -> string.
Variable fake_city : G -> string * G.
Variable fake_postcode : G -> string * G.
Variable fake_ipv4 : G -> string * G.
Variable horloge1 horloge2 : nat -> Z.

Lemma locale_ret {A : Type} (a : A) :
  locale horloge1 horloge2 0 (@mret (Gen G) (Gen_ret G) A a)
    (@mret (Gen G) (Gen_ret G) A a).
Proof. intros w. split; [simpl; lia | reflexivity]. Qed.

Lemma locale_mono {A : Type} k k' (m1 m2 : Gen G A) :
  locale horloge1 horloge2 k m1 m2 -> (k <= k')%nat ->
  locale horloge1 horloge2 k' m1 m2.
Proof.
  intros H Hk w. destruct (H w) as [Hb He]. split; [lia | exact He].
Qed.

Lemma locale_bind {A B : Type} k1 k2 (m1 m2 : Gen G A) (f1 f2 : A -> Gen G B) :
  locale horloge1 horloge2 k1 m1 m2 ->
  (forall a, locale horloge1 horloge2 k2 (f1 a) (f2 a)) ->
  locale horloge1 horloge2 (k1 + k2)
    (@mbind (Gen G) (Gen_bind G) A B f1 m1)
    (@mbind (Gen G) (Gen_bind G) A B f2 m2).
Proof.
  intros H1 H2 w. unfold mbind, Gen_bind.
  destruct (H1 w) as [Hb1 He1]. destruct (m1 w) as [a w1]. simpl in *.
  destruct (H2 a w1) as [Hb2 He2]. split; [lia |].
  intros Hag. rewrite He1 by (intros i Hi; apply Hag; lia).
  apply He2. intros i Hi. apply Hag. lia.
Qed.

Lemma locale_bind_avec {A B : Type} (P : A -> Prop) k1 k2 (m1 m2 : Gen G A)
    (f1 f2 : A -> Gen G B) :
  apres m1 P ->
  locale horloge1 horloge2 k1 m1 m2 ->
  (forall a, P a -> locale horloge1 horloge2 k2 (f1 a) (f2 a)) ->
  locale horloge1 horloge2 (k1 + k2)
    (@mbind (Gen G) (Gen_bind G) A B f1 m1)
    (@mbind (Gen G) (Gen_bind G) A B f2 m2).
Proof.
  intros HP H1 H2 w. unfold mbind, Gen_bind.
  destruct (H1 w) as [Hb1 He1]. specialize (HP w).
  destruct (m1 w) as [a w1]. simpl in *.
  destruct (H2 a HP w1) as [Hb2 He2]. split; [lia |].
  intros Hag. rewrite He1 by (intros i Hi; apply Hag; lia).
  apply He2. intros i Hi. apply Hag. lia.
Qed.

Lemma locale_si {A : Type} (b : bool) k k' (m1 m2 m1' m2' : Gen G A) :
  locale horloge1 horloge2 k m1 m2 ->
  locale horloge1 horloge2 k' m1' m2' ->
  locale horloge1 horloge2 (Nat.max k k')
    (if b then m1 else m1') (if b then m2 else m2').
Proof.
  intros H H'. destruct b; (eapply locale_mono; [eassumption | lia]).
Qed.

(** The draws do not look at the clock. *)
Lemma locale_random :
  locale horloge1 horloge2 0 (random_ G random_random) (random_ G random_random).
Proof.
  intros w. unfold random_. destruct (random_random (py G w)).
  split; [simpl; lia | reflexivity].
Qed.

Lemma locale_py_randbelow n :
  locale horloge1 horloge2 0 (py_randbelow G randbelow n)
    (py_randbelow G randbelow n).
Proof.
  intros w. unfold py_randbelow. destruct (randbelow n (py G w)).
  split; [simpl; lia | reflexivity].
Qed.

Lemma locale_faker {A : Type} (f : G -> A * G) :
  locale horloge1 horloge2 0 (faker G f) (faker G f).
Proof.
  intros w. unfold faker. destruct (f (fk G w)).
  split; [simpl; lia | reflexivity].
Qed.

(** One reading. *)
Lemma locale_now : locale horloge1 horloge2 1 (now G horloge1) (now G horloge2).
Proof.
  intros w. unfold now. split; [simpl; lia |].
  intros H. simpl in H. rewrite (H (lectures G w)) by lia. reflexivity.
Qed.

Lemma locale_pour {I A : Type} k (indices : list I) (c1 c2 : I -> Gen G A) :
  (forall i, locale horloge1 horloge2 k (c1 i) (c2 i)) ->
  locale horloge1 horloge2 (length indices * k)
    (pour G indices c1) (pour G indices c2).
Proof.
  intros H. induction indices as [|i indices IH]; [apply locale_ret |].
  cbn [pour length Nat.mul].
  apply locale_bind; [apply H |]. intros x.
  eapply locale_mono;
    [apply locale_bind; [exact IH | intros xs; apply locale_ret] | lia].
Qed.

Ltac localiser :=
  repeat first
    [ apply locale_ret
    | apply locale_random
    | apply locale_py_randbelow
    | apply locale_faker
    | apply locale_now
    | apply locale_si
    | (eapply locale_bind; [|intros ?]) ].

Lemma locale_generer_transaction i :
  locale horloge1 horloge2 2
    (generer_transaction G random_random randbelow round_ isoformat fake_city
       horloge1 i)
    (generer_transaction G random_random randbelow round_ isoformat fake_city
       horloge2 i).
Proof.
  unfold generer_transaction, uniform, randint, choice, date_time_between,
    fk_randint.
  eapply locale_mono; [localiser | simpl; lia].
Qed.

Lemma locale_generer_client c :
  locale horloge1 horloge2 2
    (generer_client G random_random randbelow fake_postcode horloge1 c)
    (generer_client G random_random randbelow fake_postcode horloge2 c).
Proof.
  unfold generer_client, uniform, randint, choice, date_between, fk_randint.
  eapply locale_mono; [localiser | simpl; lia].
Qed.

Lemma locale_generer_log cu i :
  locale horloge1 horloge2 2
    (generer_log G randbelow isoformat fake_ipv4 horloge1 cu i)
    (generer_log G randbelow isoformat fake_ipv4 horloge2 cu i).
Proof.
  unfold generer_log, uniform, randint, choice, date_time_between, fk_randint.
  eapply locale_mono; [localiser | simpl; lia].
Qed.

(** A run reads the clock at most 14 times per transaction: twice for each
    transaction, at most twice for each client, twice for each of the five
    logs. *)
Lemma locale_generer_donnees_test nb_transactions :
  locale horloge1 horloge2 (14 * nb_transactions)
    (generer_donnees_test G random_random randbelow round_ isoformat fake_city
       fake_postcode fake_ipv4 horloge1 nb_transactions)
    (generer_donnees_test G random_random randbelow round_ isoformat fake_city
       fake_postcode fake_ipv4 horloge2 nb_transactions).
Proof.
  unfold generer_donnees_test.
  eapply locale_mono;
    [apply (locale_bind_avec (fun lt => length lt = nb_transactions)
              (length (seq 0 nb_transactions) * 2)
              (12 * nb_transactions)) |].
  - intros w. rewrite length_pour. apply length_seq.
  - apply locale_pour, locale_generer_transaction.
  - intros lt Hlt. destruct lt as [|r lt];
      [eapply locale_mono; [apply locale_ret | lia] |].
    cbv zeta. set (cu := unique (map Transaction.client_id (r :: lt))).
    assert (Hcu : (length cu <= nb_transactions)%nat).
    { unfold cu, unique, drop_duplicates.
      etransitivity; [apply length_drop_duplicates_depuis |].
      now rewrite length_map, Hlt. }
    eapply locale_mono.
    + apply locale_bind; [apply locale_pour, locale_generer_client |].
      intros lc.
      apply locale_bind; [apply locale_pour, locale_generer_log |].
      intros ll. apply locale_ret.
    + rewrite length_seq. lia.
  - rewrite length_seq. lia.
Qed.

End Deux_horloges.

(** C5, as the code has it: the generator is a function of the seed, of the
    number of transactions and of the readings of the clock, and it reads
    the clock at most 14 times per transaction (twice for each timestamp of
    a transaction, of a log and of a last fraud).  Two runs with the same
    seed and the same number of transactions whose clocks agree on these
    readings produce the same result: the same three collections, or the
    same exception. *)
Theorem C5_deterministe_a_horloge_egale
    (G : Type) (graine : Z -> G) (random_random : G -> Q * G)
    (randbelow : Z -> G -> Z * G) (round_ : Q -> Z -> Q)
    (isoformat : Z -> string) (fake_city fake_postcode fake_ipv4 : G -> string * G)
    (horloge1 horloge2 : nat -> Z) (nb_transactions : nat) :
  (forall i, (i < 14 * nb_transactions)%nat -> horloge1 i = horloge2 i) ->
  executer G graine random_random randbelow round_ isoformat fake_city
    fake_postcode fake_ipv4 horloge1 nb_transactions
  = executer G graine random_random randbelow round_ isoformat fake_city
      fake_postcode fake_ipv4 horloge2 nb_transactions.
Proof.
  intros H. unfold executer.
  destruct (locale_generer_donnees_test G random_random randbelow round_
              isoformat fake_city fake_postcode fake_ipv4 horloge1 horloge2
              nb_transactions (monde_initial G graine)) as [Hb He].
  rewrite He; [reflexivity |].
  intros i Hi. apply H. simpl in Hb. lia.
Qed.

Lemma C5_deterministe_a_horloge_egale_temoin :
  Exemple.horloge_lundi 42 <> Exemple.horloge_lundi_puis_mardi 42
  /\ Exemple.lancer Exemple.horloge_lundi 3
     = Exemple.lancer Exemple.horloge_lundi_puis_mardi 3.
Proof.
  split; [discriminate |].
  apply C5_deterministe_a_horloge_egale.
  intros i Hi. unfold Exemple.horloge_lundi, Exemple.horloge_lundi_puis_mardi.
  destruct (Nat.ltb_spec i 42) as [_|Hge]; [reflexivity | lia].
Defined.

(** C5 as stated fails: with the same seed and one transaction, a run on
    Monday and a run on Tuesday write different timestamps. *)
Lemma C5_contre_exemple :
  Exemple.lancer Exemple.horloge_lundi 1 <> Exemple.lancer Exemple.horloge_mardi 1.
Proof.
  intros H.
  apply (f_equal (fun x => map Transaction.date_heure
                             (default [] (fst <$> (fst <$> x))))) in H.
  vm_compute in H. discriminate.
Qed.

(** * Further properties *)

(** ** Rows kept by the cleaning of the transactions *)

Lemma find_map_ligne {A B : Type} (F : A -> B) (P : B -> bool) (l : list A) :
  List.find P (map F l) = F <$> List.find (fun x => P (F x)) l.
Proof.
  induction l as [|x l IH]; simpl; [reflexivity |].
  destruct (P (F x)); [reflexivity | exact IH].
Qed.

Lemma find_ext_ligne {A : Type} (P Q : A -> bool) (l : list A) :
  (forall x, P x = Q x) -> List.find P l = List.find Q l.
Proof.
  intros H. induction l as [|x l IH]; simpl; [reflexivity |].
  rewrite H, IH. reflexivity.
Qed.

Section Premiere_occurrence.

Context {R K : Type} `{EqDecision K} (cle : R -> K).

(** A row kept by [drop_duplicates] is the first one with its key. *)
Lemma drop_duplicates_depuis_find vus df r :
  In r (drop_duplicates_depuis cle vus df) ->
  List.find (fun x => bool_decide (cle x = cle r)) df = Some r.
Proof.
  revert vus. induction df as [|x df IH]; simpl; intros vus; [tauto |].
  destruct (decide (cle x ∈ vus)) as [Hx|Hx].
  - intros Hr. pose proof (drop_duplicates_depuis_hors cle vus df r Hr) as Hv.
    rewrite bool_decide_eq_false_2 by (intros E; rewrite E in Hx; contradiction).
    eapply IH, Hr.
  - intros [->|Hr]; [now rewrite bool_decide_eq_true_2 |].
    pose proof (drop_duplicates_depuis_hors cle _ df r Hr) as Hv.
    rewrite bool_decide_eq_false_2.
    + eapply IH, Hr.
    + intros E. apply Hv. rewrite E. now left.
Qed.

(** The first row with a key not seen before is kept. *)
Lemma find_drop_duplicates_depuis vus df k r :
  k ∉ vus ->
  List.find (fun x => bool_decide (cle x = k)) df = Some r ->
  In r (drop_duplicates_depuis cle vus df).
Proof.
  revert vus. induction df as [|x df IH]; simpl; intros vus Hk; [discriminate |].
  destruct (bool_decide (cle x = k)) eqn:E.
  - apply bool_decide_eq_true in E. intros [= <-].
    destruct (decide (cle x ∈ vus)) as [Hx|Hx]; [|now left].
    rewrite E in Hx. contradiction.
  - apply bool_decide_eq_false in E. intros Hf.
    destruct (decide (cle x ∈ vus)) as [Hx|Hx].
    + apply IH; assumption.
    + right. apply IH; [|exact Hf].
      intros Hin. apply elem_of_cons in Hin as [Heq|Hin]; [congruence | contradiction].
Qed.

End Premiere_occurrence.

(** Every key of the frame is still there after [drop_duplicates]. *)
Lemma drop_duplicates_depuis_couvre {R K : Type} `{EqDecision K} (cle : R -> K)
    vus df r :
  In r df ->
  cle r ∈ vus \/ In (cle r) (map cle (drop_duplicates_depuis cle vus df)).
Proof.
  revert vus. induction df as [|x df IH]; simpl; intros vus; [tauto |].
  intros [->|Hr].
  - destruct (decide (cle r ∈ vus)); [now left | right; now left].
  - destruct (decide (cle x ∈ vus)) as [Hx|Hx]; [now apply IH |].
    destruct (IH (cle x :: vus) Hr) as [Hv|Hin].
    + apply elem_of_cons in Hv as [->|Hv]; [right; now left | now left].
    + right. now right.
Qed.

Lemma nettoyees_premiere a l l' :
  transactions_nettoyees a l = Some l' ->
  Forall (fun r' =>
            exists r, premiere_de (Transaction.transaction_id r') l = Some r
                      /\ Transaction.montant r' = Transaction.montant r
                      /\ cell_ge (Transaction.montant r) 0 = true)
         l'
  /\ forall id r,
       premiere_de id l = Some r ->
       cell_ge (Transaction.montant r) 0 = true ->
       exists r', In r' l'
                  /\ Transaction.transaction_id r' = id
                  /\ Transaction.montant r' = Transaction.montant r.
Proof.
  intros H. unfold transactions_nettoyees in H.
  pose proof (to_datetime_lignes _ _ _ _ _ H) as H2.
  destruct (imputees_par_ligne l) as (F & HF & HFr).
  split.
  - apply List.Forall_forall. intros r' Hr'.
    apply list_elem_of_In, list_elem_of_lookup in Hr' as [i Hi].
    destruct (Forall2_lookup_r _ _ _ _ _ H2 Hi) as (rf & Hrf & c & _ & ->).
    apply list_elem_of_lookup_2, list_elem_of_In in Hrf.
    unfold transactions_filtrees in Hrf. apply filter_In in Hrf as [Hrf Hge].
    apply drop_duplicates_depuis_find in Hrf.
    rewrite HF, find_map_ligne in Hrf.
    destruct (List.find _ l) as [r0|] eqn:E0; [|discriminate].
    injection Hrf as <-. exists r0. cbn [Transaction.transaction_id
      Transaction.montant Transaction.set_date_heure]. split; [|split].
    + unfold premiere_de. rewrite <- E0. apply find_ext_ligne.
      intros x. now destruct (HFr x) as (-> & _).
    + now destruct (HFr r0) as (_ & -> & _).
    + destruct (HFr r0) as (_ & <- & _). exact Hge.
  - intros id r Hf Hm. unfold premiere_de in Hf.
    assert (Hin : In (F r) (transactions_filtrees l)).
    { unfold transactions_filtrees. apply filter_In. split.
      - apply (find_drop_duplicates_depuis Transaction.transaction_id [] _ id);
          [apply not_elem_of_nil |].
        rewrite HF, find_map_ligne.
        rewrite (find_ext_ligne _ (fun x => bool_decide (Transaction.transaction_id x = id)));
          [now rewrite Hf |].
        intros x. now destruct (HFr x) as (-> & _).
      - now destruct (HFr r) as (_ & -> & _). }
    apply list_elem_of_In, list_elem_of_lookup in Hin as [i Hi].
    destruct (Forall2_lookup_l _ _ _ _ _ H2 Hi) as (r' & Hr' & c & _ & ->).
    exists (Transaction.set_date_heure c (F r)). split.
    + eapply list_elem_of_In, list_elem_of_lookup_2, Hr'.
    + apply find_some in Hf as [_ Hid]. apply bool_decide_eq_true in Hid.
      destruct (HFr r) as (Hi1 & Hi2 & _).
      cbn [Transaction.transaction_id Transaction.montant
           Transaction.set_date_heure].
      split; congruence.
Qed.

(** X1: after cleaning, every transaction identifier occurs once, and the
    row kept for an identifier is the first source row that carries it: an
    identifier is in the cleaned table exactly when the amount of its first
    row is present and not negative (later duplicates are never looked at),
    and the cleaned row has the amount of that first row. *)
Theorem X1_premiere_occurrence_gardee a p d p' lt lt' :
  nettoyer_donnees a p = Some (d, p') ->
  contenu (data_sources p) p "transactions" = Some (DfTransactions lt) ->
  contenu (cleaned_data p') p' "transactions" = Some (DfTransactions lt') ->
  NoDup (map Transaction.transaction_id lt')
  /\ (forall id,
        In id (map Transaction.transaction_id lt')
        <-> exists r, premiere_de id lt = Some r
                      /\ cell_ge (Transaction.montant r) 0 = true)
  /\ Forall (fun r' =>
               exists r, premiere_de (Transaction.transaction_id r') lt = Some r
                         /\ Transaction.montant r' = Transaction.montant r)
            lt'.
Proof.
  intros H Hsrc Hcl.
  apply nettoyer_donnees_Some in H as (_ & lt0 & lc & ll & lt0' & ll' & Hrun).
  destruct Hrun as (Ht & _ & _ & Hn & _ & _ & Hct & _).
  assert (lt0 = lt) as -> by congruence.
  assert (lt0' = lt') as -> by congruence.
  pose proof (transactions_nettoyees_propres a lt lt' Hn)
    as (_ & _ & _ & _ & Hnd & _).
  destruct (nettoyees_premiere a lt lt' Hn) as [Hfirst Hkept].
  split; [exact Hnd |]. split.
  - intros id. split.
    + intros Hid. apply in_map_iff in Hid as (r' & <- & Hr').
      destruct (proj1 (List.Forall_forall _ _) Hfirst r' Hr')
        as (r & Hr & _ & Hge).
      eauto.
    + intros (r & Hr & Hge).
      destruct (Hkept id r Hr Hge) as (r' & Hr' & <- & _).
      now apply in_map.
  - eapply Forall_impl; [exact Hfirst |].
    intros r' (r & Hr & Hm & _). eauto.
Qed.

Lemma X1_premiere_occurrence_gardee_temoin :
  exists d p' lt',
    nettoyer_donnees Exemple.analyse_date Exemple.pipeline_ordinaire = Some (d, p')
    /\ contenu (cleaned_data p') p' "transactions" = Some (DfTransactions lt')
    /\ NoDup (map Transaction.transaction_id lt')
    /\ (forall id,
          In id (map Transaction.transaction_id lt')
          <-> exists r, premiere_de id Exemple.transactions_ordinaires = Some r
                        /\ cell_ge (Transaction.montant r) 0 = true)
    /\ Forall (fun r' =>
                 exists r, premiere_de (Transaction.transaction_id r')
                             Exemple.transactions_ordinaires = Some r
                           /\ Transaction.montant r' = Transaction.montant r)
              lt'.
Proof.
  eexists _, _, _. split; [vm_compute; reflexivity |].
  split; [vm_compute; reflexivity |].
  eapply (X1_premiere_occurrence_gardee Exemple.analyse_date
            Exemple.pipeline_ordinaire);
    vm_compute; reflexivity.
Defined.

(** ** The median stays within the observed values *)

Lemma inserer_q_In x y l : In y (inserer_q x l) -> y = x \/ In y l.
Proof.
  induction l as [|z l IH]; simpl.
  - intros [<-|[]]. now left.
  - destruct (Qle_bool x z); simpl.
    + intros [<-|[<-|H]]; auto.
    + intros [<-|H]; auto. apply IH in H as [->|H]; auto.
Qed.

Lemma trier_q_In y l : In y (trier_q l) -> In y l.
Proof.
  induction l as [|x l IH]; [tauto |].
  unfold trier_q in *. simpl. intros H.
  apply inserer_q_In in H as [->|H]; [now left | right; now apply IH].
Qed.

Lemma moitie (x : Q) : (x / (2 # 1) == x * (1 # 2))%Q.
Proof. unfold Qdiv. reflexivity. Qed.

(** The median lies between any two bounds of the values of the column. *)
Lemma median_borne lo hi col m :
  Forall (dans_bornes lo hi) col ->
  median col = Some m ->
  (lo <= m)%Q /\ (m <= hi)%Q.
Proof.
  intros Hb.
  assert (Hin : forall x, In x (trier_q (dropna col)) -> (lo <= x)%Q /\ (x <= hi)%Q).
  { intros x Hx. apply trier_q_In, dropna_In in Hx.
    apply (proj1 (List.Forall_forall _ _) Hb) in Hx. exact Hx. }
  unfold median.
  destruct (Nat.eqb _ 0); [discriminate |].
  destruct (Nat.odd _).
  - intros Hm. apply Hin. eapply list_elem_of_In, list_elem_of_lookup_2, Hm.
  - destruct (trier_q (dropna col) !! _) as [x|] eqn:Ex; [|discriminate].
    destruct (trier_q (dropna col) !! (_ / 2)%nat) as [y|] eqn:Ey; [|discriminate].
    intros [= <-].
    apply list_elem_of_lookup_2, list_elem_of_In, Hin in Ex.
    apply list_elem_of_lookup_2, list_elem_of_In, Hin in Ey.
    rewrite moitie. split; lra.
Qed.

Lemma fillna_median_bornes {R : Type} (get : R -> option Q)
    (set : option Q -> R -> R) lo hi df :
  (forall v r, get (set v r) = v) ->
  Forall (fun r => dans_bornes lo hi (get r)) df ->
  Forall (fun r => dans_bornes lo hi (get r))
    (fillna get set (median (map get df)) df).
Proof.
  intros get_set Hb.
  assert (Hcol : Forall (dans_bornes lo hi) (map get df))
    by (apply (proj2 (List.Forall_map get (dans_bornes lo hi) df)), Hb).
  assert (Hm : dans_bornes lo hi (median (map get df))).
  { destruct (median (map get df)) as [m|] eqn:E; [|exact I].
    simpl. eapply median_borne; eassumption. }
  unfold fillna. apply List.Forall_forall. intros r' Hr'.
  apply in_map_iff in Hr' as (r & <- & Hr).
  apply (proj1 (List.Forall_forall _ _) Hb) in Hr.
  destruct (get r) eqn:E; [now rewrite E | now rewrite get_set].
Qed.

(** X3: the credit scores of the cleaned client table lie within any bounds
    that hold of the scores present in the source: the imputed value is the
    middle value (or the mean of the two middle values) of the present
    scores, so scores between 300 and 850 stay between 300 and 850. *)
Theorem X3_score_dans_les_bornes a p d p' lc lc' lo hi :
  nettoyer_donnees a p = Some (d, p') ->
  contenu (data_sources p) p "clients" = Some (DfClients lc) ->
  contenu (cleaned_data p') p' "clients" = Some (DfClients lc') ->
  Forall (fun r => dans_bornes lo hi (Client.score_credit r)) lc ->
  Forall (fun r => dans_bornes lo hi (Client.score_credit r)) lc'.
Proof.
  intros H Hsrc Hcl Hb.
  apply nettoyer_donnees_Some in H as (_ & lt & lc0 & ll & lt' & ll' & Hrun).
  destruct Hrun as (_ & Hc & _ & _ & _ & _ & _ & Hcc & _).
  assert (lc0 = lc) as -> by congruence.
  assert (lc' = clients_nettoyes lc) as -> by congruence.
  apply fillna_median_bornes; [intros v []; reflexivity | exact Hb].
Qed.

Lemma X3_score_dans_les_bornes_temoin :
  exists d p' lc',
    nettoyer_donnees Exemple.analyse_date Exemple.pipeline_ordinaire = Some (d, p')
    /\ contenu (cleaned_data p') p' "clients" = Some (DfClients lc')
    /\ Forall (fun r => dans_bornes (300 # 1) (850 # 1) (Client.score_credit r)) lc'.
Proof.
  eexists _, _, _. split; [vm_compute; reflexivity |].
  split; [vm_compute; reflexivity |].
  eapply (X3_score_dans_les_bornes Exemple.analyse_date Exemple.pipeline_ordinaire);
    [vm_compute; reflexivity | vm_compute; reflexivity | vm_compute; reflexivity |].
  repeat constructor; vm_compute; discriminate.
Defined.

(** ** The table of missing values of the quality report *)

Lemma compter_manquantes_hors {R : Type} (isna_de : R -> list bool) df i cols acc c :
  ~ In c cols ->
  dict_get c (compter_manquantes isna_de df i cols acc) = dict_get c acc.
Proof.
  revert i acc. induction cols as [|col cols IH]; intros i acc Hc; [reflexivity |].
  simpl. rewrite IH by (intros Hin; apply Hc; now right).
  destruct (Nat.ltb 0 _); [|reflexivity].
  apply dict_get_set_ne. intros ->. apply Hc. now left.
Qed.

Lemma compter_manquantes_get {R : Type} (isna_de : R -> list bool) df i cols acc j c :
  NoDup cols ->
  cols !! j = Some c ->
  dict_get c (compter_manquantes isna_de df i cols acc)
  = let n := mask_sum (fun r => default false (isna_de r !! (i + j)%nat)) df in
    if Nat.ltb 0 n then Some n else dict_get c acc.
Proof.
  revert i acc j. induction cols as [|col cols IH]; intros i acc j Hnd Hj.
  - destruct j; discriminate.
  - inversion Hnd as [|? ? Hcol Hnd']; subst. destruct j as [|j]; simpl in Hj.
    + injection Hj as ->. simpl.
      rewrite compter_manquantes_hors
        by (intros Hin; apply Hcol, list_elem_of_In, Hin).
      rewrite Nat.add_0_r. destruct (Nat.ltb 0 _); [apply dict_get_set_eq | reflexivity].
    + simpl. rewrite (IH (S i) _ j Hnd' Hj).
      replace (S i + j)%nat with (i + S j)%nat by lia.
      cbv zeta.
      destruct (Nat.ltb 0 (mask_sum (fun r => default false
                                       (isna_de r !! (i + S j)%nat)) df));
        [reflexivity |].
      destruct (Nat.ltb 0 _); [|reflexivity].
      apply dict_get_set_ne. intros ->. apply Hcol.
      eapply list_elem_of_lookup_2, Hj.
Qed.

(** X5: the quality report lists a column in [valeurs_manquantes] exactly
    when the column has a missing cell, with the number of its missing
    cells; a column without missing cell has no entry. *)
Theorem X5_valeurs_manquantes {R : Type} `{Schema R} (df : list R)
    (nom_source : string) (j : nat) (c : string) :
  NoDup (colonnes (R := R)) ->
  colonnes (R := R) !! j = Some c ->
  dict_get c (valeurs_manquantes (analyser_qualite_donnees df nom_source))
  = let n := mask_sum (fun r => default false (ligne_isna r !! j)) df in
    if Nat.ltb 0 n then Some n else None.
Proof.
  intros Hnd Hj. unfold analyser_qualite_donnees. simpl.
  rewrite (compter_manquantes_get _ _ _ _ _ j c Hnd Hj). reflexivity.
Qed.

Lemma X5_valeurs_manquantes_temoin :
  dict_get "ville"
    (valeurs_manquantes
       (analyser_qualite_donnees Exemple.transactions_ordinaires "transactions"))
  = Some 2%nat
  /\ dict_get "canal"
       (valeurs_manquantes
          (analyser_qualite_donnees Exemple.transactions_ordinaires "transactions"))
     = None.
Proof.
  split.
  - rewrite (X5_valeurs_manquantes Exemple.transactions_ordinaires
               "transactions" 10 "ville");
      [reflexivity | apply (bool_decide_unpack _); vm_compute; exact I | reflexivity].
  - rewrite (X5_valeurs_manquantes Exemple.transactions_ordinaires
               "transactions" 13 "canal");
      [reflexivity | apply (bool_decide_unpack _); vm_compute; exact I | reflexivity].
Defined.

Lemma colonnes_transaction_NoDup : NoDup Transaction.columns.
Proof. apply (bool_decide_unpack _). vm_compute. exact I. Qed.

Lemma manquantes_colonne_complete (df : list Transaction.t) nom_source j c
    (get : Transaction.t -> bool) :
  Transaction.columns !! j = Some c ->
  (forall r, default false (Transaction.isna_ligne r !! j) = get r) ->
  Forall (fun r => get r = false) df ->
  dict_get c (valeurs_manquantes (analyser_qualite_donnees df nom_source)) = None.
Proof.
  intros Hj Hget Hall.
  change (valeurs_manquantes (analyser_qualite_donnees df nom_source))
    with (compter_manquantes Transaction.isna_ligne df 0 Transaction.columns []).
  rewrite (compter_manquantes_get _ _ _ _ _ j c colonnes_transaction_NoDup Hj).
  cbv zeta. replace (mask_sum _ df) with 0%nat; [reflexivity |].
  symmetry. unfold mask_sum. induction df as [|r df IH]; [reflexivity |].
  inversion Hall as [|? ? Hr Hdf]; subst. simpl.
  rewrite Hget, Hr. apply IH, Hdf.
Qed.

(** X2: after cleaning, the city and the merchant category of the
    transactions have no missing cell, whatever the source, and the report
    computed after cleaning lists neither column; the latitude (the
    longitude) has no missing cell as soon as the source column holds one
    value. *)
Theorem X2_ville_et_categorie_completes a p d p' lt lt' avant apres :
  nettoyer_donnees a p = Some (d, p') ->
  contenu (data_sources p) p "transactions" = Some (DfTransactions lt) ->
  contenu (cleaned_data p') p' "transactions" = Some (DfTransactions lt') ->
  dict_get "transactions" (stats_nettoyage p') = Some (avant, apres) ->
  isna_sum (map Transaction.ville lt') = 0%nat
  /\ isna_sum (map Transaction.merchant_category lt') = 0%nat
  /\ dict_get "ville" (valeurs_manquantes apres) = None
  /\ dict_get "merchant_category" (valeurs_manquantes apres) = None
  /\ (dropna (map Transaction.latitude lt) <> [] ->
      isna_sum (map Transaction.latitude lt') = 0%nat)
  /\ (dropna (map Transaction.longitude lt) <> [] ->
      isna_sum (map Transaction.longitude lt') = 0%nat).
Proof.
  intros H Hsrc Hcl Hst.
  apply nettoyer_donnees_Some in H as (_ & lt0 & lc & ll & lt0' & ll' & Hrun).
  destruct Hrun as (Ht & _ & _ & Hn & _ & _ & Hct & _ & _ & Hs & _).
  assert (lt0 = lt) as -> by congruence.
  assert (lt0' = lt') as -> by congruence.
  assert (apres = analyser_qualite_donnees lt' "transactions") as -> by congruence.
  pose proof (imputation_complete a lt lt' Hn) as (Hv & Hm & Hlat & Hlon).
  pose proof (transactions_nettoyees_propres a lt lt' Hn)
    as (_ & _ & Hcv & Hcm & _).
  repeat split; try assumption.
  - apply (manquantes_colonne_complete lt' _ 10 "ville"
             (fun r => isna (Transaction.ville r))); [reflexivity | reflexivity |].
    eapply Forall_impl; [exact Hcv |]. simpl. intros r Hr.
    destruct (Transaction.ville r); [reflexivity | contradiction].
  - apply (manquantes_colonne_complete lt' _ 8 "merchant_category"
             (fun r => isna (Transaction.merchant_category r)));
      [reflexivity | reflexivity |].
    eapply Forall_impl; [exact Hcm |]. simpl. intros r Hr.
    destruct (Transaction.merchant_category r); [reflexivity | contradiction].
Qed.

Lemma X2_ville_et_categorie_completes_temoin :
  exists d p' lt' avant apres,
    nettoyer_donnees Exemple.analyse_date Exemple.pipeline_ordinaire = Some (d, p')
    /\ contenu (cleaned_data p') p' "transactions" = Some (DfTransactions lt')
    /\ dict_get "transactions" (stats_nettoyage p') = Some (avant, apres)
    /\ isna_sum (map Transaction.ville lt') = 0%nat
    /\ isna_sum (map Transaction.merchant_category lt') = 0%nat
    /\ dict_get "ville" (valeurs_manquantes apres) = None
    /\ dict_get "merchant_category" (valeurs_manquantes apres) = None
    /\ (dropna (map Transaction.latitude Exemple.transactions_ordinaires) <> [] ->
        isna_sum (map Transaction.latitude lt') = 0%nat)
    /\ (dropna (map Transaction.longitude Exemple.transactions_ordinaires) <> [] ->
        isna_sum (map Transaction.longitude lt') = 0%nat).
Proof.
  eexists _, _, _, _, _. split; [vm_compute; reflexivity |].
  split; [vm_compute; reflexivity |].
  split; [vm_compute; reflexivity |].
  eapply (X2_ville_et_categorie_completes Exemple.analyse_date
            Exemple.pipeline_ordinaire);
    vm_compute; reflexivity.
Defined.

(** ** What the cleaning keeps of the numeric columns *)

Lemma nettoyees_colonne_Forall a l l' {B : Type} (g : Transaction.t -> B)
    (P : B -> Prop) :
  transactions_nettoyees a l = Some l' ->
  (forall w r, g (Transaction.set_date_heure w r) = g r) ->
  Forall (fun r => P (g r)) (transactions_imputees l) ->
  Forall (fun r => P (g r)) l'.
Proof.
  intros H Hg HP. eapply Forall_meme_colonne.
  - eapply to_datetime_autre; [exact Hg | exact H].
  - eapply Forall_sous_ensemble; [apply filtrees_incl | exact HP].
Qed.

Lemma mask_sum_0 {R : Type} (cond : R -> bool) (df : list R) :
  Forall (fun r => cond r = false) df -> mask_sum cond df = 0%nat.
Proof.
  unfold mask_sum. induction df as [|r df IH]; intros H; [reflexivity |].
  inversion H as [|? ? Hr Hdf]; subst. simpl. rewrite Hr. apply IH, Hdf.
Qed.

Lemma length_nettoyees a l l' :
  transactions_nettoyees a l = Some l' -> (length l' <= length l)%nat.
Proof.
  intros H. unfold transactions_nettoyees in H.
  apply to_datetime_lignes, Forall2_length in H. rewrite <- H.
  unfold transactions_filtrees.
  pose proof (List.filter_length_le
                (fun r => cell_ge (Transaction.montant r) 0)
                (drop_duplicates Transaction.transaction_id (transactions_imputees l))).
  pose proof (length_drop_duplicates_depuis Transaction.transaction_id []
                (transactions_imputees l)).
  unfold drop_duplicates in *. rewrite length_imputees in *. lia.
Qed.

(** X4: when every latitude present in the source lies between two bounds,
    so does every latitude of the cleaned table (the imputed value is a
    median of present values), and likewise for the longitude; with
    latitudes between -90 and 90 in the source, the report computed after
    cleaning counts no invalid coordinate. *)
Theorem X4_coordonnees_restent_valides a p d p' lt lt' avant apres lo hi :
  nettoyer_donnees a p = Some (d, p') ->
  contenu (data_sources p) p "transactions" = Some (DfTransactions lt) ->
  contenu (cleaned_data p') p' "transactions" = Some (DfTransactions lt') ->
  dict_get "transactions" (stats_nettoyage p') = Some (avant, apres) ->
  (Forall (fun r => dans_bornes lo hi (Transaction.latitude r)) lt ->
   Forall (fun r => dans_bornes lo hi (Transaction.latitude r)) lt')
  /\ (Forall (fun r => dans_bornes lo hi (Transaction.longitude r)) lt ->
      Forall (fun r => dans_bornes lo hi (Transaction.longitude r)) lt')
  /\ (Forall (fun r => dans_bornes (- (90 # 1)) (90 # 1) (Transaction.latitude r)) lt ->
      dict_get "coordonnees_invalides" (anomalies apres) = Some 0%nat).
Proof.
  intros H Hsrc Hcl Hst.
  apply nettoyer_donnees_Some in H as (_ & lt0 & lc & ll & lt0' & ll' & Hrun).
  destruct Hrun as (Ht & _ & _ & Hn & _ & _ & Hct & _ & _ & Hs & _).
  assert (lt0 = lt) as -> by congruence.
  assert (lt0' = lt') as -> by congruence.
  assert (apres = analyser_qualite_donnees lt' "transactions") as -> by congruence.
  assert (Hlat : forall lo hi,
             Forall (fun r => dans_bornes lo hi (Transaction.latitude r)) lt ->
             Forall (fun r => dans_bornes lo hi (Transaction.latitude r)) lt').
  { intros lo' hi' Hb.
    apply (nettoyees_colonne_Forall a lt lt' Transaction.latitude
             (dans_bornes lo' hi') Hn); [intros w []; reflexivity |].
    eapply (Forall_meme_colonne Transaction.latitude (dans_bornes lo' hi'));
      [apply imputees_latitude |].
    apply fillna_median_bornes; [intros v []; reflexivity | exact Hb]. }
  split; [apply Hlat |]. split.
  - intros Hb.
    apply (nettoyees_colonne_Forall a lt lt' Transaction.longitude
             (dans_bornes lo hi) Hn); [intros w []; reflexivity |].
    eapply (Forall_meme_colonne Transaction.longitude (dans_bornes lo hi));
      [apply imputees_longitude |].
    apply fillna_median_bornes; [intros v []; reflexivity | exact Hb].
  - intros Hb. rewrite anomalies_coordonnees. f_equal. apply mask_sum_0.
    eapply Forall_impl; [apply Hlat, Hb |]. simpl. intros r Hr.
    unfold dans_bornes in Hr. destruct (Transaction.latitude r) as [x|]; [|reflexivity].
    destruct Hr as [H1 H2]. simpl. unfold Qlt_bool.
    apply Qle_bool_iff in H1, H2. now rewrite H1, H2.
Qed.

Lemma X4_coordonnees_restent_valides_temoin :
  exists d p' lt' avant apres,
    nettoyer_donnees Exemple.analyse_date Exemple.pipeline_ordinaire = Some (d, p')
    /\ contenu (cleaned_data p') p' "transactions" = Some (DfTransactions lt')
    /\ dict_get "transactions" (stats_nettoyage p') = Some (avant, apres)
    /\ Forall (fun r => dans_bornes (- (90 # 1)) (90 # 1) (Transaction.latitude r)) lt'
    /\ dict_get "coordonnees_invalides" (anomalies apres) = Some 0%nat.
Proof.
  eexists _, _, _, _, _. split; [vm_compute; reflexivity |].
  split; [vm_compute; reflexivity |].
  split; [vm_compute; reflexivity |].
  assert (Hb : Forall (fun r => dans_bornes (- (90 # 1)) (90 # 1)
                                  (Transaction.latitude r))
                 Exemple.transactions_ordinaires)
    by (repeat constructor; vm_compute; discriminate).
  pose proof (fun d p' lt' avant apres =>
                X4_coordonnees_restent_valides Exemple.analyse_date
                  Exemple.pipeline_ordinaire d p' Exemple.transactions_ordinaires
                  lt' avant apres (- (90 # 1))%Q (90 # 1)%Q) as HX.
  edestruct HX as (H1 & _ & H3);
    [vm_compute; reflexivity | vm_compute; reflexivity | vm_compute; reflexivity
    | vm_compute; reflexivity |].
  split; [exact (H1 Hb) | exact (H3 Hb)].
Defined.

(** X6: the report computed after cleaning counts no negative amount, and
    the cleaning only removes transaction rows: the cleaned table is not
    longer than the source, and the two row counts of the report say so. *)
Theorem X6_rapport_apres_nettoyage a p d p' lt lt' avant apres :
  nettoyer_donnees a p = Some (d, p') ->
  contenu (data_sources p) p "transactions" = Some (DfTransactions lt) ->
  contenu (cleaned_data p') p' "transactions" = Some (DfTransactions lt') ->
  dict_get "transactions" (stats_nettoyage p') = Some (avant, apres) ->
  dict_get "montants_negatifs" (anomalies apres) = Some 0%nat
  /\ nb_lignes avant = length lt
  /\ nb_lignes apres = length lt'
  /\ (nb_lignes apres <= nb_lignes avant)%nat.
Proof.
  intros H Hsrc Hcl Hst.
  apply nettoyer_donnees_Some in H as (_ & lt0 & lc & ll & lt0' & ll' & Hrun).
  destruct Hrun as (Ht & _ & _ & Hn & _ & _ & Hct & _ & _ & Hs & _).
  assert (lt0 = lt) as -> by congruence.
  assert (lt0' = lt') as -> by congruence.
  assert (avant = analyser_qualite_donnees lt "transactions") as -> by congruence.
  assert (apres = analyser_qualite_donnees lt' "transactions") as -> by congruence.
  pose proof (transactions_nettoyees_propres a lt lt' Hn)
    as (_ & _ & _ & _ & _ & Hm & _).
  split; [|split; [reflexivity | split; [reflexivity |]]].
  - change (dict_get "montants_negatifs"
              (anomalies (analyser_qualite_donnees lt' "transactions")))
      with (Some (mask_sum (fun r => cell_lt (Transaction.montant r) 0) lt')).
    f_equal. apply mask_sum_0.
    eapply Forall_impl; [exact Hm |]. simpl. intros r Hr.
    unfold cell_ge in Hr. destruct (Transaction.montant r) as [x|]; [|discriminate].
    simpl. unfold Qlt_bool. now rewrite Hr.
  - simpl. eapply length_nettoyees, Hn.
Qed.

Lemma X6_rapport_apres_nettoyage_temoin :
  exists d p' lt' avant apres,
    nettoyer_donnees Exemple.analyse_date Exemple.pipeline_ordinaire = Some (d, p')
    /\ contenu (cleaned_data p') p' "transactions" = Some (DfTransactions lt')
    /\ dict_get "transactions" (stats_nettoyage p') = Some (avant, apres)
    /\ dict_get "montants_negatifs" (anomalies avant) = Some 1%nat
    /\ dict_get "montants_negatifs" (anomalies apres) = Some 0%nat
    /\ nb_lignes avant = length Exemple.transactions_ordinaires
    /\ nb_lignes apres = length lt'
    /\ (nb_lignes apres <= nb_lignes avant)%nat.
Proof.
  eexists _, _, _, _, _. split; [vm_compute; reflexivity |].
  split; [vm_compute; reflexivity |].
  split; [vm_compute; reflexivity |].
  split; [vm_compute; reflexivity |].
  eapply (X6_rapport_apres_nettoyage Exemple.analyse_date
            Exemple.pipeline_ordinaire);
    vm_compute; reflexivity.
Defined.

(** ** The cleaned logs *)

(** X7: the cleaned logs are the source logs with their timestamps
    converted by [pd.to_datetime], each distinct row once: a row is in the
    cleaned table exactly when it is a source row whose timestamp cell has
    been converted (a missing cell stays missing, an instant stays, a text
    becomes the instant the library reads in it) and whose other cells are
    unchanged.  The cleaned table has no two equal rows, no text timestamp,
    and is not longer than the source. *)
Theorem X7_logs_nettoyes a p d p' ll ll' :
  nettoyer_donnees a p = Some (d, p') ->
  contenu (data_sources p) p "logs" = Some (DfLogs ll) ->
  contenu (cleaned_data p') p' "logs" = Some (DfLogs ll') ->
  NoDup ll'
  /\ Forall (fun r' => convertie (Log.timestamp r')) ll'
  /\ (forall r',
        In r' ll'
        <-> exists r,
              In r ll
              /\ to_datetime_cellule (a (reference (map Log.timestamp ll)))
                   (Log.timestamp r) = Some (Log.timestamp r')
              /\ r' = Log.set_timestamp (Log.timestamp r') r)
  /\ (length ll' <= length ll)%nat.
Proof.
  intros H Hsrc Hcl.
  apply nettoyer_donnees_Some in H as (_ & lt & lc & ll0 & lt' & ll0' & Hrun).
  destruct Hrun as (_ & _ & Hl & _ & Hn & _ & _ & _ & Hcl' & _).
  assert (ll0 = ll) as -> by congruence.
  assert (ll0' = ll') as -> by congruence.
  unfold logs_nettoyes in Hn.
  destruct (to_datetime a Log.timestamp Log.set_timestamp ll) as [l1|] eqn:E;
    [|discriminate].
  simpl in Hn. injection Hn as <-.
  pose proof (to_datetime_lignes _ _ _ _ _ E) as H2.
  split; [|split; [|split]].
  - pose proof (drop_duplicates_NoDup (fun r : Log.t => r) l1) as Hnd.
    now rewrite map_id in Hnd.
  - eapply Forall_sous_ensemble; [apply drop_duplicates_incl |].
    eapply to_datetime_convertie; [|exact E]. intros v []; reflexivity.
  - intros r'. split.
    + intros Hr'. apply drop_duplicates_incl in Hr'.
      apply list_elem_of_In, list_elem_of_lookup in Hr' as [i Hi].
      destruct (Forall2_lookup_r _ _ _ _ _ H2 Hi) as (r & Hr & c & Hc & ->).
      exists r. split; [eapply list_elem_of_In, list_elem_of_lookup_2, Hr |].
      destruct r; split; [exact Hc | reflexivity].
    + intros (r & Hr & Hc & Hr').
      apply list_elem_of_In, list_elem_of_lookup in Hr as [i Hi].
      destruct (Forall2_lookup_l _ _ _ _ _ H2 Hi) as (r1 & Hr1 & c & Hc1 & ->).
      rewrite Hc in Hc1. injection Hc1 as <-. rewrite <- Hr' in Hr1.
      apply list_elem_of_lookup_2, list_elem_of_In in Hr1.
      destruct (drop_duplicates_depuis_couvre (fun r : Log.t => r) [] l1 r' Hr1)
        as [Hv|Hin]; [now apply elem_of_nil in Hv |].
      now rewrite map_id in Hin.
  - apply Forall2_length in H2. rewrite H2.
    apply (length_drop_duplicates_depuis (fun r : Log.t => r) []).
Qed.

Lemma X7_logs_nettoyes_temoin :
  exists d p' ll',
    nettoyer_donnees Exemple.analyse_date Exemple.pipeline_ordinaire = Some (d, p')
    /\ contenu (cleaned_data p') p' "logs" = Some (DfLogs ll')
    /\ map Log.timestamp Exemple.logs_ordinaires
       = [Some (Texte "2024-01-15T10:30:00"); Some (Texte "2024-01-15T10:30:00")]
    /\ map Log.timestamp ll'
       = [Some (Instant 1705314600); Some (Instant 1705314600)]
    /\ NoDup ll'
    /\ Forall (fun r' => convertie (Log.timestamp r')) ll'
    /\ (forall r',
          In r' ll'
          <-> exists r,
                In r Exemple.logs_ordinaires
                /\ to_datetime_cellule
                     (Exemple.analyse_date
                        (reference (map Log.timestamp Exemple.logs_ordinaires)))
                     (Log.timestamp r) = Some (Log.timestamp r')
                /\ r' = Log.set_timestamp (Log.timestamp r') r)
    /\ (length ll' <= length Exemple.logs_ordinaires)%nat.
Proof.
  eexists _, _, _. split; [vm_compute; reflexivity |].
  split; [vm_compute; reflexivity |].
  split; [vm_compute; reflexivity |].
  split; [vm_compute; reflexivity |].
  eapply (X7_logs_nettoyes Exemple.analyse_date Exemple.pipeline_ordinaire);
    vm_compute; reflexivity.
Defined.

(** ** When the cleaning raises *)

(** X8: the cleaning raises when one of the three sources is not there (no
    entry in [data_sources], as before the extraction), and when one row of
    the logs carries a text timestamp that does not parse (in the format
    that [pd.to_datetime] infers for the column): a single such row aborts
    the whole stage. *)
Theorem X8_nettoyage_echoue a p :
  (exists k, k ∈ noms_sources /\ contenu (data_sources p) p k = None)
  \/ (exists ll r s,
        contenu (data_sources p) p "logs" = Some (DfLogs ll)
        /\ In r ll /\ Log.timestamp r = Some (Texte s)
        /\ a (reference (map Log.timestamp ll)) s = None) ->
  nettoyer_donnees a p = None.
Proof.
  intros Hcas.
  destruct (nettoyer_donnees a p) as [[d p']|] eqn:E; [exfalso | reflexivity].
  apply nettoyer_donnees_Some in E as (_ & lt & lc & ll0 & lt' & ll' & Hrun).
  destruct Hrun as (Ht & Hc & Hl & _ & Hn & _).
  destruct Hcas as [(k & Hk & Hnone)|(ll & r & s & Hll & Hr & Hts & Has)].
  - unfold noms_sources in Hk.
    repeat (apply elem_of_cons in Hk as [->|Hk]);
      [| | |now apply elem_of_nil in Hk]; congruence.
  - assert (ll0 = ll) as -> by congruence.
    unfold logs_nettoyes in Hn.
    destruct (to_datetime a Log.timestamp Log.set_timestamp ll) as [l1|] eqn:E;
      [|discriminate].
    apply to_datetime_analysable in E.
    apply (in_map Log.timestamp) in Hr.
    apply (proj1 (List.Forall_forall _ _) E) in Hr.
    destruct (Hr s Hts) as [t Ht']. congruence.
Qed.

Lemma X8_nettoyage_echoue_temoin :
  nettoyer_donnees Exemple.analyse_date ETLPipeline_init = None
  /\ nettoyer_donnees Exemple.analyse_date
       (Exemple.extrait Exemple.transactions_ordinaires
          Exemple.clients_ordinaires
          [Exemple.log "SESSION_00000000" "CLIENT_000001" 60;
           Log.set_timestamp (Some (Texte "pas une date"))
             (Exemple.log "SESSION_00000001" "CLIENT_000001" 120)])
     = None.
Proof.
  split.
  - apply X8_nettoyage_echoue. left. exists "transactions". split.
    + unfold noms_sources. set_solver.
    + reflexivity.
  - apply X8_nettoyage_echoue. right.
    eexists _, _, "pas une date". split; [vm_compute; reflexivity |].
    split; [right; left; reflexivity |]. split; reflexivity.
Defined.

(** ** The aggregation in general *)

Lemma agreger_donnees_eq p :
  agréger_données p =
  match contenu (cleaned_data p) p "transactions",
        contenu (cleaned_data p) p "clients",
        contenu (cleaned_data p) p "logs" with
  | Some (DfTransactions lt), Some (DfClients lc), Some (DfLogs ll) =>
      let r := fresh (dom (tas p)) in
      Some (r, {| tas := <[r := DfFinal (dataset_final lt lc ll)]> (tas p);
                  data_sources := data_sources p;
                  cleaned_data := dict_set "dataset_final" r (cleaned_data p);
                  stats_nettoyage := stats_nettoyage p |})
  | _, _, _ => None
  end.
Proof.
  destruct p as [h ds cd st]. unfold contenu, agréger_données. deplier.
  destruct (dict_get "transactions" cd) as [rt|];
    [|destruct (dict_get "clients" cd) as [rc|]; [destruct (h !! rc) as [[]|]|];
      reflexivity].
  destruct (dict_get "clients" cd) as [rc|];
    [|destruct (h !! rt) as [[]|]; reflexivity].
  destruct (dict_get "logs" cd) as [rl|];
    [|destruct (h !! rt) as [[]|]; destruct (h !! rc) as [[]|]; reflexivity].
  destruct (h !! rl) as [[?|?|ll|?|]|];
    try (destruct (h !! rt) as [[]|]; destruct (h !! rc) as [[]|]; reflexivity).
  destruct (h !! rt) as [[lt|?|?|?|]|];
    try (destruct (h !! rc) as [[]|]; reflexivity).
  destruct (h !! rc) as [[?|lc|?|?|]|]; try reflexivity.
  executer_pas. rewrite ?insert_insert_eq. reflexivity.
Qed.

Section Jointure.

Context {L R K : Type} `{EqDecision K} (on_left : L -> K) (on_right : R -> K).

Lemma merge_left_In l o left right :
  In (l, o) (merge_left on_left on_right left right) ->
  In l left
  /\ match o with
     | Some r => In r right /\ on_right r = on_left l
     | None => forall r, In r right -> on_right r <> on_left l
     end.
Proof.
  unfold merge_left. intros Hin. apply in_flat_map in Hin as (l0 & Hl0 & Hin).
  destruct (List.filter _ right) as [|m ms] eqn:Ef.
  - destruct Hin as [[= <- <-]|[]]. split; [exact Hl0 |].
    intros r Hr Hk.
    assert (Hrf : In r (List.filter (fun r => bool_decide (on_right r = on_left l0)) right))
      by (apply filter_In; split; [exact Hr | now apply bool_decide_eq_true]).
    rewrite Ef in Hrf. destruct Hrf.
  - apply in_map_iff in Hin as (r & [= <- <-] & Hr).
    split; [exact Hl0 |]. rewrite <- Ef in Hr. apply filter_In in Hr as [Hr Hk].
    split; [exact Hr | now apply bool_decide_eq_true in Hk].
Qed.

(** A left join drops no left row. *)
Lemma merge_left_garde l left right :
  In l left -> exists o, In (l, o) (merge_left on_left on_right left right).
Proof.
  intros Hl. unfold merge_left.
  destruct (List.filter (fun r => bool_decide (on_right r = on_left l)) right)
    as [|m ms] eqn:Ef.
  - exists None. apply in_flat_map. exists l. split; [exact Hl |].
    rewrite Ef. now left.
  - exists (Some m). apply in_flat_map. exists l. split; [exact Hl |].
    rewrite Ef. now left.
Qed.

Lemma length_merge_left_ge left right :
  (length left <= length (merge_left on_left on_right left right))%nat.
Proof.
  unfold merge_left. induction left as [|l left IH]; [simpl; lia |].
  cbn [flat_map]. rewrite length_app.
  destruct (List.filter _ right) as [|m ms]; simpl in *; lia.
Qed.

End Jointure.

Lemma fusionner_In x df_trans df_clients agg :
  In x (fusionner df_trans df_clients agg) ->
  In (Final.trans x) df_trans
  /\ match Final.client x with
     | Some c => In c df_clients
                 /\ Client.client_id c = Transaction.client_id (Final.trans x)
     | None => forall c, In c df_clients ->
                 Client.client_id c <> Transaction.client_id (Final.trans x)
     end
  /\ ((exists f, In f agg
         /\ Some (Features.client_id f) = Transaction.client_id (Final.trans x)
         /\ Final.nb_sessions x = Some (Features.nb_sessions f)
         /\ Final.duree_moy_session_sec x = Features.duree_moy_session_sec f)
      \/ ((forall f, In f agg ->
             Some (Features.client_id f) <> Transaction.client_id (Final.trans x))
          /\ Final.nb_sessions x = None
          /\ Final.duree_moy_session_sec x = None)).
Proof.
  unfold fusionner. intros Hx. apply in_map_iff in Hx as ([[t c] f] & <- & Hin).
  apply merge_left_In in Hin as [Hin Hf]. apply merge_left_In in Hin as [Ht Hc].
  simpl in *. split; [exact Ht |]. split; [exact Hc |].
  destruct f as [f|]; [left | right].
  - exists f. destruct Hf as [Hf Hk]. repeat split; assumption.
  - repeat split; assumption.
Qed.

Lemma dataset_final_In x lt lc ll :
  In x (dataset_final lt lc ll) ->
  exists y, In y (fusionner lt lc (logs_agg ll))
    /\ Final.trans x = Final.trans y
    /\ Final.client x = Final.client y
    /\ Final.nb_sessions x = Some (default 0%Q (Final.nb_sessions y))
    /\ Final.duree_moy_session_sec x
       = Some (default 0%Q (Final.duree_moy_session_sec y)).
Proof.
  unfold dataset_final, fillna. rewrite List.map_map. intros Hx.
  apply in_map_iff in Hx as (y & <- & Hy). exists y. split; [exact Hy |].
  destruct y as [t c [n|] [m|]]; repeat split; reflexivity.
Qed.

Lemma groupby_keys_In k col : In k (groupby_keys col) <-> In (Some k) col.
Proof.
  unfold groupby_keys.
  rewrite trier_s_In, <- list_elem_of_In, elem_of_remove_dups, list_elem_of_In.
  apply dropna_In.
Qed.

Lemma logs_agg_In f ll :
  In f (logs_agg ll) ->
  Features.nb_sessions f
  = inject_Z (Z.of_nat (sessions_de (Features.client_id f) ll))
  /\ Features.duree_moy_session_sec f = mean (durees_de (Features.client_id f) ll).
Proof.
  unfold logs_agg. intros Hf. apply in_map_iff in Hf as (k & <- & _).
  split; reflexivity.
Qed.

Lemma sans_logs k ll :
  ~ In (Some k) (map Log.client_id ll) ->
  List.filter (fun r => bool_decide (Log.client_id r = Some k)) ll = [].
Proof.
  intros Hk. destruct (List.filter _ ll) as [|r l] eqn:E; [reflexivity |].
  exfalso. apply Hk.
  assert (Hr : In r (List.filter (fun r => bool_decide (Log.client_id r = Some k)) ll))
    by (rewrite E; now left).
  apply filter_In in Hr as [Hr Hid]. apply bool_decide_eq_true in Hid.
  rewrite <- Hid. now apply in_map.
Qed.

Lemma fusionner_garde t lt lc agg :
  In t lt -> exists y, In y (fusionner lt lc agg) /\ Final.trans y = t.
Proof.
  intros Ht. unfold fusionner.
  destruct (merge_left_garde Transaction.client_id Client.client_id t lt lc Ht)
    as [c Hc].
  destruct (merge_left_garde
              (fun tc : Transaction.t * option Client.t =>
                 Transaction.client_id (fst tc))
              (fun f => Some (Features.client_id f)) (t, c) _ agg Hc) as [f Hf].
  eexists. split; [apply in_map_iff; eexists; split; [reflexivity | exact Hf] |].
  reflexivity.
Qed.

Lemma dataset_final_garde y lt lc ll :
  In y (fusionner lt lc (logs_agg ll)) ->
  exists x, In x (dataset_final lt lc ll) /\ Final.trans x = Final.trans y.
Proof.
  intros Hy. unfold dataset_final, fillna. rewrite List.map_map.
  eexists. split; [apply in_map_iff; eexists; split; [reflexivity | exact Hy] |].
  destruct y as [t c [n|] [m|]]; reflexivity.
Qed.

Lemma length_dataset_final_ge lt lc ll :
  (length lt <= length (dataset_final lt lc ll))%nat.
Proof.
  unfold dataset_final, fusionner. rewrite !length_fillna, length_map.
  etransitivity; [|apply length_merge_left_ge].
  apply length_merge_left_ge.
Qed.

(** X9: whatever the keys, the aggregation returns as soon as the three
    cleaned tables are there, and its left joins drop no transaction: the
    dataset has at least as many rows as the cleaned transactions, every
    transaction occurs in it, every row carries a cleaned transaction, and
    the client columns of a row are those of a client with the identifier of
    the transaction, or missing when no client has it. *)
Theorem X9_jointure_ne_perd_rien p lt lc ll :
  contenu (cleaned_data p) p "transactions" = Some (DfTransactions lt) ->
  contenu (cleaned_data p) p "clients" = Some (DfClients lc) ->
  contenu (cleaned_data p) p "logs" = Some (DfLogs ll) ->
  exists r p' lf,
    agréger_données p = Some (r, p')
    /\ tas p' !! r = Some (DfFinal lf)
    /\ contenu (cleaned_data p') p' "dataset_final" = Some (DfFinal lf)
    /\ (length lt <= length lf)%nat
    /\ (forall t, In t lt -> exists x, In x lf /\ Final.trans x = t)
    /\ (forall x, In x lf ->
          In (Final.trans x) lt
          /\ match Final.client x with
             | Some c => In c lc
                         /\ Client.client_id c
                            = Transaction.client_id (Final.trans x)
             | None => forall c, In c lc ->
                         Client.client_id c
                         <> Transaction.client_id (Final.trans x)
             end).
Proof.
  intros Ht Hc Hl. rewrite agreger_donnees_eq, Ht, Hc, Hl. cbv zeta.
  eexists _, _, _. split; [reflexivity |].
  unfold contenu. simpl. rewrite dict_get_set_eq, lookup_insert_eq.
  split; [reflexivity |]. split; [reflexivity |].
  split; [apply length_dataset_final_ge |]. split.
  - intros t Hin. destruct (fusionner_garde t lt lc (logs_agg ll) Hin) as (y & Hy & <-).
    apply dataset_final_garde, Hy.
  - intros x Hx. apply dataset_final_In in Hx as (y & Hy & -> & -> & _).
    apply fusionner_In in Hy as (H1 & H2 & _). split; assumption.
Qed.

Lemma X9_jointure_ne_perd_rien_temoin :
  exists d p,
    nettoyer_donnees Exemple.analyse_date Exemple.pipeline_ordinaire = Some (d, p)
    /\ exists r p' lf,
         agréger_données p = Some (r, p')
         /\ tas p' !! r = Some (DfFinal lf)
         /\ (2 <= length lf)%nat.
Proof.
  eexists _, _. split; [vm_compute; reflexivity |].
  match goal with
  | |- context [agréger_données ?P] =>
      edestruct (X9_jointure_ne_perd_rien P)
        as (r & p' & lf & H1 & H2 & _ & H4 & _);
        [vm_compute; reflexivity | vm_compute; reflexivity
        | vm_compute; reflexivity |]
  end.
  exists r, p', lf. split; [exact H1 |]. split; [exact H2 | exact H4].
Defined.

(** X10: in every row of the dataset, [nb_sessions] is the number of log rows
    of the transaction's client that carry a session identifier, and
    [duree_moy_session_sec] is the mean of the durations present in those
    rows, as binary64 arithmetic gives it ([mean]: the durations cast to
    binary64, their compensated sum, the rounded quotient); both are 0 for a
    client without log row, without session duration, or for a transaction
    without client identifier. *)
Theorem X10_features_par_client p lt lc ll r p' lf :
  contenu (cleaned_data p) p "transactions" = Some (DfTransactions lt) ->
  contenu (cleaned_data p) p "clients" = Some (DfClients lc) ->
  contenu (cleaned_data p) p "logs" = Some (DfLogs ll) ->
  agréger_données p = Some (r, p') ->
  tas p' !! r = Some (DfFinal lf) ->
  Forall (fun x =>
            match Transaction.client_id (Final.trans x) with
            | Some k =>
                Final.nb_sessions x = Some (inject_Z (Z.of_nat (sessions_de k ll)))
                /\ Final.duree_moy_session_sec x
                   = Some (default 0%Q (mean (durees_de k ll)))
            | None =>
                Final.nb_sessions x = Some 0%Q
                /\ Final.duree_moy_session_sec x = Some 0%Q
            end)
         lf.
Proof.
  intros Ht Hc Hl. rewrite agreger_donnees_eq, Ht, Hc, Hl. cbv zeta.
  intros [= <- <-]. simpl. rewrite lookup_insert_eq. intros [= <-].
  apply List.Forall_forall. intros x Hx.
  apply dataset_final_In in Hx as (y & Hy & -> & _ & -> & ->).
  apply fusionner_In in Hy as (_ & _ & Hf).
  destruct Hf as [(f & Hf & Hk & -> & ->)|(Hno & -> & ->)].
  - rewrite <- Hk. apply logs_agg_In in Hf as [-> ->]. split; reflexivity.
  - destruct (Transaction.client_id (Final.trans y)) as [k|] eqn:Ek;
      [|split; reflexivity].
    assert (Hvide : List.filter (fun r => bool_decide (Log.client_id r = Some k)) ll = []).
    { apply sans_logs. intros Hin. apply groupby_keys_In in Hin.
      assert (Hf : In (Features.Build k
                         (inject_Z (Z.of_nat (sessions_de k ll)))
                         (mean (durees_de k ll))) (logs_agg ll)).
      { unfold logs_agg. apply in_map_iff. exists k. split; [reflexivity | exact Hin]. }
      apply Hno in Hf. now apply Hf. }
    unfold sessions_de, durees_de. rewrite Hvide. split; reflexivity.
Qed.

Lemma X10_features_par_client_temoin :
  exists d p,
    nettoyer_donnees Exemple.analyse_date Exemple.pipeline_ordinaire = Some (d, p)
    /\ exists ll r p' lf,
         contenu (cleaned_data p) p "logs" = Some (DfLogs ll)
         /\ agréger_données p = Some (r, p')
         /\ tas p' !! r = Some (DfFinal lf)
         /\ sessions_de "CLIENT_000001" ll = 2%nat
         /\ durees_de "CLIENT_000001" ll = [60; 120]%Z
         /\ mean [60; 120]%Z = Some (90 # 1)
         /\ mean [100; 100; 101]%Z
            = Some (7060330665825621 # 70368744177664)
         /\ Forall (fun x =>
                      match Transaction.client_id (Final.trans x) with
                      | Some k =>
                          Final.nb_sessions x
                          = Some (inject_Z (Z.of_nat (sessions_de k ll)))
                          /\ Final.duree_moy_session_sec x
                             = Some (default 0%Q (mean (durees_de k ll)))
                      | None =>
                          Final.nb_sessions x = Some 0%Q
                          /\ Final.duree_moy_session_sec x = Some 0%Q
                      end)
                   lf.
Proof.
  eexists _, _. split; [vm_compute; reflexivity |].
  match goal with
  | |- context [agréger_données ?P] =>
      pose proof (X10_features_par_client P) as HX
  end.
  eexists _, _, _, _. split; [vm_compute; reflexivity |].
  split; [vm_compute; reflexivity |].
  split; [vm_compute; reflexivity |]. split; [reflexivity |].
  split; [vm_compute; reflexivity |].
  split; [vm_compute; reflexivity |].
  split; [vm_compute; reflexivity |].
  eapply HX; vm_compute; reflexivity.
Defined.

(** X11: the aggregation can always follow a cleaning that returned: it
    returns, stores the dataset under [dataset_final], and leaves the
    sources, the three cleaned tables, the statistics and every existing
    DataFrame as they were. *)
Theorem X11_agregation_apres_nettoyage a p d p1 :
  nettoyer_donnees a p = Some (d, p1) ->
  exists r p2 lf,
    agréger_données p1 = Some (r, p2)
    /\ contenu (cleaned_data p2) p2 "dataset_final" = Some (DfFinal lf)
    /\ data_sources p2 = data_sources p1
    /\ stats_nettoyage p2 = stats_nettoyage p1
    /\ (forall r' df, tas p1 !! r' = Some df -> tas p2 !! r' = Some df)
    /\ (forall k, k ∈ noms_sources ->
          contenu (cleaned_data p2) p2 k = contenu (cleaned_data p1) p1 k).
Proof.
  intros H.
  apply nettoyer_donnees_Some in H as (_ & lt & lc & ll & lt' & ll' & Hrun).
  destruct Hrun as (_ & _ & _ & _ & _ & _ & Ht & Hc & Hl & _).
  rewrite agreger_donnees_eq, Ht, Hc, Hl. cbv zeta.
  eexists _, _, _. split; [reflexivity |].
  unfold contenu. simpl. rewrite dict_get_set_eq, lookup_insert_eq.
  split; [reflexivity |]. split; [reflexivity |]. split; [reflexivity |].
  assert (Hh : forall r' df, tas p1 !! r' = Some df ->
                 <[fresh (dom (tas p1)) := DfFinal (dataset_final lt' (clients_nettoyes lc) ll')]>
                   (tas p1) !! r' = Some df).
  { intros r' df Hr. rewrite lookup_insert_frais; [exact Hr | eauto]. }
  split; [exact Hh |].
  intros k Hk. unfold noms_sources in Hk. unfold contenu in Ht, Hc, Hl.
  repeat (apply elem_of_cons in Hk as [->|Hk]);
    [| | |now apply elem_of_nil in Hk];
    rewrite dict_get_set_ne by discriminate.
  - destruct (dict_get "transactions" (cleaned_data p1)); [|discriminate].
    rewrite Ht. now apply Hh.
  - destruct (dict_get "clients" (cleaned_data p1)); [|discriminate].
    rewrite Hc. now apply Hh.
  - destruct (dict_get "logs" (cleaned_data p1)); [|discriminate].
    rewrite Hl. now apply Hh.
Qed.

Lemma X11_agregation_apres_nettoyage_temoin :
  exists d p1,
    nettoyer_donnees Exemple.analyse_date Exemple.pipeline_ordinaire = Some (d, p1)
    /\ exists r p2 lf,
         agréger_données p1 = Some (r, p2)
         /\ contenu (cleaned_data p2) p2 "dataset_final" = Some (DfFinal lf)
         /\ data_sources p2 = data_sources p1
         /\ stats_nettoyage p2 = stats_nettoyage p1
         /\ (forall r' df, tas p1 !! r' = Some df -> tas p2 !! r' = Some df)
         /\ (forall k, k ∈ noms_sources ->
               contenu (cleaned_data p2) p2 k = contenu (cleaned_data p1) p1 k).
Proof.
  eexists _, _. split; [vm_compute; reflexivity |].
  eapply (X11_agregation_apres_nettoyage Exemple.analyse_date
            Exemple.pipeline_ordinaire).
  vm_compute. reflexivity.
Defined.

(** X12: the aggregation raises when one of the three cleaned tables is not
    in [cleaned_data], as on a pipeline that has extracted its sources but
    not cleaned them. *)
Theorem X12_agregation_sans_nettoyage p k :
  k ∈ noms_sources ->
  contenu (cleaned_data p) p k = None ->
  agréger_données p = None.
Proof.
  intros Hk Hnone. rewrite agreger_donnees_eq. unfold noms_sources in Hk.
  repeat (apply elem_of_cons in Hk as [->|Hk]);
    [| | |now apply elem_of_nil in Hk]; rewrite Hnone.
  - reflexivity.
  - destruct (contenu (cleaned_data p) p "transactions") as [[]|]; reflexivity.
  - destruct (contenu (cleaned_data p) p "transactions") as [[]|];
      try reflexivity.
    destruct (contenu (cleaned_data p) p "clients") as [[]|]; reflexivity.
Qed.

Lemma X12_agregation_sans_nettoyage_temoin :
  agréger_données Exemple.pipeline_ordinaire = None.
Proof.
  apply (X12_agregation_sans_nettoyage Exemple.pipeline_ordinaire "clients").
  - unfold noms_sources. set_solver.
  - reflexivity.
Defined.

(** ** The loader and the report *)

Section Chargement_en_detail.

Variable relire : string -> DataFrame -> nat.

Lemma charger_tables_pas table_name r items stats sortie p :
  charger_tables relire true ((table_name, r) :: items) stats sortie p
  = match tas p !! r with
    | Some df =>
        charger_tables relire true items
          (dict_set table_name (entree_chargement table_name df) stats)
          (sortie ++ [message_chargement relire table_name df]) p
    | None => None
    end.
Proof. rewrite charger_tables_cons. reflexivity. Qed.

Lemma charger_tables_etat simulate items stats0 sortie0 p res p' :
  charger_tables relire simulate items stats0 sortie0 p = Some (res, p') ->
  p' = p /\ exists suite, snd res = sortie0 ++ suite /\ length suite = length items.
Proof.
  revert stats0 sortie0. induction items as [|[name r] items IH];
    intros stats0 sortie0 H.
  - injection H as <- <-. split; [reflexivity |]. exists []. simpl.
    now rewrite app_nil_r.
  - rewrite charger_tables_cons in H. destruct simulate.
    + destruct (tas p !! r) as [df|]; [|discriminate]. cbv zeta in H.
      apply IH in H as (-> & suite & -> & Hlen). split; [reflexivity |].
      eexists (_ :: suite). rewrite <- app_assoc. simpl. split; [reflexivity | lia].
    + apply IH in H as (-> & suite & -> & Hlen). split; [reflexivity |].
      eexists (_ :: suite). rewrite <- app_assoc. simpl. split; [reflexivity | lia].
Qed.

Lemma charger_tables_autres items stats0 sortie0 p res p' k :
  charger_tables relire true items stats0 sortie0 p = Some (res, p') ->
  ~ In k (map fst items) ->
  dict_get k (fst res) = dict_get k stats0.
Proof.
  revert stats0 sortie0. induction items as [|[name r] items IH];
    intros stats0 sortie0 H Hk.
  - now injection H as <- _.
  - rewrite charger_tables_pas in H.
    destruct (tas p !! r) as [df|]; [|discriminate].
    rewrite (IH _ _ H) by (intros Hin; apply Hk; now right).
    apply dict_get_set_ne. intros ->. apply Hk. now left.
Qed.

Lemma charger_tables_entree items stats0 sortie0 p res p' k r :
  charger_tables relire true items stats0 sortie0 p = Some (res, p') ->
  NoDup (map fst items) ->
  In (k, r) items ->
  exists df, tas p !! r = Some df
    /\ dict_get k (fst res) = Some (entree_chargement k df)
    /\ In (message_chargement relire k df) (snd res).
Proof.
  revert stats0 sortie0. induction items as [|[name r0] items IH];
    intros stats0 sortie0 H Hnd Hin; [destruct Hin |].
  rewrite charger_tables_pas in H.
  destruct (tas p !! r0) as [df|] eqn:Edf; [|discriminate].
  inversion Hnd as [|? ? Hname Hnd']; subst.
  destruct Hin as [[= -> ->]|Hin].
  - exists df. split; [exact Edf |]. split.
    + rewrite (charger_tables_autres _ _ _ _ _ _ k H)
        by (intros Hk; apply Hname, list_elem_of_In, Hk).
      apply dict_get_set_eq.
    + apply charger_tables_etat in H as (_ & suite & -> & _).
      apply in_or_app. left. apply in_or_app. right. now left.
  - eapply IH; eassumption.
Qed.

(** X13: with [simulate=True] the loader changes nothing in the pipeline,
    prints one verdict per table, and for each table of [cleaned_data]
    records the number of rows and of columns of the frame in memory, the
    path [data/processed/<table>_clean.csv] and the status OK; the verdict
    printed for the table is an error exactly when the file read back has
    another number of rows. *)
Theorem X13_chargement_par_table p stats sortie p' :
  charger_donnees relire true p = Some ((stats, sortie), p') ->
  NoDup (cles (cleaned_data p)) ->
  p' = p
  /\ length sortie = length (cleaned_data p)
  /\ forall k r, In (k, r) (cleaned_data p) ->
       exists df, tas p !! r = Some df
         /\ dict_get k stats = Some (entree_chargement k df)
         /\ In (message_chargement relire k df) sortie.
Proof.
  unfold charger_donnees, cles. intros H Hnd.
  pose proof (charger_tables_etat _ _ _ _ _ _ _ H) as (-> & suite & Hs & Hlen).
  simpl in Hs. subst sortie. split; [reflexivity |]. split; [exact Hlen |].
  intros k r Hin.
  apply (charger_tables_entree _ _ _ _ _ _ k r H Hnd Hin).
Qed.

(** X14: with [simulate=False] nothing is loaded: the loader returns empty
    statistics and only prints, for each table, that a connection is
    needed; it does not even look at the frames. *)
Theorem X14_chargement_sans_simulation p :
  charger_donnees relire false p
  = Some (([], map (fun kr => Connexion_requise (fst kr)) (cleaned_data p)), p).
Proof.
  unfold charger_donnees.
  assert (Hgen : forall items stats0 sortie0,
             charger_tables relire false items stats0 sortie0 p
             = Some ((stats0,
                      sortie0 ++ map (fun kr => Connexion_requise (fst kr)) items),
                     p)).
  { induction items as [|[name r] items IH]; intros stats0 sortie0.
    - simpl. now rewrite app_nil_r.
    - rewrite charger_tables_cons, IH, <- app_assoc. reflexivity. }
  apply Hgen.
Qed.

End Chargement_en_detail.

Lemma X13_chargement_par_table_temoin :
  exists d p1 r p stats sortie,
    nettoyer_donnees Exemple.analyse_date Exemple.pipeline_ordinaire = Some (d, p1)
    /\ agréger_données p1 = Some (r, p)
    /\ charger_donnees Exemple.stockage_tronque true p = Some ((stats, sortie), p)
    /\ length sortie = 4%nat
    /\ forall k r, In (k, r) (cleaned_data p) ->
         exists df, tas p !! r = Some df
           /\ dict_get k stats = Some (entree_chargement k df)
           /\ In (message_chargement Exemple.stockage_tronque k df) sortie.
Proof.
  eexists _, _, _, _, _, _. split; [vm_compute; reflexivity |].
  split; [vm_compute; reflexivity |]. split; [vm_compute; reflexivity |].
  match goal with
  | |- context [cleaned_data ?P] =>
      edestruct (X13_chargement_par_table Exemple.stockage_tronque P)
        as (_ & H2 & H3);
        [vm_compute; reflexivity
        | vm_compute; apply (bool_decide_unpack _); vm_compute; exact I |]
  end.
  split; [exact H2 | exact H3].
Defined.





(** ** Extraction *)

Section Extraction_proprietes.

Variable read_csv : string -> option (list Transaction.t).
Variable read_excel : string -> option (list Client.t).
Variable json_load : string -> option (list Log.t).

Lemma extraire_donnees_eq p :
  extraire_donnees read_csv read_excel json_load p =
  match read_csv "data/raw/transactions.csv",
        read_excel "data/raw/clients.xlsx",
        json_load "data/raw/logs_comportement.json" with
  | Some lt, Some lc, Some ll =>
      let r1 := fresh (dom (tas p)) in
      let h1 := <[r1 := DfTransactions lt]> (tas p) in
      let r2 := fresh (dom h1) in
      let h2 := <[r2 := DfClients lc]> h1 in
      let r3 := fresh (dom h2) in
      let sources :=
        dict_set "logs" r3
          (dict_set "clients" r2 (dict_set "transactions" r1 (data_sources p))) in
      Some (sources, {| tas := <[r3 := DataFrame_de_logs ll]> h2;
                        data_sources := sources;
                        cleaned_data := cleaned_data p;
                        stats_nettoyage := stats_nettoyage p |})
  | _, _, _ => None
  end.
Proof.
  destruct p as [h ds cd st]. unfold extraire_donnees, set_source,
    retourner_data_sources. deplier.
  destruct (read_csv "data/raw/transactions.csv") as [lt|]; [|reflexivity].
  executer_pas.
  destruct (read_excel "data/raw/clients.xlsx") as [lc|]; [|reflexivity].
  executer_pas.
  destruct (json_load "data/raw/logs_comportement.json") as [ll|];
    [|reflexivity].
  executer_pas. reflexivity.
Qed.

Lemma extraire_donnees_Some p lt lc ll :
  read_csv "data/raw/transactions.csv" = Some lt ->
  read_excel "data/raw/clients.xlsx" = Some lc ->
  json_load "data/raw/logs_comportement.json" = Some ll ->
  exists p',
    extraire_donnees read_csv read_excel json_load p
    = Some (data_sources p', p')
    /\ contenu (data_sources p') p' "transactions" = Some (DfTransactions lt)
    /\ contenu (data_sources p') p' "clients" = Some (DfClients lc)
    /\ contenu (data_sources p') p' "logs" = Some (DataFrame_de_logs ll)
    /\ (exists r1 r2 r3,
          data_sources p'
          = dict_set "logs" r3
              (dict_set "clients" r2
                 (dict_set "transactions" r1 (data_sources p))))
    /\ cleaned_data p' = cleaned_data p
    /\ stats_nettoyage p' = stats_nettoyage p
    /\ (forall r df, tas p !! r = Some df -> tas p' !! r = Some df).
Proof.
  intros Hcsv Hxls Hjson.
  rewrite extraire_donnees_eq, Hcsv, Hxls, Hjson. cbv zeta.
  eexists {| tas := _; data_sources := _; cleaned_data := _;
             stats_nettoyage := _ |}.
  split; [reflexivity |].
  unfold contenu. simpl.
  rewrite dict_get_set_eq, lookup_insert_eq.
  rewrite !(dict_get_set_ne "logs") by discriminate.
  rewrite dict_get_set_eq.
  rewrite !(dict_get_set_ne "clients") by discriminate.
  rewrite dict_get_set_eq.
  split; [|split; [|split; [reflexivity |]]].
  - rewrite lookup_insert_frais by (rewrite lookup_insert_frais;
      rewrite lookup_insert_eq; eauto).
    rewrite lookup_insert_frais by (rewrite lookup_insert_eq; eauto).
    apply lookup_insert_eq.
  - rewrite lookup_insert_frais by (rewrite lookup_insert_eq; eauto).
    apply lookup_insert_eq.
  - split; [eauto |]. split; [reflexivity | split; [reflexivity |]].
    intros r df Hr.
    assert (H1 : <[fresh (dom (tas p)) := DfTransactions lt]> (tas p) !! r = Some df)
      by (rewrite lookup_insert_frais; eauto).
    assert (H2 : <[fresh (dom (<[fresh (dom (tas p)) := DfTransactions lt]> (tas p)))
                   := DfClients lc]>
                   (<[fresh (dom (tas p)) := DfTransactions lt]> (tas p)) !! r
                 = Some df)
      by (rewrite lookup_insert_frais; eauto).
    rewrite lookup_insert_frais; eauto.
Qed.

(** X16: the extraction returns exactly when the three files can be read.
    It then stores the frames of the transactions and clients, as read, and
    the frame built from the list of logs, under the names transactions,
    clients and logs (replacing earlier sources of these names), returns the
    dictionary of sources, and changes neither the other sources, nor the
    existing DataFrames, nor the cleaned data and statistics; when a file
    cannot be read it raises. *)
Theorem X16_extraction p :
  match read_csv "data/raw/transactions.csv",
        read_excel "data/raw/clients.xlsx",
        json_load "data/raw/logs_comportement.json" with
  | Some lt, Some lc, Some ll =>
      exists p',
        extraire_donnees read_csv read_excel json_load p
        = Some (data_sources p', p')
        /\ contenu (data_sources p') p' "transactions" = Some (DfTransactions lt)
        /\ contenu (data_sources p') p' "clients" = Some (DfClients lc)
        /\ contenu (data_sources p') p' "logs" = Some (DataFrame_de_logs ll)
        /\ (forall k, k ∉ noms_sources ->
              dict_get k (data_sources p') = dict_get k (data_sources p))
        /\ cleaned_data p' = cleaned_data p
        /\ stats_nettoyage p' = stats_nettoyage p
        /\ (forall r df, tas p !! r = Some df -> tas p' !! r = Some df)
  | _, _, _ => extraire_donnees read_csv read_excel json_load p = None
  end.
Proof.
  destruct (read_csv _) as [lt|] eqn:Hcsv;
    [|rewrite extraire_donnees_eq, Hcsv; reflexivity].
  destruct (read_excel _) as [lc|] eqn:Hxls;
    [|rewrite extraire_donnees_eq, Hcsv, Hxls; reflexivity].
  destruct (json_load _) as [ll|] eqn:Hjson;
    [|rewrite extraire_donnees_eq, Hcsv, Hxls, Hjson; reflexivity].
  destruct (extraire_donnees_Some p lt lc ll Hcsv Hxls Hjson)
    as (p' & Hrun & Ht & Hc & Hl & (r1 & r2 & r3 & Hds) & Hcd & Hst & Hh).
  exists p'. repeat (split; [assumption |]).
  split; [|repeat split; assumption].
  intros k Hk. unfold noms_sources in Hk. rewrite Hds.
  rewrite !dict_get_set_ne; [reflexivity | | |]; intros <-; set_solver.
Qed.

End Extraction_proprietes.


(** ** The whole sequence *)

Lemma nettoyer_donnees_explicite a p lt lc ll lt' ll' :
  contenu (data_sources p) p "transactions" = Some (DfTransactions lt) ->
  contenu (data_sources p) p "clients" = Some (DfClients lc) ->
  contenu (data_sources p) p "logs" = Some (DfLogs ll) ->
  transactions_nettoyees a lt = Some lt' ->
  logs_nettoyes a ll = Some ll' ->
  exists p' r1 r2 r3,
    nettoyer_donnees a p = Some (cleaned_data p', p')
    /\ cleaned_data p'
       = dict_set "logs" r3
           (dict_set "clients" r2 (dict_set "transactions" r1 (cleaned_data p)))
    /\ stats_nettoyage p'
       = dict_set "clients"
           (analyser_qualite_donnees lc "clients",
            analyser_qualite_donnees (clients_nettoyes lc) "clients")
           (dict_set "transactions"
              (analyser_qualite_donnees lt "transactions",
               analyser_qualite_donnees lt' "transactions")
              (stats_nettoyage p)).
Proof.
  unfold contenu. intros Ht Hc Hl Hnt Hnl.
  destruct (dict_get "transactions" (data_sources p)) as [st|] eqn:Et;
    [|discriminate].
  destruct (dict_get "clients" (data_sources p)) as [sc|] eqn:Ec;
    [|discriminate].
  destruct (dict_get "logs" (data_sources p)) as [sl|] eqn:El;
    [|discriminate].
  rewrite nettoyer_donnees_eq, nettoyage_transactions_eq, Et, Ht, Hnt.
  cbv beta iota zeta. rewrite nettoyage_clients_eq. cbn [data_sources tas]. rewrite Ec.
  rewrite (lookup_insert_frais _ _ sc)
    by (rewrite lookup_insert_frais; rewrite Hc; eauto).
  rewrite (lookup_insert_frais _ _ sc) by (rewrite Hc; eauto).
  rewrite Hc. cbv beta iota zeta. rewrite nettoyage_logs_eq. cbn [data_sources tas].
  rewrite El.
  rewrite (lookup_insert_frais _ _ sl)
    by (rewrite lookup_insert_frais; rewrite lookup_insert_frais;
        rewrite Hl; eauto).
  rewrite (lookup_insert_frais _ _ sl)
    by (rewrite lookup_insert_frais; rewrite Hl; eauto).
  rewrite (lookup_insert_frais _ _ sl) by (rewrite Hl; eauto).
  rewrite Hl, Hnl. cbv beta iota zeta.
  eexists {| tas := _; data_sources := _; cleaned_data := _;
             stats_nettoyage := _ |}, _, _, _.
  split; [reflexivity |]. split; reflexivity.
Qed.

(** X17: steps 1 to 5 of [main] (extract, clean, aggregate, load in
    simulation mode, report) on files that can be read.  The sequence raises
    when the logs file holds the empty list (the frame built from it has no
    [timestamp] column) and when one of the two timestamp columns does not
    convert.  Otherwise it returns: the loader records, in this order, the
    cleaned transactions, the cleaned clients, the cleaned logs and the
    dataset built from them, each with status OK and its integrity message;
    the report lists the three sources, the before and after quality reports
    of transactions and clients, and the same four tables with their row and
    column counts.  The two columns convert when the texts of each are of
    one format. *)
Theorem X17_main_de_bout_en_bout read_csv read_excel json_load a relire
    maintenant lt lc ll :
  read_csv "data/raw/transactions.csv" = Some lt ->
  read_excel "data/raw/clients.xlsx" = Some lc ->
  json_load "data/raw/logs_comportement.json" = Some ll ->
  (ll = [] \/ transactions_nettoyees a lt = None \/ logs_nettoyes a ll = None ->
   main read_csv read_excel json_load a relire maintenant = None)
  /\ (forall lt' ll',
        ll <> [] ->
        transactions_nettoyees a lt = Some lt' ->
        logs_nettoyes a ll = Some ll' ->
        exists p,
          main read_csv read_excel json_load a relire maintenant
          = Some
              ((map (fun t => (fst t, entree_chargement (fst t) (snd t)))
                  (tables_finales lt' lc ll'),
                map (fun t => message_chargement relire (fst t) (snd t))
                  (tables_finales lt' lc ll')),
               Rapport.Build maintenant ["Extract"; "Transform"; "Load"]
                 noms_sources
                 [("transactions",
                   (analyser_qualite_donnees lt "transactions",
                    analyser_qualite_donnees lt' "transactions"));
                  ("clients",
                   (analyser_qualite_donnees lc "clients",
                    analyser_qualite_donnees (clients_nettoyes lc) "clients"))]
                 (map (fun t => (fst t, (len (snd t), len_columns (snd t))))
                    (tables_finales lt' lc ll')),
               p))
  /\ (meme_format a (map Transaction.date_heure lt) ->
      meme_format a (map Log.timestamp ll) ->
      is_Some (transactions_nettoyees a lt) /\ is_Some (logs_nettoyes a ll)).
Proof.
  intros Hcsv Hxls Hjson.
  destruct (extraire_donnees_Some read_csv read_excel json_load
              ETLPipeline_init lt lc ll Hcsv Hxls Hjson)
    as (p1 & E1 & Ht1 & Hc1 & Hl1 & (s1 & s2 & s3 & Hds1) & Hcd1 & Hst1 & _).
  split; [|split].
  - intros Hcas.
    assert (Enet : nettoyer_donnees a p1 = None).
    { destruct (nettoyer_donnees a p1) as [[d p2]|] eqn:E; [exfalso | reflexivity].
      apply nettoyer_donnees_Some in E as (_ & lt0 & lc0 & ll0 & lt0' & ll0' & Hacc).
      destruct Hacc as (Ht0 & _ & Hl0 & Hnt0 & Hnl0 & _).
      rewrite Ht1 in Ht0. injection Ht0 as <-.
      rewrite Hl1 in Hl0.
      destruct Hcas as [->|[Hn|Hn]]; [discriminate | congruence |].
      destruct ll; [discriminate |]. injection Hl0 as <-. congruence. }
    unfold main, mbind, M_bind, bind. rewrite E1, Enet. reflexivity.
  - intros lt' ll' Hll Hnt Hnl.
    assert (Hl1' : contenu (data_sources p1) p1 "logs" = Some (DfLogs ll))
      by (destruct ll; [contradiction | exact Hl1]).
    destruct (nettoyer_donnees_explicite a p1 lt lc ll lt' ll' Ht1 Hc1 Hl1' Hnt Hnl)
      as (p2 & r1 & r2 & r3 & E2 & Hcd2 & Hst2).
    pose proof (nettoyer_donnees_Some _ _ _ _ E2)
      as (_ & lt0 & lc0 & ll0 & lt0' & ll0' & Hacc).
    destruct Hacc as (Ht0 & Hc0 & Hl0 & Hnt0 & Hnl0 & (Hds2 & _) & Ht2 & Hc2 & Hl2 & _).
    rewrite Ht1 in Ht0. injection Ht0 as <-.
    rewrite Hc1 in Hc0. injection Hc0 as <-.
    rewrite Hl1' in Hl0. injection Hl0 as <-.
    rewrite Hnt in Hnt0. injection Hnt0 as <-.
    rewrite Hnl in Hnl0. injection Hnl0 as <-.
    rewrite Hcd1 in Hcd2. rewrite Hst1 in Hst2. simpl in Hcd2, Hst2.
    rewrite Hds1 in Hds2. simpl in Hds2.
    pose proof Ht2 as Hr1. pose proof Hc2 as Hr2. pose proof Hl2 as Hr3.
    unfold contenu in Hr1, Hr2, Hr3. rewrite Hcd2 in Hr1, Hr2, Hr3.
    simpl in Hr1, Hr2, Hr3.
    eexists.
    unfold main, mbind, M_bind, bind. rewrite E1, E2.
    rewrite agreger_donnees_eq, Ht2, Hc2, Hl2. cbv beta iota zeta.
    set (lf := dataset_final lt' (clients_nettoyes lc) ll').
    assert (K1 : <[fresh (dom (tas p2)) := DfFinal lf]> (tas p2) !! r1
                 = Some (DfTransactions lt'))
      by (rewrite lookup_insert_frais; eauto).
    assert (K2 : <[fresh (dom (tas p2)) := DfFinal lf]> (tas p2) !! r2
                 = Some (DfClients (clients_nettoyes lc)))
      by (rewrite lookup_insert_frais; eauto).
    assert (K3 : <[fresh (dom (tas p2)) := DfFinal lf]> (tas p2) !! r3
                 = Some (DfLogs ll'))
      by (rewrite lookup_insert_frais; eauto).
    unfold charger_donnees. cbn [cleaned_data]. rewrite Hcd2. simpl dict_set.
    rewrite charger_tables_pas. cbn [tas]. rewrite K1.
    rewrite charger_tables_pas. cbn [tas]. rewrite K2.
    rewrite charger_tables_pas. cbn [tas]. rewrite K3.
    rewrite charger_tables_pas. cbn [tas]. rewrite lookup_insert_eq.
    cbn [charger_tables]. unfold mret, M_ret, ret.
    unfold generer_rapport_etl, mbind, M_bind, bind.
    cbn [cleaned_data donnees_finales_de data_sources stats_nettoyage].
    rewrite Hds2, Hst2.
    unfold deref, lift, mbind, M_bind, bind, mret, M_ret, ret. cbn [tas].
    rewrite K1. cbv beta iota. cbn [tas].
    rewrite K2. cbv beta iota. cbn [tas].
    rewrite K3. cbv beta iota. cbn [tas].
    rewrite lookup_insert_eq. cbv beta iota.
    reflexivity.
  - intros Hdt Hdl. split.
    + now apply transactions_nettoyees_is_Some.
    + now apply logs_nettoyes_is_Some.
Qed.

Lemma X17_main_de_bout_en_bout_temoin :
  exists lt' ll',
    transactions_nettoyees Exemple.analyse_date Exemple.transactions_ordinaires
    = Some lt'
    /\ logs_nettoyes Exemple.analyse_date Exemple.logs_ordinaires = Some ll'
    /\ exists p,
         main (fun _ => Some Exemple.transactions_ordinaires)
           (fun _ => Some Exemple.clients_ordinaires)
           (fun _ => Some Exemple.logs_ordinaires)
           Exemple.analyse_date Exemple.stockage_fidele 1705314600
         = Some
             ((map (fun t => (fst t, entree_chargement (fst t) (snd t)))
                 (tables_finales lt' Exemple.clients_ordinaires ll'),
               map (fun t => message_chargement Exemple.stockage_fidele
                               (fst t) (snd t))
                 (tables_finales lt' Exemple.clients_ordinaires ll')),
              Rapport.Build 1705314600 ["Extract"; "Transform"; "Load"]
                noms_sources
                [("transactions",
                  (analyser_qualite_donnees Exemple.transactions_ordinaires
                     "transactions",
                   analyser_qualite_donnees lt' "transactions"));
                 ("clients",
                  (analyser_qualite_donnees Exemple.clients_ordinaires "clients",
                   analyser_qualite_donnees
                     (clients_nettoyes Exemple.clients_ordinaires) "clients"))]
                (map (fun t => (fst t, (len (snd t), len_columns (snd t))))
                   (tables_finales lt' Exemple.clients_ordinaires ll')),
              p).
Proof.
  destruct (X17_main_de_bout_en_bout
              (fun _ => Some Exemple.transactions_ordinaires)
              (fun _ => Some Exemple.clients_ordinaires)
              (fun _ => Some Exemple.logs_ordinaires)
              Exemple.analyse_date Exemple.stockage_fidele 1705314600
              Exemple.transactions_ordinaires Exemple.clients_ordinaires
              Exemple.logs_ordinaires eq_refl eq_refl eq_refl)
    as (_ & H & _).
  eexists _, _. split; [vm_compute; reflexivity |].
  split; [vm_compute; reflexivity |].
  apply H; [discriminate | vm_compute; reflexivity | vm_compute; reflexivity].
Defined.

(** ** The generator *)

Lemma unique_In c col : In c (unique col) <-> In c col.
Proof.
  unfold unique. split.
  - apply (drop_duplicates_incl (fun v : option string => v)).
  - intros Hc.
    destruct (drop_duplicates_depuis_couvre (fun v : option string => v) [] col c Hc)
      as [Hv|Hin]; [now apply elem_of_nil in Hv |].
    now rewrite map_id in Hin.
Qed.

Lemma unique_NoDup col : NoDup (unique col).
Proof.
  pose proof (drop_duplicates_NoDup (fun v : option string => v) col) as H.
  now rewrite map_id in H.
Qed.

Lemma Forall2_colonne {I R : Type} (g : R -> I) (indices : list I) (l : list R) :
  Forall2 (fun i r => g r = i) indices l -> map g l = indices.
Proof. induction 1; simpl; congruence. Qed.

Lemma Forall2_In_r {I R : Type} (P : I -> R -> Prop) indices l r :
  Forall2 P indices l -> In r l -> exists i, In i indices /\ P i r.
Proof.
  induction 1 as [|i x indices l Hix _ IH]; intros Hr; [destruct Hr |].
  destruct Hr as [->|Hr]; [exists i; split; [now left | exact Hix] |].
  destruct (IH Hr) as (j & Hj & HP). exists j. split; [now right | exact HP].
Qed.

Section Generation_proprietes.

Variable G : Type.
Variable graine : Z -> G.
Variable random_random : G -> Q * G.
Variable randbelow : Z -> G -> Z * G.
Variable round_ : Q -> Z -> Q.
Variable isoformat : Z -> string.
Variable fake_city : G -> string * G.
Variable fake_postcode : G -> string * G.
Variable fake_ipv4 : G -> string * G.
Variable horloge : nat -> Z.

Lemma apres_ret {A : Type} (a : A) (P : A -> Prop) :
  P a -> apres (@mret (Gen G) (Gen_ret G) A a) P.
Proof. intros H w. exact H. Qed.

Lemma apres_bind_avec {A B : Type} (m : Gen G A) (f : A -> Gen G B)
    (P : A -> Prop) (Q : B -> Prop) :
  apres m P -> (forall a, P a -> apres (f a) Q) ->
  apres (@mbind (Gen G) (Gen_bind G) A B f m) Q.
Proof.
  intros Hm Hf w. unfold mbind, Gen_bind. specialize (Hm w).
  destruct (m w) as [a w1]. apply Hf. exact Hm.
Qed.

Lemma apres_bind {A B : Type} (m : Gen G A) (f : A -> Gen G B)
    (Q : B -> Prop) :
  (forall a, apres (f a) Q) -> apres (@mbind (Gen G) (Gen_bind G) A B f m) Q.
Proof.
  intros Hf. apply (apres_bind_avec m f (fun _ => True)); [intros w; exact I |].
  intros a _. apply Hf.
Qed.

Lemma apres_pour {I A : Type} (P : I -> A -> Prop) (corps : I -> Gen G A)
    indices :
  (forall i, In i indices -> apres (corps i) (P i)) ->
  apres (pour G indices corps) (Forall2 P indices).
Proof.
  induction indices as [|i indices IH]; intros H; simpl.
  - apply apres_ret. constructor.
  - apply (apres_bind_avec _ _ (P i)); [apply H; now left |].
    intros x Hx.
    apply (apres_bind_avec _ _ (Forall2 P indices));
      [apply IH; intros j Hj; apply H; now right |].
    intros xs Hxs. apply apres_ret. constructor; assumption.
Qed.

Lemma generer_transaction_forme i :
  apres (generer_transaction G random_random randbelow round_ isoformat
           fake_city horloge i)
    (transaction_generee isoformat i).
Proof.
  unfold generer_transaction, transaction_generee.
  do 10 (apply apres_bind; intros ?).
  match goal with
  | |- context [truthy ?v] =>
      apply (apres_bind_avec _ _
               (fun c : option Q => if truthy v then is_Some c else c = None));
      [destruct (truthy v);
         [apply apres_bind; intros u; apply apres_ret; eauto
         | apply apres_ret; reflexivity] |];
      intros lat Hlat;
      apply (apres_bind_avec _ _
               (fun c : option Q => if truthy v then is_Some c else c = None));
      [destruct (truthy v);
         [apply apres_bind; intros u; apply apres_ret; eauto
         | apply apres_ret; reflexivity] |];
      intros lon Hlon
  end.
  apply apres_bind; intros canal. apply apres_ret. simpl.
  split; [reflexivity |]. split; [eauto |].
  split; [intros E; rewrite E in Hlat, Hlon; tauto |].
  split; [intros E; rewrite E in Hlat, Hlon; tauto |]. eauto.
Qed.

Lemma generer_client_forme client_id :
  apres (generer_client G random_random randbelow fake_postcode horloge client_id)
    (fun r => Client.client_id r = client_id).
Proof.
  unfold generer_client. do 10 (apply apres_bind; intros ?).
  apply apres_ret. reflexivity.
Qed.

Lemma generer_log_forme clients_uniques i :
  apres (generer_log G randbelow isoformat fake_ipv4 horloge clients_uniques i)
    (log_genere isoformat i).
Proof.
  unfold generer_log, log_genere. do 8 (apply apres_bind; intros ?).
  apply apres_ret. simpl. eauto.
Qed.

(** The three loops of the generator, for any properties of their
    bodies. *)
Lemma generer_donnees_test_apres nb_transactions
    (PT : nat -> Transaction.t -> Prop) (PC : option string -> Client.t -> Prop)
    (PL : list (option string) -> nat -> Log.t -> Prop) :
  (forall i, apres (generer_transaction G random_random randbelow round_
                      isoformat fake_city horloge i) (PT i)) ->
  (forall c, apres (generer_client G random_random randbelow fake_postcode
                      horloge c) (PC c)) ->
  (forall cu i, cu <> [] ->
     apres (generer_log G randbelow isoformat fake_ipv4 horloge cu i) (PL cu i)) ->
  apres (generer_donnees_test G random_random randbelow round_ isoformat
           fake_city fake_postcode fake_ipv4 horloge nb_transactions)
    (fun res =>
       match res with
       | None => nb_transactions = 0%nat
       | Some res =>
           (0 < nb_transactions)%nat
           /\ Forall2 PT (seq 0 nb_transactions) (fst (fst res))
           /\ Forall2 PC (unique (map Transaction.client_id (fst (fst res))))
                (snd (fst res))
           /\ Forall2 (PL (unique (map Transaction.client_id (fst (fst res)))))
                (seq 0 (nb_transactions * 5)) (snd res)
       end).
Proof.
  intros HT HC HL. unfold generer_donnees_test.
  apply (apres_bind_avec _ _ (Forall2 PT (seq 0 nb_transactions)));
    [apply apres_pour; intros i _; apply HT |].
  intros lt Hlt.
  pose proof (Forall2_length _ _ _ Hlt) as Hlen. rewrite length_seq in Hlen.
  destruct lt as [|r lt]; [apply apres_ret; exact Hlen |]. cbv zeta.
  set (cu := unique (map Transaction.client_id (r :: lt))).
  apply (apres_bind_avec _ _ (Forall2 PC cu));
    [apply apres_pour; intros c _; apply HC |].
  intros lc Hlc.
  apply (apres_bind_avec _ _ (Forall2 (PL cu) (seq 0 (nb_transactions * 5)))).
  - apply apres_pour. intros i Hi. apply HL.
    unfold cu, unique, drop_duplicates. simpl.
    destruct (decide (Transaction.client_id r ∈ [])) as [H|H];
      [now apply elem_of_nil in H | discriminate].
  - intros ll Hll. apply apres_ret. simpl in *.
    split; [lia |]. auto.
Qed.

Lemma executer_forme nb_transactions lt lc ll :
  executer G graine random_random randbelow round_ isoformat fake_city
    fake_postcode fake_ipv4 horloge nb_transactions = Some (lt, lc, ll) ->
  (0 < nb_transactions)%nat
  /\ Forall2 (transaction_generee isoformat) (seq 0 nb_transactions) lt
  /\ Forall2 (fun c r => Client.client_id r = c)
       (unique (map Transaction.client_id lt)) lc
  /\ Forall2 (log_genere isoformat) (seq 0 (nb_transactions * 5)) ll.
Proof.
  unfold executer. intros E.
  pose proof (generer_donnees_test_apres nb_transactions
                (transaction_generee isoformat)
                (fun c r => Client.client_id r = c)
                (fun _ => log_genere isoformat)
                generer_transaction_forme generer_client_forme
                (fun cu i _ => generer_log_forme cu i)
                (monde_initial G graine)) as H.
  rewrite E in H. exact H.
Qed.

(** The run raises exactly when no transaction is asked for. *)
Lemma executer_retourne nb_transactions :
  (nb_transactions = 0%nat ->
   executer G graine random_random randbelow round_ isoformat fake_city
     fake_postcode fake_ipv4 horloge nb_transactions = None)
  /\ ((0 < nb_transactions)%nat ->
      is_Some (executer G graine random_random randbelow round_ isoformat
                 fake_city fake_postcode fake_ipv4 horloge nb_transactions)).
Proof.
  pose proof (generer_donnees_test_apres nb_transactions
                (fun _ _ => True) (fun _ _ => True) (fun _ _ _ => True)
                (fun i w => I) (fun c w => I) (fun cu i _ w => I)
                (monde_initial G graine)) as H.
  unfold executer.
  destruct (fst (generer_donnees_test _ _ _ _ _ _ _ _ _ _ _)) as [res|].
  - destruct H as [H _]. split; [lia | eauto].
  - split; [reflexivity | lia].
Qed.

(** X18: the three tables the generator writes, for any random source and
    any clock.  Asked for no transaction the generator raises (the frame of
    an empty list has no [is_fraud] column) before it writes clients and
    logs.  Otherwise it returns exactly [nb_transactions] transactions,
    numbered in order, and five times as many logs, numbered in order; the
    client table has one row for each distinct client identifier of the
    transactions, in order of first appearance, so its keys are pairwise
    distinct and every transaction has its client. *)
Theorem X18_generation_tables nb_transactions :
  (nb_transactions = 0%nat ->
   executer G graine random_random randbelow round_ isoformat fake_city
     fake_postcode fake_ipv4 horloge nb_transactions = None)
  /\ ((0 < nb_transactions)%nat ->
      exists lt lc ll,
        executer G graine random_random randbelow round_ isoformat fake_city
          fake_postcode fake_ipv4 horloge nb_transactions = Some (lt, lc, ll)
        /\ length lt = nb_transactions
        /\ length ll = (nb_transactions * 5)%nat
        /\ map Client.client_id lc = unique (map Transaction.client_id lt)
        /\ NoDup (map Client.client_id lc)
        /\ (0 < length lc <= nb_transactions)%nat
        /\ (forall r, In r lt ->
              In (Transaction.client_id r) (map Client.client_id lc))
        /\ (forall i r, lt !! i = Some r ->
              Transaction.transaction_id r
              = Some (String.append "TRX_" (format_d 8 (Z.of_nat i))))
        /\ (forall i r, ll !! i = Some r ->
              Log.session_id r
              = Some (String.append "SESSION_" (format_d 8 (Z.of_nat i))))).
Proof.
  destruct (executer_retourne nb_transactions) as [H0 Hpos].
  split; [exact H0 |]. intros Hn.
  destruct (Hpos Hn) as [[[lt lc] ll] E]. exists lt, lc, ll.
  split; [exact E |].
  destruct (executer_forme nb_transactions lt lc ll E) as (_ & Ht & Hc & Hl).
  pose proof (Forall2_colonne _ _ _ Hc) as Hcol.
  pose proof (Forall2_length _ _ _ Ht) as Hlen. rewrite length_seq in Hlen.
  split; [now rewrite <- Hlen |].
  split; [apply Forall2_length in Hl; now rewrite length_seq in Hl |].
  split; [exact Hcol |].
  split; [rewrite Hcol; apply unique_NoDup |].
  split.
  { rewrite <- (length_map Client.client_id), Hcol. split.
    - destruct lt as [|r lt]; [simpl in Hlen; lia |].
      unfold unique, drop_duplicates. simpl.
      destruct (decide (Transaction.client_id r ∈ [])) as [H|H];
        [now apply elem_of_nil in H | simpl; lia].
    - unfold unique, drop_duplicates.
      etransitivity; [apply length_drop_duplicates_depuis |].
      rewrite length_map. lia. }
  split.
  { intros r Hr. rewrite Hcol. apply unique_In. now apply in_map. }
  split.
  - intros i r Hr.
    destruct (Forall2_lookup_r _ _ _ _ _ Ht Hr) as (j & Hj & Hf).
    apply lookup_seq in Hj as [-> _]. apply Hf.
  - intros i r Hr.
    destruct (Forall2_lookup_r _ _ _ _ _ Hl Hr) as (j & Hj & Hf).
    apply lookup_seq in Hj as [-> _]. apply Hf.
Qed.

(** X19: the rows of the generated transactions.  Every row has an amount,
    a client identifier and a text timestamp produced by [isoformat]; its
    latitude and longitude are both present when it has a (non-empty) city
    and both missing otherwise. *)
Theorem X19_generation_lignes nb_transactions lt lc ll :
  executer G graine random_random randbelow round_ isoformat fake_city
    fake_postcode fake_ipv4 horloge nb_transactions = Some (lt, lc, ll) ->
  Forall (fun r =>
            is_Some (Transaction.montant r)
            /\ is_Some (Transaction.client_id r)
            /\ (exists t, Transaction.date_heure r = Some (Texte (isoformat t)))
            /\ (truthy (Transaction.ville r) = true ->
                is_Some (Transaction.latitude r)
                /\ is_Some (Transaction.longitude r))
            /\ (truthy (Transaction.ville r) = false ->
                Transaction.latitude r = None /\ Transaction.longitude r = None))
    lt.
Proof.
  intros E.
  destruct (executer_forme nb_transactions lt lc ll E) as (_ & Ht & _ & _).
  apply List.Forall_forall. intros r Hr.
  destruct (Forall2_In_r _ _ _ _ Ht Hr) as (i & _ & _ & Hd & Hv & Hn & Hm & Hc).
  auto 10.
Qed.

(** *** With a random source that keeps to its range *)

Lemma apres_py_randbelow n :
  dans_intervalle randbelow -> (0 < n)%Z ->
  apres (py_randbelow G randbelow n) (fun k => (0 <= k < n)%Z).
Proof.
  intros Hr Hn w. unfold py_randbelow. specialize (Hr n (py G w) Hn).
  destruct (randbelow n (py G w)) as [k g]. exact Hr.
Qed.

Lemma apres_randint a b :
  dans_intervalle randbelow -> (a <= b)%Z ->
  apres (randint G randbelow a b) (fun k => (a <= k <= b)%Z).
Proof.
  intros Hr Hab. unfold randint.
  apply (apres_bind_avec _ _ (fun k => (0 <= k < b - a + 1)%Z));
    [apply apres_py_randbelow; [exact Hr | lia] |].
  intros k Hk. apply apres_ret. lia.
Qed.

Lemma apres_choice {A : Type} (seq : list A) (defaut : A) :
  dans_intervalle randbelow -> seq <> [] ->
  apres (choice G randbelow seq defaut) (fun x => In x seq).
Proof.
  intros Hr Hs. unfold choice.
  apply (apres_bind_avec _ _ (fun k => (0 <= k < Z.of_nat (length seq))%Z)).
  - apply apres_py_randbelow; [exact Hr |]. destruct seq; [contradiction |].
    simpl. lia.
  - intros k Hk. apply apres_ret. apply nth_In. lia.
Qed.

Lemma generer_client_borne client_id :
  dans_intervalle randbelow ->
  apres (generer_client G random_random randbelow fake_postcode horloge client_id)
    (fun r => Client.client_id r = client_id /\ client_borne r).
Proof.
  intros Hr. unfold generer_client. apply apres_bind; intros x.
  apply (apres_bind_avec _ _ (dans_bornes (300 # 1) (850 # 1))).
  { destruct (Qlt_bool (11 # 100) x); [|apply apres_ret; exact I].
    apply (apres_bind_avec _ _ (fun n => (300 <= n <= 850)%Z));
      [apply apres_randint; [exact Hr | lia] |].
    intros n Hn. apply apres_ret. simpl. unfold Qle. simpl. lia. }
  intros score Hscore.
  apply (apres_bind_avec _ _ (fun n => (18 <= n <= 80)%Z));
    [apply apres_randint; [exact Hr | lia] |].
  intros age Hage. do 7 (apply apres_bind; intros ?).
  apply apres_ret. unfold client_borne. simpl. eauto.
Qed.

Lemma generer_log_borne clients_uniques i :
  dans_intervalle randbelow -> clients_uniques <> [] ->
  apres (generer_log G randbelow isoformat fake_ipv4 horloge clients_uniques i)
    (log_borne clients_uniques).
Proof.
  intros Hr Hcu. unfold generer_log.
  apply (apres_bind_avec _ _ (fun c => In c clients_uniques));
    [apply apres_choice; assumption |].
  intros c Hc. do 6 (apply apres_bind; intros ?).
  apply (apres_bind_avec _ _ (fun n => (30 <= n <= 3600)%Z));
    [apply apres_randint; [exact Hr | lia] |].
  intros d Hd. apply apres_ret. unfold log_borne. simpl. eauto.
Qed.

(** X20: with a random source that keeps to its range, every generated log
    belongs to a client of the client table and lasts between 30 and 3600
    seconds, and every generated client has an age between 18 and 80 and a
    credit score that is missing or between 300 and 850. *)
Theorem X20_generation_dans_les_bornes nb_transactions lt lc ll :
  dans_intervalle randbelow ->
  executer G graine random_random randbelow round_ isoformat fake_city
    fake_postcode fake_ipv4 horloge nb_transactions = Some (lt, lc, ll) ->
  Forall (fun r =>
            In (Log.client_id r) (map Client.client_id lc)
            /\ exists d, Log.duree_session_sec r = Some d /\ (30 <= d <= 3600)%Z)
    ll
  /\ Forall (fun r =>
               dans_bornes (300 # 1) (850 # 1) (Client.score_credit r)
               /\ exists age, Client.age r = Some age /\ (18 <= age <= 80)%Z)
       lc.
Proof.
  intros Hr E. unfold executer in E.
  pose proof (generer_donnees_test_apres nb_transactions
                (fun _ _ => True)
                (fun c r => Client.client_id r = c /\ client_borne r)
                (fun cu _ => log_borne cu)
                (fun i w => I)
                (fun c => generer_client_borne c Hr)
                (fun cu i Hcu => generer_log_borne cu i Hr Hcu)
                (monde_initial G graine)) as H.
  rewrite E in H. simpl in H. destruct H as (_ & _ & Hc & Hl).
  assert (Hcol : map Client.client_id lc = unique (map Transaction.client_id lt)).
  { apply Forall2_colonne. eapply Forall2_impl; [exact Hc |].
    intros c r [H _]. exact H. }
  split; apply List.Forall_forall; intros r Hin.
  - destruct (Forall2_In_r _ _ _ _ Hl Hin) as (i & _ & Hb).
    rewrite Hcol. exact Hb.
  - destruct (Forall2_In_r _ _ _ _ Hc Hin) as (c & _ & _ & Hb). exact Hb.
Qed.

(** ** The generated data through the cleaning and the aggregation *)




End Generation_proprietes.

Lemma randbelow_exemple : dans_intervalle Exemple.randbelow.
Proof.
  intros n g Hn. unfold Exemple.randbelow. simpl. apply Z.mod_pos_bound, Hn.
Qed.

Lemma X18_generation_tables_temoin :
  Exemple.lancer Exemple.horloge_lundi 0 = None
  /\ exists lt lc ll,
       Exemple.lancer Exemple.horloge_lundi 3 = Some (lt, lc, ll)
       /\ length lt = 3%nat
       /\ length ll = (3 * 5)%nat
       /\ map Client.client_id lc = unique (map Transaction.client_id lt)
       /\ NoDup (map Client.client_id lc)
       /\ (0 < length lc <= 3)%nat
       /\ (forall r, In r lt ->
             In (Transaction.client_id r) (map Client.client_id lc))
       /\ (forall i r, lt !! i = Some r ->
             Transaction.transaction_id r
             = Some (String.append "TRX_" (format_d 8 (Z.of_nat i))))
       /\ (forall i r, ll !! i = Some r ->
             Log.session_id r
             = Some (String.append "SESSION_" (format_d 8 (Z.of_nat i)))).
Proof.
  split.
  - apply (X18_generation_tables Z Exemple.graine Exemple.random_random
             Exemple.randbelow Exemple.round_ Exemple.isoformat
             Exemple.fake_city Exemple.fake_postcode Exemple.fake_ipv4
             Exemple.horloge_lundi 0). reflexivity.
  - apply (X18_generation_tables Z Exemple.graine Exemple.random_random
             Exemple.randbelow Exemple.round_ Exemple.isoformat
             Exemple.fake_city Exemple.fake_postcode Exemple.fake_ipv4
             Exemple.horloge_lundi 3). lia.
Defined.

Lemma X19_generation_lignes_temoin :
  exists lt lc ll,
    Exemple.lancer Exemple.horloge_lundi 3 = Some (lt, lc, ll)
    /\ Forall (fun r =>
                 is_Some (Transaction.montant r)
                 /\ is_Some (Transaction.client_id r)
                 /\ (exists t, Transaction.date_heure r
                               = Some (Texte (Exemple.isoformat t)))
                 /\ (truthy (Transaction.ville r) = true ->
                     is_Some (Transaction.latitude r)
                     /\ is_Some (Transaction.longitude r))
                 /\ (truthy (Transaction.ville r) = false ->
                     Transaction.latitude r = None
                     /\ Transaction.longitude r = None))
         lt.
Proof.
  eexists _, _, _. split; [vm_compute; reflexivity |].
  eapply (X19_generation_lignes Z Exemple.graine Exemple.random_random
           Exemple.randbelow Exemple.round_ Exemple.isoformat Exemple.fake_city
           Exemple.fake_postcode Exemple.fake_ipv4 Exemple.horloge_lundi 3).
  vm_compute. reflexivity.
Defined.

Lemma X20_generation_dans_les_bornes_temoin :
  exists lt lc ll,
    dans_intervalle Exemple.randbelow
    /\ Exemple.lancer Exemple.horloge_lundi 3 = Some (lt, lc, ll)
    /\ Forall (fun r =>
                 In (Log.client_id r) (map Client.client_id lc)
                 /\ exists d, Log.duree_session_sec r = Some d
                              /\ (30 <= d <= 3600)%Z)
         ll
    /\ Forall (fun r =>
                 dans_bornes (300 # 1) (850 # 1) (Client.score_credit r)
                 /\ exists age, Client.age r = Some age /\ (18 <= age <= 80)%Z)
         lc.
Proof.
  eexists _, _, _. split; [exact randbelow_exemple |].
  split; [vm_compute; reflexivity |].
  eapply (X20_generation_dans_les_bornes Z Exemple.graine Exemple.random_random
           Exemple.randbelow Exemple.round_ Exemple.isoformat Exemple.fake_city
           Exemple.fake_postcode Exemple.fake_ipv4 Exemple.horloge_lundi 3);
    [exact randbelow_exemple | vm_compute; reflexivity].
Defined.

